(** * Tolkien dashboard client (frontend/app.js): a shallow embedding

    The script polls [{API_BASE}/dashboard], keeps the last usable snapshot
    in [localStorage] and renders it into fixed DOM slots.  This file embeds,
    function by function, what app.js does:

    - JavaScript numbers are IEEE binary64 values: Rocq's primitive [float].
      The script never adds or multiplies; it compares numbers and prints
      them, so the number layer is comparisons plus the ECMAScript printing
      algorithms ([Number::toString], [toFixed], [toExponential]) computed
      on the exact value [m * 2^e] of the double, and [toLocaleString],
      which rounds the decimal that [Number::toString] prints and leaves
      the writing of the digits to the locale of the browser.
    - JavaScript strings are byte strings holding the UTF-8 encoding of the
      text.  Concatenation, emptiness and comparison against ASCII literals
      do not depend on the encoding; white space is recognised in its
      encoding, and the upper case of text beyond ASCII is the browser's.
    - A value received from the backend is a JSON tree ([value]); objects are
      association lists in property order.
    - The page is a finite map from element ids to elements, [localStorage] a
      finite map from keys to strings; the effects of the script are written
      in a small state-and-exception monad over both. *)

From Stdlib Require Import ZArith Lia List Ascii String Floats Bool.
From stdpp Require Import base option list gmap strings.

Set Warnings "-inexact-float,-register-all".
Open Scope Z_scope.

(** ** Text helpers *)

Module Text.

(** The double quote character, for the HTML attributes of the card
    template. *)
Definition dq : string := String (ascii_of_nat 34) EmptyString.

Definition digit_char (d : Z) : ascii := ascii_of_nat (48 + Z.to_nat d).

(** Decimal digits of a non-negative integer, most significant first;
    [0] is the one digit "0".  The fuel bounds the number of digits. *)
Fixpoint digits_fuel (fuel : nat) (n : Z) (acc : string) : string :=
  match fuel with
  | O => acc
  | S fuel' =>
      let acc' := String (digit_char (n mod 10)) acc in
      if n <? 10 then acc' else digits_fuel fuel' (n / 10) acc'
  end.

Definition digits (n : Z) : string :=
  digits_fuel (S (Z.to_nat (Z.log2 n))) n EmptyString.

Fixpoint zeros (k : nat) : string :=
  match k with
  | O => EmptyString
  | S k' => String "0" (zeros k')
  end.

(** The first [k] characters of [s], and the rest. *)
Fixpoint take (k : nat) (s : string) : string :=
  match k, s with
  | S k', String c s' => String c (take k' s')
  | _, _ => EmptyString
  end.

Fixpoint drop (k : nat) (s : string) : string :=
  match k, s with
  | S k', String _ s' => drop k' s'
  | _, _ => s
  end.

Fixpoint concat_all (l : list string) : string :=
  match l with
  | [] => EmptyString
  | s :: l' => s +:+ concat_all l'
  end.

(** [join sep l]: the elements of [l] separated by [sep]. *)
Fixpoint join (sep : string) (l : list string) : string :=
  match l with
  | [] => EmptyString
  | [s] => s
  | s :: l' => s +:+ sep +:+ join sep l'
  end.

Definition is_empty (s : string) : bool :=
  match s with
  | EmptyString => true
  | String _ _ => false
  end.

Fixpoint starts_with (p s : string) : bool :=
  match p, s with
  | EmptyString, _ => true
  | String a p', String b s' => if Ascii.eqb a b then starts_with p' s' else false
  | String _ _, EmptyString => false
  end.

Definition upper_ascii (c : ascii) : ascii :=
  let n := nat_of_ascii c in
  if ((97 <=? n) && (n <=? 122))%nat then ascii_of_nat (n - 32) else c.

Fixpoint toUpperCase_ascii (s : string) : string :=
  match s with
  | EmptyString => EmptyString
  | String c s' => String (upper_ascii c) (toUpperCase_ascii s')
  end.

(** Text of ASCII characters only. *)
Fixpoint ascii_text (s : string) : bool :=
  match s with
  | EmptyString => true
  | String c s' => (nat_of_ascii c <? 128)%nat && ascii_text s'
  end.

(** [String.prototype.toUpperCase]: on ASCII text the letters a to z
    become A to Z; text with other characters is converted by the Unicode
    tables of the engine, [unicode]. *)
Definition toUpperCase (unicode : string -> string) (s : string) : string :=
  if ascii_text s then toUpperCase_ascii s else unicode s.

End Text.

(** ** Numbers: binary64 values and the ECMAScript printing algorithms *)

Module JSNumber.
Import Text.

(** A non-negative rational [a / b] is a pair [(a, b)] with [0 < b]. *)
Definition ratio : Type := Z * Z.

(** The exact value [m * 2^e] of a finite double. *)
Definition ratio_of (m : positive) (e : Z) : ratio :=
  if 0 <=? e then (Z.pos m * 2 ^ e, 1) else (Z.pos m, 2 ^ (- e)).

(** [r * 10^p]. *)
Definition scale10 (r : ratio) (p : Z) : ratio :=
  let '(a, b) := r in
  if 0 <=? p then (a * 10 ^ p, b) else (a, b * 10 ^ (- p)).

(** [r * 2^p]. *)
Definition scale2 (r : ratio) (p : Z) : ratio :=
  let '(a, b) := r in
  if 0 <=? p then (a * 2 ^ p, b) else (a, b * 2 ^ (- p)).

(** The integer nearest to [r]; of two, the larger. *)
Definition round_half_up (r : ratio) : Z :=
  let '(a, b) := r in (2 * a + b) / (2 * b).

(** The integer nearest to [r]; of two, the even one. *)
Definition round_half_even (r : ratio) : Z :=
  let '(a, b) := r in
  let q := a / b in
  let t := 2 * (a mod b) in
  if t <? b then q
  else if b <? t then q + 1
  else if Z.even q then q else q + 1.

(** The exponent [e] with [2^52 <= r / 2^e < 2^53], for [0 < r]: the
    binary logarithms of numerator and denominator give it within one. *)
Definition binary_exponent (r : ratio) : Z :=
  let '(a, b) := r in
  let e1 := Z.log2 a - Z.log2 b - 52 in
  let '(a1, b1) := scale2 r (- e1) in
  if a1 <? b1 * 2 ^ 52 then e1 - 1 else e1.

(** The double nearest to the rational [r] (ties to even), as IEEE 754
    rounds a decimal literal: the mantissa is [r / 2^e] rounded, for the
    binary exponent [e] of [r], and not below the subnormal exponent -1074;
    values that round to [2^1024] or more become [infinity]. *)
Definition float_of_ratio (r : ratio) : float :=
  if fst r <=? 0 then zero
  else
    let e := Z.max (binary_exponent r) (-1074) in
    let m := round_half_even (scale2 r (- e)) in
    if m =? 0 then zero
    else
      let '(m', e') := if m =? 2 ^ 53 then (2 ^ 52, e + 1) else (m, e) in
      if 971 <? e' then infinity
      else SF2Prim (S754_finite false (Z.to_pos m') e').

(** The [n] with [10^(n-1) <= r < 10^n], searched upwards from [lo]. *)
Fixpoint magnitude_fuel (fuel : nat) (r : ratio) (n : Z) : Z :=
  match fuel with
  | O => n
  | S fuel' =>
      let '(a, b) := scale10 r (- n) in
      if a <? b then n else magnitude_fuel fuel' r (n + 1)
  end.

Definition magnitude (r : ratio) : Z := magnitude_fuel 640 r (-323).

(** A candidate [(s, k, n)] for the digits of [x]: the decimal
    [s * 10^(n-k)] reads as the double [x]. *)
Definition reads_as (x : float) (skn : Z * Z * Z) : bool :=
  let '(s, k, n) := skn in
  PrimFloat.Leibniz.eqb (float_of_ratio (scale10 (s, 1) (n - k))) x.

(** [k] digits that have grown to [10^k] are the one digit 1 of the next
    magnitude. *)
Definition carry (s k n : Z) : Z * Z * Z :=
  if s =? 10 ^ k then (10 ^ (k - 1), k, n + 1) else (s, k, n).

(** Number::toString, the digits: integers [s], [k], [n] with
    [10^(k-1) <= s < 10^k], the double nearest to [s * 10^(n-k)] being [x],
    and [k] as small as possible; of several [s], the one nearest to [x]
    (the even one on a tie).  Both neighbours of [x / 10^(n0-k)] are
    tried for k = 1, 2, ...; the search ends at the latest when the decimal
    expansion of [x] is exact. *)
Fixpoint shortest_fuel (fuel : nat) (x : float) (r : ratio) (n0 k : Z)
  : Z * Z * Z :=
  let '(a, b) := scale10 r (k - n0) in
  let lo := (a / b, k, n0) in
  match fuel with
  | O => lo
  | S fuel' =>
      let hi := carry (a / b + 1) k n0 in
      let t := 2 * (a mod b) in
      match reads_as x lo, reads_as x hi with
      | true, true =>
          if t <? b then lo
          else if b <? t then hi
          else if Z.even (a / b) then lo else hi
      | true, false => lo
      | false, true => hi
      | false, false => shortest_fuel fuel' x r n0 (k + 1)
      end
  end.

Definition shortest (x : float) (m : positive) (e : Z) : Z * Z * Z :=
  let r := ratio_of m e in
  shortest_fuel 1400 x r (magnitude r) 1.

Definition exponent_suffix (e : Z) : string :=
  "e" +:+ (if 0 <=? e then "+" else "-") +:+ digits (Z.abs e).

(** Number::toString(x) for a finite [x > 0], from its digits. *)
Definition format_shortest (skn : Z * Z * Z) : string :=
  let '(s, k, n) := skn in
  let ds := digits s in
  if (k <=? n) && (n <=? 21) then ds +:+ zeros (Z.to_nat (n - k))
  else if (0 <? n) && (n <=? 21) then
    take (Z.to_nat n) ds +:+ "." +:+ drop (Z.to_nat n) ds
  else if (-6 <? n) && (n <=? 0) then
    "0." +:+ zeros (Z.to_nat (- n)) +:+ ds
  else if k =? 1 then ds +:+ exponent_suffix (n - 1)
  else take 1 ds +:+ "." +:+ drop 1 ds +:+ exponent_suffix (n - 1).

(** Number::toString(x), radix 10. *)
Definition toString (x : float) : string :=
  match Prim2SF x with
  | S754_nan => "NaN"
  | S754_zero _ => "0"
  | S754_infinity s => if s then "-Infinity" else "Infinity"
  | S754_finite s m e =>
      (if s then "-" else "") +:+ format_shortest (shortest (abs x) m e)
  end.

(** The digits of [n] with a decimal point before the last [f] ones
    (Number.prototype.toFixed, steps 11.b to 11.c). *)
Definition fixed_digits (f : nat) (n : Z) : string :=
  let m := digits n in
  match f with
  | O => m
  | S _ =>
      let k := String.length m in
      let m' := if (k <=? f)%nat then zeros (f + 1 - k) +:+ m else m in
      let k' := String.length m' in
      take (k' - f) m' +:+ "." +:+ drop (k' - f) m'
  end.

(** Number.prototype.toFixed(f). *)
Definition toFixed (f : nat) (x : float) : string :=
  match Prim2SF x with
  | S754_nan => "NaN"
  | S754_infinity s => if s then "-Infinity" else "Infinity"
  | S754_zero _ => fixed_digits f 0
  | S754_finite s m e =>
      (if s then "-" else "") +:+
      (if (1e21 <=? abs x)%float then toString (abs x)
       else fixed_digits f (round_half_up (scale10 (ratio_of m e) (Z.of_nat f))))
  end.

(** Number.prototype.toExponential(f), [f] given. *)
Definition toExponential (f : nat) (x : float) : string :=
  let mantissa n :=
    let m := digits n in
    match f with
    | O => m
    | S _ => take 1 m +:+ "." +:+ drop 1 m
    end in
  match Prim2SF x with
  | S754_nan => "NaN"
  | S754_infinity s => if s then "-Infinity" else "Infinity"
  | S754_zero _ =>
      match f with
      | O => "0e+0"
      | S _ => "0." +:+ zeros f +:+ "e+0"
      end
  | S754_finite s m e =>
      let r := ratio_of m e in
      let e0 := magnitude r - 1 in
      let n := round_half_up (scale10 r (Z.of_nat f - e0)) in
      let '(n', e') :=
        if n =? 10 ^ (Z.of_nat f + 1) then (10 ^ Z.of_nat f, e0 + 1) else (n, e0) in
      (if s then "-" else "") +:+ mantissa n' +:+ exponent_suffix e'
  end.

(** Trailing zeros of a fraction removed. *)
Fixpoint strip_trailing_zeros (s : string) : string :=
  match s with
  | EmptyString => EmptyString
  | String c s' =>
      let r := strip_trailing_zeros s' in
      if Ascii.eqb c "0" && is_empty r then EmptyString else String c r
  end.

(** Integer digits in groups of three, separated by [sep]. *)
Fixpoint group3 (sep : string) (s : string) : string :=
  match s with
  | EmptyString => EmptyString
  | String c s' =>
      if negb (is_empty s') && (String.length s' mod 3 =? 0)%nat
      then String c (sep +:+ group3 sep s')
      else String c (group3 sep s')
  end.

(** How a locale writes numbers (what Intl.NumberFormat does with the
    default options, the number of fraction digits apart):
    [format_number neg ip fp] is the text of the decimal with the integer
    digits [ip] and the fraction digits [fp] (no fraction when [fp] is
    empty), negative when [neg]; and the texts of NaN and of the
    infinities. *)
Record locale : Type := Locale {
  format_number : bool -> string -> string -> string;
  format_nan : string;
  format_infinity : bool -> string
}.

(** The en-US locale: a minus sign, the integer digits in groups of
    three, a point before the fraction. *)
Definition en_US : locale :=
  Locale (fun neg ip fp =>
            (if neg then "-" else "") +:+ group3 "," ip
            +:+ (if is_empty fp then "" else "." +:+ fp))
         "NaN"
         (fun neg => (if neg then "-" else "") +:+ "∞").


(** The integer digits and the fraction digits of [n / 10^f]; the
    fraction without its trailing zeros. *)
Definition integer_text (f : nat) (n : Z) : string := digits (n / 10 ^ Z.of_nat f).

Definition fraction_text (f : nat) (n : Z) : string :=
  let m := digits (n mod 10 ^ Z.of_nat f) in
  strip_trailing_zeros (zeros (f - String.length m) +:+ m).

(** The decimal [s * 10^(n-k)] that [Number::toString] prints for a
    finite [x > 0]. *)
Definition printed_decimal (x : float) (m : positive) (e : Z) : ratio :=
  let '(s, k, n) := shortest x m e in scale10 (s, 1) (n - k).

(** Number.prototype.toLocaleString(undefined, {maximumFractionDigits: f})
    in the locale [l].  The number formatter rounds the decimal that
    [Number::toString] prints (not the exact binary value: 0.35 becomes
    0.4 and 1.005 becomes 1.01) to [f] fraction digits, half away from
    zero; the minimum number of fraction digits is 0. *)
Definition toLocaleString (l : locale) (f : nat) (x : float) : string :=
  match Prim2SF x with
  | S754_nan => format_nan l
  | S754_infinity s => format_infinity l s
  | S754_zero s => format_number l s "0" EmptyString
  | S754_finite s m e =>
      let n := round_half_up (scale10 (printed_decimal (abs x) m e) (Z.of_nat f)) in
      format_number l s (integer_text f n) (fraction_text f n)
  end.

End JSNumber.

(** ** JavaScript values and the conversions the script relies on *)

Module JS.
Import Text.

(** What [JSON.parse] can return, and [undefined] for an absent property. *)
Inductive value : Type :=
| Undefined
| Null
| Bool (b : bool)
| Num (x : float)
| Str (s : string)
| Arr (items : list value)
| Obj (fields : list (string * value)).

(** What the script can see thrown. *)
Inductive exn : Type :=
| TypeError                 (* property of null, call of a non-function, ... *)
| SyntaxError               (* JSON.parse *)
| DOMException              (* localStorage refused *)
| NetworkError              (* fetch rejected *)
| HttpError (status : Z).   (* new Error(`HTTP ${r.status}`) *)

Inductive result (A : Type) : Type :=
| Ret (a : A)
| Throw (e : exn).
Arguments Ret {A} a.
Arguments Throw {A} e.

#[export] Instance result_ret : MRet result := fun A a => Ret a.
#[export] Instance result_bind : MBind result := fun A B f m =>
  match m with
  | Ret a => f a
  | Throw e => Throw e
  end.

(** Own property lookup, first binding. *)
Fixpoint lookup_field (name : string) (fields : list (string * value)) : option value :=
  match fields with
  | [] => None
  | (k, v) :: fields' => if String.eqb k name then Some v else lookup_field name fields'
  end.

Definition has_own (name : string) (fields : list (string * value)) : bool :=
  match lookup_field name fields with
  | Some _ => true
  | None => false
  end.

(** [v.name] for the property names of the snapshot and of a transaction
    (none of them is a property of a built-in prototype): the own property
    of an object, [undefined] on any other value that has properties, a
    TypeError on [null] and [undefined]. *)
Definition get (v : value) (name : string) : result value :=
  match v with
  | Undefined | Null => Throw TypeError
  | Obj fields => Ret (default Undefined (lookup_field name fields))
  | _ => Ret Undefined
  end.

(** ToBoolean. *)
Definition truthy (v : value) : bool :=
  match v with
  | Undefined | Null => false
  | Bool b => b
  | Num x => negb (is_nan x || is_zero x)
  | Str s => negb (is_empty s)
  | Arr _ | Obj _ => true
  end.

(** [a || b] on values. *)
Definition or_else (a b : value) : value := if truthy a then a else b.

(** [a ?? b]. *)
Definition coalesce (a b : value) : value :=
  match a with
  | Undefined | Null => b
  | _ => a
  end.

(** ToString.  An array is joined with commas, [null] and [undefined]
    elements printing as nothing; a plain object prints through
    Object.prototype.toString unless an own "toString" property, which is
    no function, hides it. *)
Fixpoint ToString (v : value) : result string :=
  match v with
  | Undefined => Ret "undefined"
  | Null => Ret "null"
  | Bool b => Ret (if b then "true" else "false")
  | Num x => Ret (JSNumber.toString x)
  | Str s => Ret s
  | Arr items =>
      let elem v :=
        match v with
        | Undefined | Null => Ret EmptyString
        | _ => ToString v
        end in
      ss ← (fix each (l : list value) : result (list string) :=
              match l with
              | [] => Ret []
              | v :: l' => s ← elem v; ss ← each l'; Ret (s :: ss)
              end) items;
      Ret (join "," ss)
  | Obj fields =>
      if has_own "toString" fields then Throw TypeError
      else Ret "[object Object]"
  end.

(** *** Numeric literals *)

Definition is_digit (c : ascii) : bool :=
  let n := nat_of_ascii c in ((48 <=? n) && (n <=? 57))%nat.

Definition digit_val (c : ascii) : Z := Z.of_nat (nat_of_ascii c - 48).

(** The value in [radix] of a digit character, if it is one. *)
Definition radix_val (radix : Z) (c : ascii) : option Z :=
  let n := Z.of_nat (nat_of_ascii c) in
  let v := if (48 <=? n) && (n <=? 57) then n - 48
           else if (97 <=? n) && (n <=? 102) then n - 87
           else if (65 <=? n) && (n <=? 70) then n - 55
           else 16 in
  if v <? radix then Some v else None.

(** Leading decimal digits of [s]: their value after [acc], how many they
    are after [cnt], and what follows them. *)
Fixpoint scan_digits (s : string) (acc : Z) (cnt : nat) : Z * nat * string :=
  match s with
  | String c s' =>
      if is_digit c then scan_digits s' (10 * acc + digit_val c) (S cnt)
      else (acc, cnt, s)
  | EmptyString => (acc, cnt, s)
  end.

(** A whole string of digits in [radix], at least one. *)
Fixpoint scan_radix (radix : Z) (s : string) (acc : Z) (cnt : nat) : option Z :=
  match s with
  | String c s' =>
      match radix_val radix c with
      | Some v => scan_radix radix s' (radix * acc + v) (S cnt)
      | None => None
      end
  | EmptyString => if (cnt =? 0)%nat then None else Some acc
  end.

(** An optional exponent part [e], [e+] or [e-] followed by digits: its
    value and the rest, [None] when the digits are missing. *)
Definition scan_exponent (s : string) : option (Z * string) :=
  match s with
  | String c s1 =>
      if Ascii.eqb c "e" || Ascii.eqb c "E" then
        let '(neg, s2) :=
          match s1 with
          | String "-" t => (true, t)
          | String "+" t => (false, t)
          | _ => (false, s1)
          end in
        let '(v, cnt, rest) := scan_digits s2 0 0 in
        if (cnt =? 0)%nat then None else Some (if neg then - v else v, rest)
      else Some (0, s)
  | EmptyString => Some (0, s)
  end.

(** The double nearest to [m * 10^e], [0 <= m].  Far outside the range of
    the doubles ([m * 10^e] is at least [10^399], or below [10^-400]) the
    result is known without computing the power. *)
Definition decimal_to_float (m e : Z) : float :=
  if m =? 0 then zero
  else
    let len := Z.of_nat (String.length (digits m)) in
    if 400 <? len + e then infinity
    else if len + e <? -400 then zero
    else JSNumber.float_of_ratio (JSNumber.scale10 (m, 1) e).

(** StrUnsignedDecimalLiteral without [Infinity]: digits, an optional
    fraction, an optional exponent; at least one digit before the
    exponent.  Returns mantissa and decimal exponent, and the rest. *)
Definition scan_decimal (s : string) : option (Z * Z * string) :=
  let '(ip, ci, s1) := scan_digits s 0 0 in
  let '(m, cf, s2) :=
    match s1 with
    | String "." t => let '(m, c, r) := scan_digits t ip 0 in (m, c, r)
    | _ => (ip, O, s1)
    end in
  if (ci + cf =? 0)%nat then None
  else
    match scan_exponent s2 with
    | Some (e, rest) => Some (m, e - Z.of_nat cf, rest)
    | None => None
    end.

(** StrWhiteSpaceChar in UTF-8: the white space TAB, VT, FF, SP, NBSP
    (U+00A0), ZWNBSP (U+FEFF) and the space separators U+1680, U+2000 to
    U+200A, U+202F, U+205F, U+3000; the line terminators LF, CR, U+2028 and
    U+2029.  One byte, two bytes, three bytes. *)
Definition is_space (c : ascii) : bool :=
  let n := nat_of_ascii c in ((9 <=? n) && (n <=? 13) || (n =? 32))%nat.

Definition is_space2 (c1 c2 : ascii) : bool :=
  ((nat_of_ascii c1 =? 194) && (nat_of_ascii c2 =? 160))%nat.

Definition is_space3 (c1 c2 c3 : ascii) : bool :=
  let n1 := nat_of_ascii c1 in
  let n2 := nat_of_ascii c2 in
  let n3 := nat_of_ascii c3 in
  ((n1 =? 225) && (n2 =? 154) && (n3 =? 128)
   || (n1 =? 226) && (n2 =? 128)
      && ((128 <=? n3) && (n3 <=? 138) || (n3 =? 168) || (n3 =? 169) || (n3 =? 175))
   || (n1 =? 226) && (n2 =? 129) && (n3 =? 159)
   || (n1 =? 227) && (n2 =? 128) && (n3 =? 128)
   || (n1 =? 239) && (n2 =? 187) && (n3 =? 191))%nat.

Fixpoint trim_left (s : string) : string :=
  match s with
  | String c1 s1 =>
      if is_space c1 then trim_left s1
      else
        match s1 with
        | String c2 s2 =>
            if is_space2 c1 c2 then trim_left s2
            else
              match s2 with
              | String c3 s3 => if is_space3 c1 c2 c3 then trim_left s3 else s
              | EmptyString => s
              end
        | EmptyString => s
        end
  | EmptyString => s
  end.

(** What is white space from some character on is cut there. *)
Fixpoint trim_right (s : string) : string :=
  match s with
  | EmptyString => EmptyString
  | String c s' => if is_empty (trim_left s) then EmptyString else String c (trim_right s')
  end.

(** StringToNumber. *)
Definition StringToNumber (s : string) : float :=
  let t := trim_right (trim_left s) in
  let radix_literal (radix : Z) (ds : string) : float :=
    match scan_radix radix ds 0 0 with
    | Some n => JSNumber.float_of_ratio (n, 1)
    | None => nan
    end in
  let decimal (neg : bool) (u : string) : float :=
    if String.eqb u "Infinity" then (if neg then neg_infinity else infinity)
    else
      match scan_decimal u with
      | Some (m, e, EmptyString) =>
          let x := decimal_to_float m e in if neg then (- x)%float else x
      | _ => nan
      end in
  match t with
  | EmptyString => zero
  | String "0" (String "x" ds) | String "0" (String "X" ds) => radix_literal 16 ds
  | String "0" (String "o" ds) | String "0" (String "O" ds) => radix_literal 8 ds
  | String "0" (String "b" ds) | String "0" (String "B" ds) => radix_literal 2 ds
  | String "-" u => decimal true u
  | String "+" u => decimal false u
  | _ => decimal false t
  end.

(** ToNumber.  An object is converted through its primitive value: an
    array through its string, a plain object to NaN unless an own
    "toString" property hides Object.prototype.toString. *)
Definition ToNumber (v : value) : result float :=
  match v with
  | Undefined => Ret nan
  | Null => Ret zero
  | Bool b => Ret (if b then one else zero)
  | Num x => Ret x
  | Str s => Ret (StringToNumber s)
  | Arr _ => s ← ToString v; Ret (StringToNumber s)
  | Obj fields => if has_own "toString" fields then Throw TypeError else Ret nan
  end.

(** [a === b] against a string literal [b]. *)
Definition strict_eq_str (a : value) (b : string) : bool :=
  match a with
  | Str s => String.eqb s b
  | _ => false
  end.

End JS.

(** ** JSON.stringify and JSON.parse *)

Module JSON.
Import Text JS.

Definition hex_digit (n : Z) : ascii :=
  if n <? 10 then digit_char n else ascii_of_nat (87 + Z.to_nat n).

(** QuoteJSONString, one character. *)
Definition escape_char (c : ascii) : string :=
  let n := Z.of_nat (nat_of_ascii c) in
  if n =? 8 then "\b"
  else if n =? 9 then "\t"
  else if n =? 10 then "\n"
  else if n =? 12 then "\f"
  else if n =? 13 then "\r"
  else if n =? 34 then String "\" dq
  else if n =? 92 then "\\"
  else if n <? 32 then
    "\u00" +:+ String (hex_digit (n / 16)) (String (hex_digit (n mod 16)) EmptyString)
  else String c EmptyString.

Fixpoint escape (s : string) : string :=
  match s with
  | EmptyString => EmptyString
  | String c s' => escape_char c +:+ escape s'
  end.

Definition quote (s : string) : string := dq +:+ escape s +:+ dq.

(** SerializeJSONProperty without indentation: [None] is [undefined].
    A number that is not finite prints as null; in an array [undefined]
    prints as null; in an object a property whose value is [undefined] is
    left out. *)
Fixpoint serialize (v : value) : option string :=
  match v with
  | Undefined => None
  | Null => Some "null"
  | Bool b => Some (if b then "true" else "false")
  | Num x =>
      match Prim2SF x with
      | S754_nan | S754_infinity _ => Some "null"
      | _ => Some (JSNumber.toString x)
      end
  | Str s => Some (quote s)
  | Arr items =>
      Some ("[" +:+ join "," (map (fun v => default "null" (serialize v)) items) +:+ "]")
  | Obj fields =>
      Some ("{" +:+
            join "," (omap (fun kv => s ← serialize kv.2; Some (quote kv.1 +:+ ":" +:+ s))
                           fields) +:+ "}")
  end.

(** JSON.stringify(v). *)
Definition stringify (v : value) : option string := serialize v.

(** *** Parsing *)

Definition is_ws (c : ascii) : bool :=
  let n := nat_of_ascii c in ((n =? 32) || (n =? 9) || (n =? 10) || (n =? 13))%nat.

Fixpoint skip_ws (s : string) : string :=
  match s with
  | String c s' => if is_ws c then skip_ws s' else s
  | EmptyString => s
  end.

Definition hex4 (a b c d : ascii) : option Z :=
  a' ← radix_val 16 a; b' ← radix_val 16 b;
  c' ← radix_val 16 c; d' ← radix_val 16 d;
  Some (((a' * 16 + b') * 16 + c') * 16 + d').

Definition byte (n : Z) : ascii := ascii_of_nat (Z.to_nat n).

(** The UTF-8 bytes of a code point (a lone surrogate is encoded like any
    other three-byte code point). *)
Definition utf8 (cp : Z) : string :=
  if cp <? 128 then String (byte cp) EmptyString
  else if cp <? 2048 then
    String (byte (192 + cp / 64)) (String (byte (128 + cp mod 64)) EmptyString)
  else if cp <? 65536 then
    String (byte (224 + cp / 4096))
      (String (byte (128 + (cp / 64) mod 64))
         (String (byte (128 + cp mod 64)) EmptyString))
  else
    String (byte (240 + cp / 262144))
      (String (byte (128 + (cp / 4096) mod 64))
         (String (byte (128 + (cp / 64) mod 64))
            (String (byte (128 + cp mod 64)) EmptyString))).

Definition simple_escape (c : ascii) : option ascii :=
  let n := nat_of_ascii c in
  if (n =? 34)%nat then Some c                       (* quote *)
  else if (n =? 92)%nat then Some c                  (* backslash *)
  else if (n =? 47)%nat then Some c                  (* slash *)
  else if Ascii.eqb c "b" then Some (ascii_of_nat 8)
  else if Ascii.eqb c "f" then Some (ascii_of_nat 12)
  else if Ascii.eqb c "n" then Some (ascii_of_nat 10)
  else if Ascii.eqb c "r" then Some (ascii_of_nat 13)
  else if Ascii.eqb c "t" then Some (ascii_of_nat 9)
  else None.

Definition prepend (p : string) (r : option (string * string)) : option (string * string) :=
  '(s, rest) ← r; Some (p +:+ s, rest).

(** The characters of a string literal after its opening quote, up to the
    closing quote: the text and what follows the literal. *)
Fixpoint parse_string (s : string) : option (string * string) :=
  match s with
  | EmptyString => None
  | String c s1 =>
      let n := nat_of_ascii c in
      if (n =? 34)%nat then Some (EmptyString, s1)
      else if (n =? 92)%nat then
        match s1 with
        | String "u" (String h1 (String h2 (String h3 (String h4 s2)))) =>
            match hex4 h1 h2 h3 h4 with
            | None => None
            | Some hi =>
                if negb ((55296 <=? hi) && (hi <? 56320))
                then prepend (utf8 hi) (parse_string s2)
                else
                  (* a high surrogate: with the low surrogate that may
                     follow it, one code point *)
                  match s2 with
                  | String "\" (String "u" (String l1 (String l2 (String l3 (String l4 s3))))) =>
                      match hex4 l1 l2 l3 l4 with
                      | Some lo =>
                          if (56320 <=? lo) && (lo <? 57344)
                          then prepend (utf8 (65536 + (hi - 55296) * 1024 + (lo - 56320)))
                                 (parse_string s3)
                          else prepend (utf8 hi) (parse_string s2)
                      | None => prepend (utf8 hi) (parse_string s2)
                      end
                  | _ => prepend (utf8 hi) (parse_string s2)
                  end
            end
        | String e s2 =>
            match simple_escape e with
            | Some ch => prepend (String ch EmptyString) (parse_string s2)
            | None => None
            end
        | EmptyString => None
        end
      else if (n <? 32)%nat then None
      else prepend (String c EmptyString) (parse_string s1)
  end.

(** The integer part of a JSON number: [0], or digits without a leading
    zero. *)
Definition integer_part (s : string) : option (Z * string) :=
  match s with
  | String "0" t => Some (0, t)
  | _ =>
      let '(ip, ci, s1) := scan_digits s 0 0 in
      if (ci =? 0)%nat then None else Some (ip, s1)
  end.

(** An optional fraction, a point and at least one digit: the digits
    continue those of the integer part [ip]. *)
Definition fraction_part (ip : Z) (s : string) : option (Z * nat * string) :=
  match s with
  | String "." t =>
      let '(m, c, r) := scan_digits t ip 0 in
      if (c =? 0)%nat then None else Some (m, c, r)
  | _ => Some (ip, O, s)
  end.

Definition unsigned_number (s : string) : option (float * string) :=
  '(ip, s1) ← integer_part s;
  '(m, cf, s2) ← fraction_part ip s1;
  '(e, rest) ← scan_exponent s2;
  Some (decimal_to_float m (e - Z.of_nat cf), rest).

(** A JSON number: an optional minus, an integer part, an optional
    fraction, an optional exponent. *)
Definition parse_number (s : string) : option (float * string) :=
  match s with
  | String "-" t => '(x, rest) ← unsigned_number t; Some ((- x)%float, rest)
  | _ => unsigned_number s
  end.

(** Canonical array index of a property name: such properties come
    first in an object, in ascending order. *)
Definition array_index (k : string) : option Z :=
  match k with
  | EmptyString => None
  | String "0" EmptyString => Some 0
  | String "0" _ => None
  | _ =>
      match scan_digits k 0 0 with
      | (n, _, EmptyString) => if n <? 4294967295 then Some n else None
      | _ => None
      end
  end.

(** [k] is an array index and [k'] a larger one, or not one: a new
    property [k] goes before the property [k']. *)
Definition precedes (k k' : string) : bool :=
  match array_index k, array_index k' with
  | Some i, Some j => i <? j
  | Some _, None => true
  | None, _ => false
  end.

(** CreateDataProperty on the property list of an ordinary object. *)
Fixpoint define_property (k : string) (v : value) (fields : list (string * value))
  : list (string * value) :=
  match fields with
  | [] => [(k, v)]
  | (k', v') :: rest =>
      if String.eqb k' k then (k, v) :: rest
      else if precedes k k' then (k, v) :: fields
      else (k', v') :: define_property k v rest
  end.

Definition expect (lit : string) (v : value) (s : string) : option (value * string) :=
  if starts_with lit s then Some (v, drop (String.length lit) s) else None.

(** The items of an array after its opening bracket, [acc] being those
    read so far in reverse: each is read by [value], and a comma or the
    closing bracket follows it. *)
Fixpoint parse_elements (value : string -> option (JS.value * string))
    (fuel : nat) (s : string) (acc : list JS.value) : option (JS.value * string) :=
  match fuel with
  | O => None
  | S fuel' =>
      '(v, r) ← value s;
      match skip_ws r with
      | String "," r' => parse_elements value fuel' r' (v :: acc)
      | String "]" r' => Some (Arr (rev (v :: acc)), r')
      | _ => None
      end
  end.

(** The members of an object after its opening brace, [acc] being the
    properties defined so far: a string, a colon, a value read by [value],
    and a comma or the closing brace. *)
Fixpoint parse_members (value : string -> option (JS.value * string))
    (fuel : nat) (s : string) (acc : list (string * JS.value)) : option (JS.value * string) :=
  match fuel with
  | O => None
  | S fuel' =>
      match skip_ws s with
      | String q s1 =>
          if (nat_of_ascii q =? 34)%nat then
            '(k, s2) ← parse_string s1;
            match skip_ws s2 with
            | String ":" s3 =>
                '(v, r) ← value s3;
                let acc' := define_property k v acc in
                match skip_ws r with
                | String "," r' => parse_members value fuel' r' acc'
                | String "}" r' => Some (Obj acc', r')
                | _ => None
                end
            | _ => None
            end
          else None
      | EmptyString => None
      end
  end.

(** The value at the start of [s] and what follows it.  The fuel bounds
    the nesting of arrays and objects; a list has fewer items than
    characters. *)
Fixpoint parse_value (fuel : nat) (s : string) : option (value * string) :=
  match fuel with
  | O => None
  | S fuel' =>
      match skip_ws s with
      | EmptyString => None
      | String c s1 as t =>
          if Ascii.eqb c "n" then expect "null" Null t
          else if Ascii.eqb c "t" then expect "true" (Bool true) t
          else if Ascii.eqb c "f" then expect "false" (Bool false) t
          else if (nat_of_ascii c =? 34)%nat then
            '(str, r) ← parse_string s1; Some (Str str, r)
          else if Ascii.eqb c "[" then
            match skip_ws s1 with
            | String "]" r => Some (Arr [], r)
            | _ => parse_elements (parse_value fuel') (String.length s1) s1 []
            end
          else if Ascii.eqb c "{" then
            match skip_ws s1 with
            | String "}" r => Some (Obj [], r)
            | _ => parse_members (parse_value fuel') (String.length s1) s1 []
            end
          else '(x, r) ← parse_number t; Some (Num x, r)
      end
  end.

(** JSON.parse(s). *)
Definition parse (s : string) : result value :=
  match parse_value (S (String.length s)) s with
  | Some (v, rest) => if is_empty (skip_ws rest) then Ret v else Throw SyntaxError
  | None => Throw SyntaxError
  end.

End JSON.

(** ** The page, the storage and the effects of the script *)

Module Host.
Import Text JS.

(** What an element shows: its children were last written through
    [textContent] or through [innerHTML]. *)
Inductive content : Type :=
| Text (s : string)
| Html (s : string).

Record element : Type := Element {
  el_content : content;
  el_width : string          (* style.width *)
}.

(** [localStorage]: the stored items; access can be denied altogether
    (every call throws), and [setItem] throws when the value does not fit
    the quota. *)
Record storage : Type := Storage {
  items : gmap string string;
  denied : bool;
  quota : option nat
}.

Record world : Type := World {
  page : gmap string element;     (* the elements that the script looks up
                                     by id, and the others of the document
                                     that have one; not what [innerHTML]
                                     makes inside them *)
  store : storage;
  console : list exn              (* what console.error was given *)
}.

(** A computation of the script: it reads and writes the world and
    either returns or throws; what it wrote before throwing stays. *)
Definition Eff (A : Type) : Type := world -> result A * world.

Definition ret {A} (a : A) : Eff A := fun w => (Ret a, w).
Definition throw {A} (e : exn) : Eff A := fun w => (Throw e, w).
Definition bind {A B} (m : Eff A) (f : A -> Eff B) : Eff B := fun w =>
  match m w with
  | (Ret a, w') => f a w'
  | (Throw e, w') => (Throw e, w')
  end.
Definition lift {A} (r : result A) : Eff A := fun w => (r, w).

(** [try { m } catch (e) { h e }]. *)
Definition try_catch {A} (m : Eff A) (h : exn -> Eff A) : Eff A := fun w =>
  match m w with
  | (Ret a, w') => (Ret a, w')
  | (Throw e, w') => h e w'
  end.

#[export] Instance eff_ret : MRet Eff := @ret.
#[export] Instance eff_bind : MBind Eff := fun A B f m => bind m f.

(** [document.getElementById(id)]: the element, named by its id, or null. *)
Definition getElementById (id : string) : Eff (option string) := fun w =>
  (Ret match page w !! id with
       | Some _ => Some id
       | None => None
       end, w).

Definition update_element (id : string) (f : element -> element) : Eff unit :=
  fun w => (Ret tt, World (alter f id (page w)) (store w) (console w)).

Definition set_textContent (id s : string) : Eff unit :=
  update_element id (fun el => Element (Text s) (el_width el)).

(** [el.innerHTML = s]: the element then holds the markup [s].  The
    elements that the browser makes of the markup are not in [page]. *)
Definition set_innerHTML (id s : string) : Eff unit :=
  update_element id (fun el => Element (Html s) (el_width el)).

Definition set_style_width (id s : string) : Eff unit :=
  update_element id (fun el => Element (el_content el) s).

Definition console_error (e : exn) : Eff unit :=
  fun w => (Ret tt, World (page w) (store w) (console w ++ [e])).

(** [localStorage.getItem(key)]: the stored string, or null. *)
Definition getItem (key : string) : Eff (option string) := fun w =>
  if denied (store w) then (Throw DOMException, w)
  else (Ret (items (store w) !! key), w).

(** [localStorage.setItem(key, s)]. *)
Definition setItem (key s : string) : Eff unit := fun w =>
  let st := store w in
  if denied st then (Throw DOMException, w)
  else
    match quota st with
    | Some q =>
        if (q <? String.length key + String.length s)%nat then (Throw DOMException, w)
        else (Ret tt, World (page w) (Storage (<[key := s]> (items st)) (denied st) (quota st)) (console w))
    | None =>
        (Ret tt, World (page w) (Storage (<[key := s]> (items st)) (denied st) (quota st)) (console w))
    end.

(** What the browser provides and this file does not look into: the
    default locale, by which [toLocaleString] writes a number; the
    upper-case conversion of text that has characters beyond ASCII, which
    follows the Unicode tables; and [new Date(v).toLocaleString()] for a
    primitive [v], which the locale and the time zone decide. *)
Record browser : Type := Browser {
  default_locale : JSNumber.locale;
  unicode_upper : string -> string;
  Date_toLocaleString : value -> string
}.

(** What [fetch] settles to: a rejection, or a response with its status
    and body ([ok] is a status from 200 to 299). *)
Inductive fetched : Type :=
| Rejected
| Response (status : Z) (body : string).

End Host.

(** ** app.js *)

Module App.
Import Text JS Host.

(** [x || 0] on a number: NaN and both zeros give [0]. *)
Definition or_zero (x : float) : float :=
  if is_nan x || is_zero x then zero else x.

(** Math.min and Math.max of two numbers: NaN if either is; of the two
    zeros, [-0] is the smaller. *)
Definition Math_min (a b : float) : float :=
  if is_nan a || is_nan b then nan
  else if (a <? b)%float then a
  else if (b <? a)%float then b
  else match Prim2SF a with
       | S754_zero true => a
       | _ => b
       end.

Definition Math_max (a b : float) : float :=
  if is_nan a || is_nan b then nan
  else if (a <? b)%float then b
  else if (b <? a)%float then a
  else match Prim2SF a with
       | S754_zero false => a
       | _ => b
       end.

(** [/^(localhost|127\.)/.test(hostname)] *)
Definition isLocal (hostname : string) : bool :=
  starts_with "localhost" hostname || starts_with "127." hostname.

(** [s.replace(/\/+$/, '')] *)
Fixpoint strip_trailing_slashes (s : string) : string :=
  match s with
  | EmptyString => EmptyString
  | String c s' =>
      let r := strip_trailing_slashes s' in
      if Ascii.eqb c "/" && is_empty r then EmptyString else String c r
  end.

(** [API_BASE], from [location.hostname] and [window.API_BASE]
    ([undefined] when the page does not set it).  Only a string has a
    [replace] method. *)
Definition API_BASE (hostname : string) (override : value) : result string :=
  match or_else override (Str (if isLocal hostname then "http://127.0.0.1:8000" else EmptyString)) with
  | Str s => Ret (strip_trailing_slashes s)
  | _ => Throw TypeError
  end.

(** [$(id)] *)
Definition dollar (id : string) : Eff (option string) := getElementById id.

Section Script.

(** The browser that runs the script. *)
Variable env : browser.

Definition fmtUSD (n : value) : result string :=
  x ← ToNumber n;
  Ret ("$" +:+ JSNumber.toLocaleString (default_locale env) 2 (or_zero x)).

Definition fmtPct (n : value) : result string :=
  x ← ToNumber n;                                   (* n >= 0 *)
  y ← ToNumber (or_else n (Num zero));              (* Number(n || 0) *)
  Ret ((if (0 <=? x)%float then "+" else EmptyString)
       +:+ JSNumber.toLocaleString (default_locale env) 1 y +:+ "%").

Definition fmtPrice (n : value) : result string :=
  x ← ToNumber n;
  let p := or_zero x in
  Ret (if (0.01 <=? p)%float then "$" +:+ JSNumber.toFixed 4 p
       else if (0.000001 <=? p)%float then "$" +:+ JSNumber.toFixed 8 p
       else if (0 <? p)%float then "$" +:+ JSNumber.toExponential 2 p
       else "$0.00").

Definition CACHE_KEY : string := "tolkien_dashboard_cache_v1".

Definition loadCache : Eff value :=
  try_catch
    (s ← getItem CACHE_KEY;
     match s with
     | Some (String _ _ as text) => lift (JSON.parse text)
     | _ => mret Null
     end)
    (fun _ => mret Null).

(** [setItem] stores the string of its argument, "undefined" when
    [JSON.stringify] gives [undefined]. *)
Definition saveCache (d : value) : Eff unit :=
  try_catch
    (setItem CACHE_KEY (default "undefined" (JSON.stringify d)))
    (fun _ => mret tt).

Definition isUsable (d : value) : result bool :=
  if negb (truthy d) then Ret false
  else
    price ← get d "price_usd";
    x ← ToNumber price;
    if (0 <? x)%float then Ret true
    else
      cap ← get d "market_cap_usd";
      y ← ToNumber cap;
      if (0 <? y)%float then Ret true
      else
        txs ← get d "transactions";
        Ret match txs with
            | Arr (_ :: _) => true
            | _ => false
            end.

Definition setWidth (el : option string) (pct : value) : Eff unit :=
  match el with
  | None => mret tt
  | Some id =>
      x ← lift (ToNumber pct);
      let v := Math_max 0 (Math_min 100 (or_zero x)) in
      set_style_width id (JSNumber.toString v +:+ "%")
  end.

(** [if ($(id)) $(id).textContent = text], [text] being evaluated only
    when the element exists. *)
Definition set_text_if_present (id : string) (text : result string) : Eff unit :=
  el ← dollar id;
  match el with
  | None => mret tt
  | Some _ => s ← lift text; set_textContent id s
  end.

Definition nl : string := String (ascii_of_nat 10) EmptyString.

Definition placeholder : string :=
  "<div class=" +:+ dq +:+ "text-sm opacity-70 px-2" +:+ dq +:+ ">No recent transactions.</div>".

(** [new Date(v)] converts an object to a primitive first. *)
Definition when_of (timestamp : value) : result string :=
  if truthy timestamp then
    match timestamp with
    | Arr _ | Obj _ => s ← ToString timestamp; Ret (Date_toLocaleString env (Str s))
    | _ => Ret (Date_toLocaleString env timestamp)
    end
  else Ret EmptyString.

Definition icon_of (kind : value) : string :=
  if strict_eq_str kind "burn" then "🔥"
  else if strict_eq_str kind "buyback" then "🌀"
  else if strict_eq_str kind "claim" then "💸"
  else "ℹ️".

Definition title_of (kind : value) : string :=
  if strict_eq_str kind "burn" then "Burn transaction"
  else if strict_eq_str kind "buyback" then "Buy-back"
  else if strict_eq_str kind "claim" then "Claim creator fee"
  else "Event".

(** [(kind || '').toUpperCase()]: a method of strings only. *)
Definition upper_kind (kind : value) : result string :=
  match or_else kind (Str EmptyString) with
  | Str s => Ret (toUpperCase (unicode_upper env) s)
  | _ => Throw TypeError
  end.

Definition meta_of (kind amount_sol : value) : result string :=
  k ← upper_kind kind;
  a ← ToString (coalesce amount_sol (Num zero));
  Ret (k +:+ " — " +:+ a +:+ " SOL").

Definition href_of (signature : value) : result string :=
  if truthy signature then
    sig ← ToString signature; Ret ("https://solscan.io/tx/" +:+ sig)
  else Ret "#".

Definition safe_of (signature : value) : string :=
  if truthy signature
  then "target=" +:+ dq +:+ "_blank" +:+ dq +:+ " rel=" +:+ dq +:+ "noreferrer" +:+ dq
  else EmptyString.

(** The template of one card. *)
Definition card_html (icon title meta desc when href safe : string) : string :=
  concat_all [
    nl; "      <div class="; dq; "card compact skinny flex-shrink-0 snap-start"; dq; ">"; nl;
    "        <div class="; dq; "flex items-center justify-center text-4xl text-neon mb-3"; dq; ">";
      icon; "</div>"; nl;
    "        <h3 class="; dq; "font-semibold mb-1"; dq; ">"; title; "</h3>"; nl;
    "        <div class="; dq; "meta mb-2"; dq; ">"; meta; "</div>"; nl;
    "        <p class="; dq; "text-xs mb-4"; dq; ">"; desc; "<br><span class="; dq; "opacity-60"; dq; ">";
      when; "</span></p>"; nl;
    "        <div><a href="; dq; href; dq; " "; safe; " class="; dq; "card-button block text-center"; dq;
      ">VIEW TRANSACTION</a></div>"; nl;
    "      </div>"
  ].

(** The callback of [map]. *)
Definition card (tx : value) : result string :=
  kind ← get tx "kind";
  let icon := icon_of kind in
  let title := title_of kind in
  amount_sol ← get tx "amount_sol";
  meta ← meta_of kind amount_sol;
  description ← get tx "description";
  let desc := or_else description (Str EmptyString) in
  timestamp ← get tx "timestamp";
  when ← when_of timestamp;
  signature ← get tx "signature";
  href ← href_of signature;
  let safe := safe_of signature in
  desc_text ← ToString desc;
  Ret (card_html icon title meta desc_text when href safe).

(** [items.map(card)], stopping at the first exception. *)
Fixpoint map_cards (items : list value) : result (list string) :=
  match items with
  | [] => Ret []
  | tx :: items' => c ← card tx; cs ← map_cards items'; Ret (c :: cs)
  end.

(** [(d.transactions || []).map(...)]: only an array has [map]. *)
Definition cards_of (d : value) : result (list string) :=
  txs ← get d "transactions";
  match or_else txs (Arr []) with
  | Arr items => map_cards items
  | _ => Throw TypeError
  end.

Definition renderDashboard (d : value) : Eff unit :=
  _ ← set_text_if_present "statPrice" (v ← get d "price_usd"; fmtPrice v);
  _ ← set_text_if_present "statVolume" (v ← get d "volume_change_pct"; fmtPct v);
  _ ← set_text_if_present "statBuybacks" (v ← get d "buybacks_usd"; fmtUSD v);
  _ ← set_text_if_present "statBurned" (v ← get d "burned_usd"; fmtUSD v);
  _ ← set_text_if_present "goalLabel"
        (cap ← get d "market_cap_usd"; a ← fmtUSD cap;
         goal ← get d "next_goal_usd"; b ← fmtUSD goal;
         Ret ("(" +:+ a +:+ " / " +:+ b +:+ ")"));
  _ ← set_text_if_present "goalPctLabel"
        (v ← get d "next_goal_progress_pct"; s ← ToString v; Ret (s +:+ "%"));
  goalFill ← dollar "goalFill";
  pct ← lift (get d "next_goal_progress_pct");
  _ ← setWidth goalFill pct;
  _ ← set_text_if_present "burnPctLabel"
        (v ← get d "supply_burned_pct"; s ← ToString v; Ret (s +:+ "%"));
  burnFill ← dollar "burnFill";
  burned ← lift (get d "supply_burned_pct");
  _ ← setWidth burnFill burned;
  contractAddress ← dollar "contractAddress";
  _ ← match contractAddress with
      | None => mret tt
      | Some _ =>
          mint ← lift (get d "token_mint");
          if truthy mint then
            s ← lift (ToString mint); set_textContent "contractAddress" s
          else mret tt
      end;
  list ← dollar "txList";
  match list with
  | None => mret tt
  | Some _ =>
      cards ← lift (cards_of d);
      let html := concat_all cards in
      set_innerHTML "txList" (if is_empty html then placeholder else html)
  end.

(** One run of [fetchDashboard]: [api] is [API_BASE], [net] what a
    request of a URL settles to at this time. *)
Definition fetchDashboard (api : string) (net : string -> fetched) : Eff unit :=
  try_catch
    (if is_empty api then mret tt
     else
       match net (api +:+ "/dashboard") with
       | Rejected => throw NetworkError
       | Response status body =>
           if negb ((200 <=? status) && (status <=? 299)) then throw (HttpError status)
           else
             data ← lift (JSON.parse body);
             usable ← lift (isUsable data);
             if usable : bool then
               (_ ← saveCache data; renderDashboard data) : Eff unit
             else mret tt
       end)
    console_error.

(** The script up to its first request: the initial paint from the
    cache, then [fetchDashboard]. *)
Definition startup (api : string) (net : string -> fetched) : Eff unit :=
  initial ← loadCache;
  _ ← (if truthy initial then renderDashboard initial else mret tt);
  fetchDashboard api net.

(** [setInterval(fetchDashboard, 5000)]: one more run of [fetchDashboard]
    at every tick.  A run writes (storage, page or console) in a single
    turn of the event loop, when its request has settled; so runs that are
    in flight together act one after the other, in the order in which
    their requests settle.  [nets] lists, in this order, what the request
    of each run settles to. *)
Fixpoint poll (api : string) (nets : list (string -> fetched)) : Eff unit :=
  match nets with
  | [] => mret tt
  | net :: nets' => _ ← fetchDashboard api net; poll api nets'
  end.

End Script.

End App.

(** * The claims of the specification, in its own words *)

Module Spec.
Import Text JS Host App.

(** [d.name], [undefined] where the access itself fails. *)
Definition field (d : value) (name : string) : value :=
  match get d name with
  | Ret v => v
  | Throw _ => Undefined
  end.

(** Neither an array nor an object. *)
Definition primitive (v : value) : bool :=
  match v with
  | Arr _ | Obj _ => false
  | _ => true
  end.

(** [v > 0], as JavaScript compares a value with a number. *)
Definition above_zero (v : value) : bool :=
  match ToNumber v with
  | Ret x => (0 <? x)%float
  | Throw _ => false
  end.

Definition nonempty_sequence (v : value) : bool :=
  match v with
  | Arr (_ :: _) => true
  | _ => false
  end.

Definition non_null (d : value) : bool :=
  match d with
  | Null => false
  | _ => true
  end.

(** "non-null AND (price_usd > 0 OR market_cap_usd > 0 OR transactions is
    a non-empty ordered sequence)" *)
Definition usable (d : value) : bool :=
  non_null d &&
  (above_zero (field d "price_usd") || above_zero (field d "market_cap_usd")
   || nonempty_sequence (field d "transactions")).

(** The all-zero snapshot with no transactions. *)
Definition zero_snapshot : value :=
  Obj [("price_usd", Num 0); ("volume_change_pct", Num 0);
       ("buybacks_usd", Num 0); ("burned_usd", Num 0);
       ("market_cap_usd", Num 0); ("next_goal_usd", Num 0);
       ("next_goal_progress_pct", Num 0); ("supply_burned_pct", Num 0);
       ("token_mint", Str EmptyString); ("transactions", Arr [])].

(** "clamp percentage into [0, 100]" *)
Definition clamp (pct : float) : float :=
  if (pct <? 0)%float then 0%float
  else if (100 <? pct)%float then 100%float
  else pct.

(** [s] begins with [p]. *)
Definition begins_with (p s : string) : Prop := exists t, s = p +:+ t.

Definition ends_with_slash (s : string) : Prop := exists t, s = t +:+ "/".

Fixpoint slashes (n : nat) : string :=
  match n with
  | O => EmptyString
  | S n' => String "/" (slashes n')
  end.

(** [r] is [s] with its trailing slashes stripped. *)
Definition stripped (s r : string) : Prop :=
  (exists n, s = r +:+ slashes n) /\ ~ ends_with_slash r.

Definition local_url : string := "http://127.0.0.1:8000".

(** [window.API_BASE] for an optional override. *)
Definition override_value (o : option string) : value :=
  match o with
  | Some s => Str s
  | None => Undefined
  end.

(** The local-loopback pattern as the claim words it: the hostname is
    "localhost" or begins with "127.". *)
Definition loopback_as_claimed (h : string) : Prop :=
  h = "localhost" \/ begins_with "127." h.

(** The API base as the claim words it. *)
Definition API_BASE_as_claimed (h : string) (o : option string) : Prop :=
  exists r,
    API_BASE h (override_value o) = Ret r /\
    (loopback_as_claimed h -> o = None -> r = local_url) /\
    (~ (loopback_as_claimed h /\ o = None) ->
     stripped match o with Some s => s | None => EmptyString end r).

(** The value of a primitive as text ([ToString] cannot fail on it). *)
Definition text_of (v : value) : string :=
  match ToString v with
  | Ret s => s
  | Throw _ => EmptyString
  end.

(** A transaction as the data model has it: an object whose [kind] is a
    string or absent, and whose other fields are primitive values or
    absent. *)
Definition transaction_shaped (tx : value) : bool :=
  match tx with
  | Obj _ =>
      match field tx "kind" with
      | Str _ | Undefined | Null => true
      | _ => false
      end
      && primitive (field tx "amount_sol")
      && primitive (field tx "description")
      && primitive (field tx "timestamp")
      && primitive (field tx "signature")
  | _ => false
  end.

(** The 4-way lookup on [kind]: icon and title. *)
Definition kind_table : list (string * (string * string)) :=
  [("burn", ("🔥", "Burn transaction"));
   ("buyback", ("🌀", "Buy-back"));
   ("claim", ("💸", "Claim creator fee"))].

Definition other_kind : string * string := ("ℹ️", "Event").

Fixpoint assoc {A : Type} (k : string) (l : list (string * A)) : option A :=
  match l with
  | [] => None
  | (k', a) :: l' => if String.eqb k k' then Some a else assoc k l'
  end.

Definition lookup_kind (kind : value) : string * string :=
  match kind with
  | Str s => default other_kind (assoc s kind_table)
  | _ => other_kind
  end.

(** The text of [kind], empty when absent. *)
Definition kind_text (kind : value) : string :=
  match kind with
  | Str s => s
  | _ => EmptyString
  end.

(** The SOL amount, 0 when absent. *)
Definition amount_text (amount_sol : value) : string :=
  match amount_sol with
  | Undefined | Null => "0"
  | a => text_of a
  end.

Definition meta_line (env : browser) (tx : value) : string :=
  toUpperCase (unicode_upper env) (kind_text (field tx "kind")) +:+ " — "
  +:+ amount_text (field tx "amount_sol") +:+ " SOL".

(** The markup [html] of a card shows the icon in its box, then the title
    in the heading, then the meta line in its box, then the link with its
    target [href] and the attributes [safe]. *)
Definition card_shows (html icon title meta href safe : string) : Prop :=
  exists a b c d e,
    html =
    a +:+ "<div class=" +:+ dq +:+ "flex items-center justify-center text-4xl text-neon mb-3"
      +:+ dq +:+ ">" +:+ icon +:+ "</div>"
    +:+ b +:+ "<h3 class=" +:+ dq +:+ "font-semibold mb-1" +:+ dq +:+ ">" +:+ title +:+ "</h3>"
    +:+ c +:+ "<div class=" +:+ dq +:+ "meta mb-2" +:+ dq +:+ ">" +:+ meta +:+ "</div>"
    +:+ d +:+ "<a href=" +:+ dq +:+ href +:+ dq +:+ " " +:+ safe +:+ " class=" +:+ dq
      +:+ "card-button block text-center" +:+ dq +:+ ">VIEW TRANSACTION</a>" +:+ e.

(** The link of a card: its target, and the attributes that open it in a
    new tab (none on the placeholder link). *)
Definition link (tx : value) : string * string :=
  let signature := field tx "signature" in
  if truthy signature
  then ("https://solscan.io/tx/" +:+ text_of signature,
        "target=" +:+ dq +:+ "_blank" +:+ dq +:+ " rel=" +:+ dq +:+ "noreferrer" +:+ dq)
  else ("#", EmptyString).

(** [needle] occurs in [s]. *)
Fixpoint contains (needle s : string) : bool :=
  starts_with needle s ||
  match s with
  | EmptyString => false
  | String _ s' => contains needle s'
  end.

(** The transaction of the example: a burn of 2.5 SOL without signature. *)
Definition burn_example : value :=
  Obj [("kind", Str "burn"); ("amount_sol", Num 2.5)].

(** The fields of a snapshot that [renderDashboard] prints. *)
Definition printed_fields : list string :=
  ["price_usd"; "volume_change_pct"; "buybacks_usd"; "burned_usd";
   "market_cap_usd"; "next_goal_usd"; "next_goal_progress_pct";
   "supply_burned_pct"; "token_mint"].

(** A snapshot as the data model has it: an object whose printed fields
    are primitive values (numbers and a string) or absent. *)
Definition snapshot_shaped (d : value) : bool :=
  match d with
  | Obj _ => forallb (fun name => primitive (field d name)) printed_fields
  | _ => false
  end.

(** The transactions are an empty sequence, or absent. *)
Definition no_transactions (d : value) : bool :=
  match field d "transactions" with
  | Arr [] | Undefined | Null => true
  | _ => false
  end.

(** What an element shows. *)
Definition shown (id : string) (w : world) : option content :=
  el_content <$> page w !! id.

(** The exact value of a double that is positive and finite. *)
Definition exact (x : float) : option JSNumber.ratio :=
  match Prim2SF x with
  | S754_finite false m e => Some (JSNumber.ratio_of m e)
  | _ => None
  end.

(** [n] is an integer nearest to the rational [r]. *)
Definition nearest (r : JSNumber.ratio) (n : Z) : Prop :=
  2 * Z.abs (n * snd r - fst r) <= snd r.

(** A plain decimal numeral, digits with an optional fraction after a
    point: the integer that all its digits spell, and the number of
    fractional digits. *)
Definition read_decimal (s : string) : option (Z * nat) :=
  let '(ip, ci, r) := scan_digits s 0 0 in
  match r with
  | String "." t =>
      let '(n, cf, r') := scan_digits t ip 0 in
      if (0 <? ci)%nat && (0 <? cf)%nat && is_empty r' then Some (n, cf) else None
  | EmptyString => if (0 <? ci)%nat then Some (ip, O) else None
  | _ => None
  end.

(** [text] shows the positive number [x] with [f] fractional digits: it is
    a decimal numeral with [f] digits after the point, a nearest one to
    [x]. *)
Definition shows_fixed (f : nat) (x : float) (text : string) : Prop :=
  exists r n, exact x = Some r /\ read_decimal text = Some (n, f) /\
              nearest (JSNumber.scale10 r (Z.of_nat f)) n.

(** What stands before the first "e" of [s], and after it. *)
Fixpoint split_exponent (s : string) : option (string * string) :=
  match s with
  | EmptyString => None
  | String c s' =>
      if Ascii.eqb c "e" then Some (EmptyString, s')
      else '(a, b) ← split_exponent s'; Some (String c a, b)
  end.

(** A numeral in scientific notation, [d.ddd] then [e], a sign and the
    digits of the exponent: the integer that the digits of the mantissa
    spell, the number of its fractional digits, and the exponent. *)
Definition read_scientific (s : string) : option (Z * nat * Z) :=
  '(mantissa, exponent) ← split_exponent s;
  '(n, f) ← read_decimal mantissa;
  match exponent with
  | String sign ds =>
      match scan_digits ds 0 0 with
      | (e, S _, EmptyString) =>
          if Ascii.eqb sign "+" then Some (n, f, e)
          else if Ascii.eqb sign "-" then Some (n, f, - e)
          else None
      | _ => None
      end
  | EmptyString => None
  end.

(** [text] shows the positive number [x] in scientific notation with [f]
    fractional digits: one digit other than 0 before the point, [f] after
    it, and [n * 10^(e-f)] is nearest to [x]. *)
Definition shows_scientific (f : nat) (x : float) (text : string) : Prop :=
  exists r n e, exact x = Some r /\ read_scientific text = Some (n, f, e) /\
                10 ^ Z.of_nat f <= n < 10 ^ (Z.of_nat f + 1) /\
                nearest (JSNumber.scale10 r (Z.of_nat f - e)) n.

(** The first tier of the price formatter as the claim words it, for every
    [p >= 0.01]. *)
Definition price_first_tier_as_claimed (p : float) : Prop :=
  (0.01 <=? p)%float = true ->
  exists text, fmtPrice (Num p) = Ret ("$" +:+ text) /\ shows_fixed 4 p text.

(** The decimal numeral with the integer digits [ip] and the fraction
    digits [fp], if any. *)
Definition plain_decimal (ip fp : string) : string :=
  ip +:+ (if is_empty fp then EmptyString else "." +:+ fp).

(** The digits [ip] and [fp] are [r] rounded to at most [f] fractional
    digits: [fp] has at most [f] digits, and the numeral is a nearest
    multiple of [10^-f] to [r]. *)
Definition rounds_to (f : nat) (r : JSNumber.ratio) (ip fp : string) : Prop :=
  (String.length fp <= f)%nat /\
  (exists n : Z,
      (read_decimal (plain_decimal ip fp) = Some (n, String.length fp)) /\
      (nearest (JSNumber.scale10 r (Z.of_nat f))
               (n * 10 ^ Z.of_nat (f - String.length fp)))).

(** [text] is the number [x] as the locale [l] writes it with at most [f]
    fractional digits: the locale's text of NaN, of an infinity, of zero;
    or the locale's text of digits that are, rounded to at most [f]
    fractional digits, the decimal that [Number::toString] prints for the
    magnitude of [x]. *)
Definition shows_number (l : JSNumber.locale) (f : nat) (x : float) (text : string)
  : Prop :=
  match Prim2SF x with
  | S754_nan => text = JSNumber.format_nan l
  | S754_infinity s => text = JSNumber.format_infinity l s
  | S754_zero s => text = JSNumber.format_number l s "0" EmptyString
  | S754_finite s m e =>
      exists ip fp,
        rounds_to f (JSNumber.printed_decimal (abs x) m e) ip fp /\
        text = JSNumber.format_number l s ip fp
  end.

(** A browser for the examples: the en-US locale, and a date that is
    written in one way; the examples have no text beyond ASCII. *)
Definition example_browser (date : string) : browser :=
  Browser JSNumber.en_US (fun s => s) (fun _ => date).



(** A number that JSON text carries: a finite one. *)
Definition json_number (x : float) : bool :=
  match Prim2SF x with
  | S754_finite _ _ _ | S754_zero _ => true
  | _ => false
  end.

(** The property names [keys], added one after the other to an object
    that has the properties [seen], stay in this order: every JavaScript
    object lists its array indices first, ascending, then its other
    properties as they were added. *)
Fixpoint in_property_order (seen keys : list string) : bool :=
  match keys with
  | [] => true
  | k :: keys' =>
      forallb (fun k' => negb (String.eqb k' k) && negb (JSON.precedes k k')) seen
      && in_property_order (seen ++ [k]) keys'
  end.

(** A JSON-serializable value: null, a boolean, a number that JSON text
    carries, a string, an array of such values, or an object of such
    values. *)
Fixpoint json_value (v : value) : bool :=
  match v with
  | Undefined => false
  | Null | Bool _ | Str _ => true
  | Num x => json_number x
  | Arr items => forallb json_value items
  | Obj fields =>
      forallb (fun kv => json_value kv.2) fields
      && in_property_order [] (map fst fields)
  end.

(** Numbers that [===] finds equal, NaN apart: the same double, or the
    two zeros. *)
Definition same_number (x y : float) : bool :=
  PrimFloat.Leibniz.eqb x y || (is_zero x && is_zero y).

Fixpoint all2 {A B : Type} (f : A -> B -> bool) (l : list A) (l' : list B) : bool :=
  match l, l' with
  | [], [] => true
  | a :: l, b :: l' => f a b && all2 f l l'
  | _, _ => false
  end.

(** Structural equality: the same kind of value; numbers that [===]
    finds equal, the same boolean, the same string; arrays of the same
    length with structurally equal items; objects with the same property
    names in the same order and structurally equal values. *)
Fixpoint same_structure (v w : value) : bool :=
  match v, w with
  | Undefined, Undefined | Null, Null => true
  | Bool a, Bool b => Bool.eqb a b
  | Num x, Num y => same_number x y
  | Str s, Str t => String.eqb s t
  | Arr items, Arr items' => all2 same_structure items items'
  | Obj fields, Obj fields' =>
      all2 (fun kv kv' => String.eqb kv.1 kv'.1 && same_structure kv.2 kv'.2)
           fields fields'
  | _, _ => false
  end.

(** Storage that raises no exception when [text] is saved under [key] and
    read again. *)
Definition storage_accepts (st : storage) (key text : string) : Prop :=
  denied st = false /\
  match quota st with
  | Some q => (String.length key + String.length text <= q)%nat
  | None => True
  end.

End Spec.

(** * Proofs *)

(** ** Comparisons of doubles *)

Module FloatFacts.

Lemma is_nan_spec (x : float) :
  is_nan x = match Prim2SF x with S754_nan => true | _ => false end.
Proof.
  unfold is_nan. rewrite FloatAxioms.eqb_spec. unfold SFeqb.
  destruct (Prim2SF x) as [s|s| |s m e]; try (destruct s; reflexivity); try reflexivity.
  unfold SFcompare.
  destruct s; rewrite Z.compare_refl, Pos.compare_cont_refl; reflexivity.
Qed.

Lemma is_zero_spec (x : float) :
  is_zero x = match Prim2SF x with S754_zero _ => true | _ => false end.
Proof.
  unfold is_zero. rewrite FloatAxioms.eqb_spec. unfold SFeqb.
  replace (Prim2SF zero) with (S754_zero false) by reflexivity.
  destruct (Prim2SF x) as [s|s| |s m e]; simpl; try (destruct s; reflexivity); reflexivity.
Qed.

Lemma ltb_zero_l (x : float) :
  (0 <? x)%float = match Prim2SF x with
                   | S754_infinity s | S754_finite s _ _ => negb s
                   | _ => false
                   end.
Proof.
  rewrite FloatAxioms.ltb_spec. unfold SFltb.
  replace (Prim2SF 0) with (S754_zero false) by reflexivity.
  destruct (Prim2SF x) as [s|s| |s m e]; simpl; try (destruct s; reflexivity); reflexivity.
Qed.

Lemma ltb_zero_r (x : float) :
  (x <? 0)%float = match Prim2SF x with
                   | S754_infinity s | S754_finite s _ _ => s
                   | _ => false
                   end.
Proof.
  rewrite FloatAxioms.ltb_spec. unfold SFltb.
  replace (Prim2SF 0) with (S754_zero false) by reflexivity.
  destruct (Prim2SF x) as [s|s| |s m e]; simpl; try (destruct s; reflexivity); reflexivity.
Qed.

Lemma leb_zero_l (x : float) :
  (0 <=? x)%float = match Prim2SF x with
                    | S754_infinity s | S754_finite s _ _ => negb s
                    | S754_zero _ => true
                    | S754_nan => false
                    end.
Proof.
  rewrite FloatAxioms.leb_spec. unfold SFleb.
  replace (Prim2SF 0) with (S754_zero false) by reflexivity.
  destruct (Prim2SF x) as [s|s| |s m e]; simpl; try (destruct s; reflexivity); reflexivity.
Qed.

(** [SFcompare] is antisymmetric. *)
Lemma SFcompare_antisym (x y : spec_float) :
  SFcompare y x = option_map CompOpp (SFcompare x y).
Proof.
  destruct x as [s|s| |s m e], y as [s'|s'| |s' m' e']; unfold SFcompare;
    try reflexivity; try (destruct s; reflexivity); try (destruct s'; reflexivity);
    try (destruct s, s'; reflexivity).
  destruct s, s'; try reflexivity;
    rewrite (Z.compare_antisym e e');
    change (Pos.compare_cont Eq m' m) with (Pos.compare_cont (CompOpp Eq) m' m);
    rewrite <- (Pos.compare_cont_antisym m m' Eq);
    destruct (e ?= e')%Z; simpl; try reflexivity;
    destruct (Pos.compare_cont Eq m m'); reflexivity.
Qed.

Lemma ltb_leb_false (x y : float) : (x <? y)%float = true -> (y <=? x)%float = false.
Proof.
  rewrite FloatAxioms.ltb_spec, FloatAxioms.leb_spec. unfold SFltb, SFleb.
  rewrite (SFcompare_antisym (Prim2SF x) (Prim2SF y)).
  destruct (SFcompare (Prim2SF x) (Prim2SF y)) as [[]|]; simpl; congruence.
Qed.

Lemma leb_ltb_false (x y : float) : (x <=? y)%float = true -> (y <? x)%float = false.
Proof.
  rewrite FloatAxioms.ltb_spec, FloatAxioms.leb_spec. unfold SFltb, SFleb.
  rewrite (SFcompare_antisym (Prim2SF x) (Prim2SF y)).
  destruct (SFcompare (Prim2SF x) (Prim2SF y)) as [[]|]; simpl; congruence.
Qed.

(** What is at least a positive finite constant is positive. *)
Lemma leb_pos_const (c x : float) (m : positive) (e : Z) :
  Prim2SF c = S754_finite false m e ->
  (c <=? x)%float = true ->
  match Prim2SF x with
  | S754_infinity false | S754_finite false _ _ => True
  | _ => False
  end.
Proof.
  intros Hc. rewrite FloatAxioms.leb_spec, Hc. unfold SFleb.
  destruct (Prim2SF x) as [s|s| |s m' e']; simpl; try (destruct s; simpl; congruence); try congruence.
  all: destruct s; simpl; try congruence; auto.
Qed.
End FloatFacts.

(** ** isUsable *)

Module UsableProofs.
Import Text JS Host App Spec.

Lemma ToNumber_primitive (v : value) :
  primitive v = true -> exists x, ToNumber v = Ret x.
Proof.
  destruct v; simpl; try discriminate; eauto.
Qed.

(** C2.  For every snapshot [d] whose price and market cap are primitive
    values (numbers, as the data model has them, or absent), [isUsable d]
    returns, and returns true exactly when [d] is non-null and its price
    is positive, or its market cap is positive, or its transactions are a
    non-empty sequence; on the all-zero snapshot it returns false. *)
Theorem isUsable_spec (d : value)
    (Hprice : primitive (field d "price_usd") = true)
    (Hcap : primitive (field d "market_cap_usd") = true) :
  isUsable d = Ret (usable d) /\
  (isUsable d = Ret true <->
     d <> Null /\
     (above_zero (field d "price_usd") = true \/
      above_zero (field d "market_cap_usd") = true \/
      nonempty_sequence (field d "transactions") = true)) /\
  isUsable zero_snapshot = Ret false.
Proof.
  assert (Heq : isUsable d = Ret (usable d)).
  { unfold isUsable, usable.
    destruct (ToNumber_primitive _ Hprice) as [x Hx].
    destruct (ToNumber_primitive _ Hcap) as [y Hy].
    unfold above_zero. rewrite Hx, Hy. revert Hx Hy. unfold field.
    destruct d as [ | |b|z|s|items|fields]; simpl;
      try (intros [= <-] [= <-]; reflexivity).
    - destruct b; intros [= <-] [= <-]; reflexivity.
    - destruct (is_nan z || is_zero z); intros [= <-] [= <-]; reflexivity.
    - destruct (is_empty s); intros [= <-] [= <-]; reflexivity.
    - intros -> ->. simpl.
      destruct (0 <? x)%float; simpl; [reflexivity|].
      destruct (0 <? y)%float; reflexivity. }
  split; [exact Heq|]. split; [|reflexivity].
  rewrite Heq. unfold usable. split.
  - intros [= H]. apply andb_prop in H as [Hn H]. split.
    + intros ->. discriminate.
    + apply orb_prop in H as [H|H]; [apply orb_prop in H as [H|H]|]; auto.
  - intros [Hn H]. f_equal. apply andb_true_intro. split.
    + destruct d; try reflexivity. congruence.
    + destruct H as [ -> | [ -> | -> ] ]; rewrite ?orb_true_r; reflexivity.
Qed.

Lemma isUsable_spec_witness :
  isUsable (Obj [("price_usd", Num 0.000123)]) = Ret true.
Proof.
  destruct (isUsable_spec (Obj [("price_usd", Num 0.000123)]) eq_refl eq_refl) as [H _].
  exact H.
Defined.

End UsableProofs.

(** ** setWidth *)

Module WidthProofs.
Import Text JS Host App Spec FloatFacts.

Lemma toString_zero (x : float) (s : bool) :
  Prim2SF x = S754_zero s -> JSNumber.toString x = "0".
Proof. intros E. unfold JSNumber.toString. rewrite E. reflexivity. Qed.

Lemma Math_min_100 (x : float) :
  is_nan x = false ->
  Math_min 100 x = if (100 <? x)%float then 100%float else x.
Proof.
  intros Hnan. unfold Math_min.
  replace (is_nan 100) with false by reflexivity. rewrite Hnan. simpl orb.
  destruct (100 <? x)%float; [reflexivity|].
  destruct (x <? 100)%float; reflexivity.
Qed.

Lemma Math_max_0 (y : float) :
  is_nan y = false ->
  Math_max 0 y = if (0 <? y)%float then y else 0%float.
Proof.
  intros Hnan. unfold Math_max.
  replace (is_nan 0) with false by reflexivity. rewrite Hnan. simpl orb.
  destruct (0 <? y)%float; [reflexivity|].
  destruct (y <? 0)%float; reflexivity.
Qed.

(** The number whose string [setWidth] writes prints like the clamped
    percentage. *)
Lemma clamped_string (pct : float) :
  is_nan pct = false ->
  JSNumber.toString (Math_max 0 (Math_min 100 (or_zero pct)))
  = JSNumber.toString (clamp pct).
Proof.
  intros Hnan. unfold or_zero, clamp.
  rewrite Hnan. simpl orb.
  pose proof (is_nan_spec pct) as Hn. rewrite Hnan in Hn.
  rewrite (is_zero_spec pct), (ltb_zero_r pct).
  destruct (Prim2SF pct) as [s|s| |s m e] eqn:E; try discriminate.
  - (* a zero *)
    assert (H100 : (100 <? pct)%float = false).
    { rewrite FloatAxioms.ltb_spec, E. reflexivity. }
    rewrite H100. rewrite (toString_zero pct s E). reflexivity.
  - (* an infinity *)
    rewrite (Math_min_100 pct Hnan).
    destruct (100 <? pct)%float eqn:H100.
    + rewrite FloatAxioms.ltb_spec, E in H100.
      destruct s; [discriminate H100|]. reflexivity.
    + rewrite (Math_max_0 pct Hnan), (ltb_zero_l pct), E.
      destruct s; reflexivity.
  - (* a finite number other than zero *)
    rewrite (Math_min_100 pct Hnan).
    destruct (100 <? pct)%float eqn:H100.
    + rewrite FloatAxioms.ltb_spec, E in H100.
      destruct s; [discriminate H100|]. reflexivity.
    + rewrite (Math_max_0 pct Hnan), (ltb_zero_l pct), E.
      destruct s; reflexivity.
Qed.

(** C5.  For every percentage [pct] that is a number, [setWidth] gives a
    progress-bar element the width "[c]%", [c] being [pct] clamped into
    [0, 100] and printed; the rest of the element and of the page stays.
    In particular 150 is clamped to 100 and -10 to 0. *)
Theorem setWidth_clamps (id : string) (pct : float) (el : element) (w : world)
    (Hel : page w !! id = Some el)
    (Hnum : is_nan pct = false) :
  setWidth (Some id) (Num pct) w
  = (Ret tt,
     World (<[id := Element (el_content el) (JSNumber.toString (clamp pct) +:+ "%")]> (page w))
           (store w) (console w))
  /\ JSNumber.toString (clamp 150) = "100"
  /\ JSNumber.toString (clamp (-10)) = "0".
Proof.
  split; [|split; reflexivity].
  unfold setWidth, mbind, eff_bind, bind, lift, ToNumber, set_style_width, update_element.
  rewrite (clamped_string pct Hnum). do 2 f_equal.
  apply map_eq. intros j. destruct (decide (j = id)) as [->|Hne].
  - rewrite lookup_alter_eq, lookup_insert_eq, Hel. reflexivity.
  - rewrite lookup_alter_ne, lookup_insert_ne by congruence. reflexivity.
Qed.

Definition bar_page : gmap string element :=
  {[ "goalFill" := Element (Html EmptyString) EmptyString ]}.

Lemma setWidth_clamps_witness :
  setWidth (Some "goalFill") (Num 150) (World bar_page (Storage ∅ false None) [])
  = (Ret tt,
     World (<["goalFill" := Element (Html EmptyString) "100%"]> bar_page)
           (Storage ∅ false None) []).
Proof.
  destruct (setWidth_clamps "goalFill" 150 (Element (Html EmptyString) EmptyString)
              (World bar_page (Storage ∅ false None) []) eq_refl eq_refl) as [H _].
  exact H.
Defined.

End WidthProofs.

(** ** fetchDashboard *)

Module FetchProofs.
Import Text JS Host App Spec.

Section Fetch.
Variable env : browser.

(** C1.  When the request succeeds with a body that parses to a snapshot
    [d] which [isUsable] rejects, [fetchDashboard] returns and leaves
    the world as it was: nothing is stored, nothing is rendered and
    nothing is logged.  So the cache slot and the page stay those of
    the last good snapshot. *)
Theorem fetchDashboard_unusable (api : string) (net : string -> fetched)
    (status : Z) (body : string) (d : value) (w : world)
    (Hnet : net (api +:+ "/dashboard") = Response status body)
    (Hok : 200 <= status <= 299)
    (Hbody : JSON.parse body = Ret d)
    (Hunusable : isUsable d = Ret false) :
  fetchDashboard env api net w = (Ret tt, w).
Proof.
  unfold fetchDashboard, try_catch.
  destruct (is_empty api); [reflexivity|].
  rewrite Hnet.
  replace ((200 <=? status) && (status <=? 299)) with true
    by (symmetry; apply andb_true_intro; split; apply Z.leb_le; lia).
  unfold mbind, eff_bind, bind, lift. simpl negb. cbv iota.
  rewrite Hbody, Hunusable. reflexivity.
Qed.

End Fetch.

Definition good_snapshot : value :=
  Obj [("price_usd", Num 0.5); ("transactions", Arr [])].

Definition demo_page : gmap string element :=
  {[ "statPrice" := Element (Text "$0.5000") EmptyString ]}.

Definition demo_world : world :=
  World demo_page
        (Storage {[ CACHE_KEY := default EmptyString (JSON.stringify good_snapshot) ]} false None)
        [].

Lemma fetchDashboard_unusable_witness :
  fetchDashboard (example_browser EmptyString) "https://api.example"
    (fun _ => Response 200 "{}") demo_world
  = (Ret tt, demo_world).
Proof.
  apply (fetchDashboard_unusable (example_browser EmptyString) "https://api.example"
           (fun _ => Response 200 "{}") 200 "{}" (Obj []) demo_world);
    [reflexivity | lia | reflexivity | reflexivity].
Defined.

End FetchProofs.

(** ** Strings *)

Module StringFacts.

Lemma app_nil_l (t : string) : EmptyString +:+ t = t.
Proof. reflexivity. Qed.

Lemma app_cons (c : ascii) (s t : string) : String c s +:+ t = String c (s +:+ t).
Proof. reflexivity. Qed.

Lemma app_nil_r (s : string) : s +:+ EmptyString = s.
Proof. induction s as [|c s IH]; [reflexivity|]. now rewrite app_cons, IH. Qed.

Lemma app_assoc (s t u : string) : (s +:+ t) +:+ u = s +:+ t +:+ u.
Proof. induction s as [|c s IH]; [reflexivity|]. now rewrite !app_cons, IH. Qed.

Lemma app_length (s t : string) :
  String.length (s +:+ t) = (String.length s + String.length t)%nat.
Proof. induction s as [|c s IH]; [reflexivity|]. rewrite app_cons. simpl. now rewrite IH. Qed.

End StringFacts.

#[local] Ltac sapp := rewrite ?StringFacts.app_cons, ?StringFacts.app_nil_l in *.

(** ** API_BASE *)

Module ApiBaseProofs.
Import Text JS Host App Spec StringFacts.

Lemma starts_with_begins (p s : string) :
  starts_with p s = true <-> begins_with p s.
Proof.
  unfold begins_with. revert s. induction p as [|a p IH]; intros s; simpl.
  - split; [intros _; now exists s | reflexivity].
  - destruct s as [|b s].
    + split; [discriminate | intros [t Ht]; sapp; discriminate Ht].
    + destruct (Ascii.eqb_spec a b) as [->|Hab].
      * rewrite IH. split; intros [t Ht]; exists t; sapp.
        -- now rewrite Ht.
        -- now injection Ht.
      * split; [discriminate | intros [t Ht]; sapp; injection Ht; congruence].
Qed.

Lemma strip_slashes_prefix (s : string) :
  exists n, s = strip_trailing_slashes s +:+ slashes n.
Proof.
  induction s as [|c s [n IH]]; simpl.
  - now exists O.
  - destruct (Ascii.eqb_spec c "/") as [->|Hc]; simpl.
    + destruct (strip_trailing_slashes s) as [|c' r] eqn:E; simpl in *; sapp.
      * exists (S n). simpl. now rewrite <- IH.
      * exists n. sapp. now rewrite <- IH.
    + exists n. sapp. now rewrite <- IH.
Qed.

Lemma strip_slashes_end (s : string) : ~ ends_with_slash (strip_trailing_slashes s).
Proof.
  unfold ends_with_slash. induction s as [|c s IH]; simpl; intros [t Ht].
  - destruct t; sapp; discriminate Ht.
  - destruct (Ascii.eqb_spec c "/") as [->|Hc]; simpl in Ht.
    + destruct (strip_trailing_slashes s) as [|c' r] eqn:E; simpl in Ht.
      * destruct t; sapp; discriminate Ht.
      * destruct t as [|a t]; sapp; [discriminate Ht|].
        apply IH. exists t. now injection Ht.
    + destruct t as [|a t]; sapp.
      * injection Ht as Hc' _. congruence.
      * apply IH. exists t. now injection Ht.
Qed.

Lemma strip_slashes_stripped (s : string) : stripped s (strip_trailing_slashes s).
Proof. split; [apply strip_slashes_prefix | apply strip_slashes_end]. Qed.

(** C6, as amended.  The API base is always resolved, and has no
    trailing slash.  When the override is unset or empty it is the local
    development URL if the hostname begins with "localhost" or with
    "127.", and the empty string otherwise; when the override is a
    non-empty string it is the override with its trailing slashes
    stripped. *)
Theorem API_BASE_spec (h : string) (o : option string) :
  exists r,
    API_BASE h (override_value o) = Ret r /\
    ~ ends_with_slash r /\
    match o with
    | Some (String _ _ as s) => stripped s r
    | _ =>
        ((begins_with "localhost" h \/ begins_with "127." h) -> r = local_url) /\
        (~ (begins_with "localhost" h \/ begins_with "127." h) -> r = EmptyString)
    end.
Proof.
  assert (Hunset :
    exists r, API_BASE h Undefined = Ret r /\ API_BASE h (Str EmptyString) = Ret r /\
      ~ ends_with_slash r /\
      ((begins_with "localhost" h \/ begins_with "127." h) -> r = local_url) /\
      (~ (begins_with "localhost" h \/ begins_with "127." h) -> r = EmptyString)).
  { unfold API_BASE, or_else. simpl truthy. cbv iota. unfold isLocal.
    destruct (starts_with "localhost" h || starts_with "127." h) eqn:E.
    - exists local_url. repeat split; try reflexivity.
      + apply (strip_slashes_end local_url).
      + intros Hn. exfalso. apply Hn.
        apply orb_prop in E as [E|E]; [left|right]; now apply starts_with_begins.
    - exists EmptyString. repeat split; try reflexivity.
      + apply (strip_slashes_end EmptyString).
      + intros [H|H]; apply starts_with_begins in H; rewrite H in E;
          [discriminate E | rewrite orb_true_r in E; discriminate E]. }
  destruct Hunset as (r & H1 & H2 & H3 & H4).
  destruct o as [[|c s]|]; simpl override_value.
  - exists r. auto.
  - exists (strip_trailing_slashes (String c s)). split; [reflexivity|].
    split; [apply strip_slashes_end | apply strip_slashes_stripped].
  - exists r. auto.
Qed.

(** C6 as stated fails: a hostname that only begins with "localhost"
    also selects the local development URL. *)
Lemma API_BASE_as_claimed_fails :
  ~ API_BASE_as_claimed "localhost.example.com" None.
Proof.
  intros (r & Hr & _ & Hstrip).
  injection Hr as <-.
  destruct Hstrip as [[n Hn] _].
  - intros [[Heq | [t Ht]] _]; discriminate.
  - discriminate Hn.
Qed.

End ApiBaseProofs.

(** ** The transaction cards *)

Module CardProofs.
Import Text JS Host App Spec.

Lemma ToString_primitive (v : value) :
  primitive v = true -> ToString v = Ret (text_of v).
Proof. destruct v; simpl; try discriminate; reflexivity. Qed.

Lemma icon_title_lookup (kind : value) :
  (icon_of kind, title_of kind) = lookup_kind kind.
Proof.
  destruct kind as [ | |b|x|s|items|fields]; try reflexivity.
  unfold icon_of, title_of, lookup_kind, strict_eq_str. simpl.
  destruct (String.eqb s "burn"); [reflexivity|].
  destruct (String.eqb s "buyback"); [reflexivity|].
  destruct (String.eqb s "claim"); reflexivity.
Qed.

Section Cards.
Variable env : browser.

Lemma card_html_shows (icon title meta desc when href safe : string) :
  card_shows (card_html icon title meta desc when href safe) icon title meta href safe.
Proof.
  exists (nl +:+ "      <div class=" +:+ dq
          +:+ "card compact skinny flex-shrink-0 snap-start" +:+ dq +:+ ">" +:+ nl
          +:+ "        "),
         (nl +:+ "        "),
         (nl +:+ "        "),
         (nl +:+ "        <p class=" +:+ dq +:+ "text-xs mb-4" +:+ dq +:+ ">" +:+ desc
          +:+ "<br><span class=" +:+ dq +:+ "opacity-60" +:+ dq +:+ ">" +:+ when
          +:+ "</span></p>" +:+ nl +:+ "        <div>"),
         ("</div>" +:+ nl +:+ "      </div>").
  unfold card_html, concat_all, nl, dq.
  repeat (rewrite StringFacts.app_cons || rewrite StringFacts.app_nil_l
          || rewrite StringFacts.app_assoc).
  reflexivity.
Qed.

Lemma card_runs (tx : value) :
  transaction_shaped tx = true ->
  exists desc when,
    card env tx
    = Ret (card_html (fst (lookup_kind (field tx "kind")))
                     (snd (lookup_kind (field tx "kind")))
                     (meta_line env tx) desc when
                     (fst (link tx)) (snd (link tx))).
Proof.
  intros Htx.
  destruct tx as [ | |b|x|s|items|fields]; try discriminate Htx.
  unfold transaction_shaped in Htx.
  repeat (apply andb_prop in Htx as [Htx ?]).
  unfold card, meta_line, link. unfold field in *. simpl get in *. cbv iota in *.
  set (kind := default Undefined (lookup_field "kind" fields)) in *.
  set (amount := default Undefined (lookup_field "amount_sol" fields)) in *.
  set (description := default Undefined (lookup_field "description" fields)) in *.
  set (timestamp := default Undefined (lookup_field "timestamp" fields)) in *.
  set (signature := default Undefined (lookup_field "signature" fields)) in *.
  unfold mbind, result_bind.
  rewrite <- (icon_title_lookup kind). simpl fst. simpl snd.
  assert (Hmeta : meta_of env kind amount
                  = Ret (toUpperCase (unicode_upper env) (kind_text kind) +:+ " — "
                         +:+ amount_text amount +:+ " SOL")).
  { unfold meta_of, upper_kind, or_else, mbind, result_bind.
    assert (Hk : (if truthy kind then kind else Str EmptyString) = Str (kind_text kind)).
    { destruct kind as [ | |b|x|s|items|fs]; try discriminate Htx; try reflexivity.
      simpl. destruct s; reflexivity. }
    rewrite Hk. cbv beta iota.
    assert (Ha : ToString (coalesce amount (Num zero)) = Ret (amount_text amount)).
    { destruct amount; try discriminate; reflexivity. }
    rewrite Ha. reflexivity. }
  cbv beta iota. rewrite Hmeta. cbv beta iota.
  assert (Hwhen : exists when, when_of env timestamp = Ret when).
  { unfold when_of. destruct (truthy timestamp); [|eauto].
    destruct timestamp; try discriminate; eauto. }
  destruct Hwhen as [when ->]. cbv beta iota.
  assert (Hhref : href_of signature
                  = Ret (if truthy signature
                         then "https://solscan.io/tx/" +:+ text_of signature else "#")).
  { unfold href_of. destruct (truthy signature); [|reflexivity].
    rewrite (ToString_primitive signature) by assumption. reflexivity. }
  rewrite Hhref. cbv beta iota.
  assert (Hdesc : exists desc, ToString (or_else description (Str EmptyString)) = Ret desc).
  { unfold or_else. destruct (truthy description); [|eauto].
    rewrite (ToString_primitive description) by assumption. eauto. }
  destruct Hdesc as [desc ->]. cbv beta iota.
  exists desc, when. unfold safe_of.
  destruct (truthy signature); reflexivity.
Qed.

(** C7.  For every transaction [tx] the card is markup that shows, in this
    order: the icon, in its box, and the title, in the heading, that the
    4-way lookup gives for [tx.kind]; the meta line, in its box, made of
    the kind in upper case, a dash, the SOL amount (0 when absent) and
    "SOL"; and a link to the explorer page of [tx.signature] opening in a
    new tab when the signature is present, a placeholder "#" link without
    attributes otherwise.  The burn of 2.5 SOL without signature gets the
    fire icon, the title "Burn transaction", the meta line
    "BURN — 2.5 SOL" and a link to "#", and "target" does not occur in its
    markup. *)
Theorem card_spec (tx : value) (Htx : transaction_shaped tx = true) :
  (exists html,
      (card env tx = Ret html) /\
      (card_shows html (fst (lookup_kind (field tx "kind")))
                  (snd (lookup_kind (field tx "kind")))
                  (meta_line env tx)
                  (fst (link tx)) (snd (link tx))))
  /\ (exists html,
        (card env burn_example = Ret html) /\
        (card_shows html "🔥" "Burn transaction" "BURN — 2.5 SOL" "#" EmptyString) /\
        (contains "target" html = false)).
Proof.
  split.
  - destruct (card_runs tx Htx) as (desc & when & ->).
    eexists. split; [reflexivity|]. apply card_html_shows.
  - exists (card_html "🔥" "Burn transaction" "BURN — 2.5 SOL"
                      EmptyString EmptyString "#" EmptyString).
    split; [reflexivity|]. split; [apply card_html_shows|].
    vm_compute. reflexivity.
Qed.

End Cards.

Lemma card_spec_witness :
  exists html,
    (card (example_browser "1/1/2026, 12:00:00 AM")
       (Obj [("kind", Str "claim"); ("amount_sol", Num 0.75);
             ("signature", Str "5VERv8NMvzbJMEkV8xnrLkEaWRtSz9CosKDYjCJjBRnb")])
     = Ret html) /\
    (card_shows html "💸" "Claim creator fee" "CLAIM — 0.75 SOL"
       "https://solscan.io/tx/5VERv8NMvzbJMEkV8xnrLkEaWRtSz9CosKDYjCJjBRnb"
       ("target=" +:+ dq +:+ "_blank" +:+ dq +:+ " rel=" +:+ dq +:+ "noreferrer" +:+ dq)).
Proof.
  destruct (card_spec (example_browser "1/1/2026, 12:00:00 AM")
              (Obj [("kind", Str "claim"); ("amount_sol", Num 0.75);
                    ("signature", Str "5VERv8NMvzbJMEkV8xnrLkEaWRtSz9CosKDYjCJjBRnb")])
              eq_refl) as [H _].
  exact H.
Defined.

End CardProofs.

(** ** renderDashboard *)

Module RenderProofs.
Import Text JS Host App Spec UsableProofs CardProofs.

(** *** What a computation leaves alone *)

(** [m] does not change the element [id], whether it returns or throws. *)
Definition keeps {A : Type} (id : string) (m : Eff A) : Prop :=
  forall w, page (m w).2 !! id = page w !! id.

Lemma keeps_ret {A} id (a : A) : keeps id (mret a : Eff A).
Proof. intros w. reflexivity. Qed.

Lemma keeps_lift {A} id (r : result A) : keeps id (lift r).
Proof. intros w. reflexivity. Qed.

Lemma keeps_bind {A B} id (m : Eff A) (f : A -> Eff B) :
  keeps id m -> (forall a, keeps id (f a)) -> keeps id (m ≫= f).
Proof.
  intros Hm Hf w. unfold mbind, eff_bind, bind.
  specialize (Hm w). destruct (m w) as [[a|e] w1]; simpl in *.
  - rewrite Hf. exact Hm.
  - exact Hm.
Qed.

Lemma keeps_dollar id id' : keeps id (dollar id').
Proof. intros w. reflexivity. Qed.

Lemma keeps_update id id' f : id <> id' -> keeps id (update_element id' f).
Proof. intros Hne w. simpl. now rewrite lookup_alter_ne. Qed.

Lemma keeps_set_text_if_present id id' text :
  id <> id' -> keeps id (set_text_if_present id' text).
Proof.
  intros Hne. unfold set_text_if_present.
  apply keeps_bind; [apply keeps_dollar|]. intros [el|]; [|apply keeps_ret].
  apply keeps_bind; [apply keeps_lift|]. intros s.
  now apply keeps_update.
Qed.

Lemma keeps_setWidth id el pct : el <> Some id -> keeps id (setWidth el pct).
Proof.
  intros Hne. destruct el as [id'|]; simpl; [|apply keeps_ret].
  apply keeps_bind; [apply keeps_lift|]. intros x.
  apply keeps_update. congruence.
Qed.

(** [bind] when the value of [m] is known to satisfy [good]. *)
Lemma keeps_bind_value {A B} (good : A -> Prop) id (m : Eff A) (f : A -> Eff B) :
  (forall w a, (m w).1 = Ret a -> good a) ->
  keeps id m -> (forall a, good a -> keeps id (f a)) -> keeps id (m ≫= f).
Proof.
  intros Hgood Hm Hf w. unfold mbind, eff_bind, bind.
  specialize (Hm w). specialize (Hgood w).
  destruct (m w) as [[a|e] w1]; simpl in *.
  - rewrite (Hf a (Hgood a eq_refl)). exact Hm.
  - exact Hm.
Qed.

(** [$(id)] is null or the element [id]. *)
Lemma dollar_handle id w a : (dollar id w).1 = Ret a -> a = None \/ a = Some id.
Proof.
  unfold dollar, getElementById. simpl.
  destruct (page w !! id); intros [= <-]; auto.
Qed.

#[local] Ltac keep_text_step :=
  apply keeps_bind; [apply keeps_set_text_if_present; discriminate | intros _].

#[local] Ltac keep_width_step id' :=
  apply (keeps_bind_value (fun a => a = None \/ a = Some id'));
    [apply dollar_handle | apply keeps_dollar |];
  let el := fresh "el" in let Hel := fresh "Hel" in
  intros el Hel; apply keeps_bind; [apply keeps_lift|]; intros ?;
  apply keeps_bind;
    [apply keeps_setWidth; destruct Hel as [-> | ->]; discriminate | intros _].

(** *** What a computation does when nothing throws *)

(** From a world where [P] holds, [m] returns, with [Q] of its value and of
    the world it leaves. *)
Definition triple {A : Type} (P : world -> Prop) (m : Eff A) (Q : A -> world -> Prop) : Prop :=
  forall w, P w -> exists a w', m w = (Ret a, w') /\ Q a w'.

Lemma triple_bind {A B} P (m : Eff A) Q (f : A -> Eff B) R :
  triple P m Q -> (forall a, triple (Q a) (f a) R) -> triple P (m ≫= f) R.
Proof.
  intros Hm Hf w HP. destruct (Hm w HP) as (a & w1 & E1 & HQ).
  destruct (Hf a w1 HQ) as (b & w2 & E2 & HR).
  exists b, w2. split; [|exact HR].
  unfold mbind, eff_bind, bind. rewrite E1. exact E2.
Qed.

Lemma triple_ret {A} (P : world -> Prop) (a : A) : triple P (mret a) (fun _ => P).
Proof. intros w HP. exists a, w. split; [reflexivity | exact HP]. Qed.

Lemma triple_pure {A} (fact : Prop) (P : world -> Prop) (m : Eff A) Q :
  (fact -> triple P m Q) -> triple (fun w => P w /\ fact) m Q.
Proof. intros H w [HP Hfact]. now apply H. Qed.

Lemma triple_lift {A} (P : world -> Prop) (v : A) :
  triple P (lift (Ret v)) (fun a w => P w /\ a = v).
Proof. intros w HP. exists v, w. auto. Qed.

Lemma triple_post {A} (P : world -> Prop) (m : Eff A) (Q Q' : A -> world -> Prop) :
  triple P m Q -> (forall a w, Q a w -> Q' a w) -> triple P m Q'.
Proof.
  intros H HQ w HP. destruct (H w HP) as (a & w' & E & HQa).
  exists a, w'. auto.
Qed.

(** The element [id] is [el]. *)
Definition has (id : string) (el : element) : world -> Prop :=
  fun w => page w !! id = Some el.

Lemma triple_dollar id el id' :
  triple (has id el) (dollar id')
         (fun a w => has id el w /\ (a = None \/ a = Some id')).
Proof.
  intros w HP. unfold dollar, getElementById. eexists _, w. split; [reflexivity|].
  split; [exact HP|]. destruct (page w !! id'); auto.
Qed.

Lemma triple_update id el id' f :
  id <> id' -> triple (has id el) (update_element id' f) (fun _ => has id el).
Proof.
  intros Hne w HP. unfold update_element. eexists tt, _. split; [reflexivity|].
  unfold has in *. simpl. now rewrite lookup_alter_ne.
Qed.

Lemma triple_set_text_if_present id el id' text s :
  id <> id' -> text = Ret s ->
  triple (has id el) (set_text_if_present id' text) (fun _ => has id el).
Proof.
  intros Hne ->. unfold set_text_if_present.
  eapply triple_bind; [apply triple_dollar|]. intros [h|].
  - intros w [HP _]. apply (triple_update id el id' _ Hne w HP).
  - intros w [HP _]. apply (triple_ret (has id el) tt w HP).
Qed.

Lemma triple_setWidth id el h pct x :
  h <> Some id -> ToNumber pct = Ret x ->
  triple (has id el) (setWidth h pct) (fun _ => has id el).
Proof.
  intros Hne Hx. destruct h as [id'|]; simpl; [|apply triple_ret].
  unfold lift. intros w HP. unfold mbind, eff_bind, bind. rewrite Hx.
  apply (triple_update id el id'); [congruence | exact HP].
Qed.

(** *** The formatters return on primitive values *)

Lemma fmtPrice_primitive v : primitive v = true -> exists s, fmtPrice v = Ret s.
Proof.
  intros H. destruct (ToNumber_primitive v H) as [x Hx].
  unfold fmtPrice. rewrite Hx. simpl. eauto.
Qed.

Lemma fmtUSD_primitive env v : primitive v = true -> exists s, fmtUSD env v = Ret s.
Proof.
  intros H. destruct (ToNumber_primitive v H) as [x Hx].
  unfold fmtUSD. rewrite Hx. simpl. eauto.
Qed.

Lemma fmtPct_primitive env v : primitive v = true -> exists s, fmtPct env v = Ret s.
Proof.
  intros H. destruct (ToNumber_primitive v H) as [x Hx].
  assert (Hy : exists y, ToNumber (or_else v (Num zero)) = Ret y).
  { unfold or_else. destruct (truthy v); [eauto | simpl; eauto]. }
  destruct Hy as [y Hy].
  unfold fmtPct. rewrite Hx. simpl. rewrite Hy. simpl. eauto.
Qed.

Lemma snapshot_field (d : value) (name : string) :
  snapshot_shaped d = true -> In name printed_fields ->
  primitive (field d name) = true /\ get d name = Ret (field d name).
Proof.
  intros Hd Hin. destruct d; try discriminate Hd.
  split; [|reflexivity].
  unfold snapshot_shaped in Hd. rewrite forallb_forall in Hd. now apply Hd.
Qed.

Section Render.
Variable env : browser.

(** C9.  When the snapshot has no [token_mint], or an empty one,
    [renderDashboard] leaves the contract-address element exactly as it
    was, whether the element exists or not and however the rest of the
    rendering goes; so the slot can only change when [token_mint] is a
    non-empty value. *)
Theorem renderDashboard_keeps_contract (d : value) (w : world)
    (Hmint : truthy (field d "token_mint") = false) :
  page (renderDashboard env d w).2 !! "contractAddress"
  = page w !! "contractAddress".
Proof.
  revert w. change (keeps "contractAddress" (renderDashboard env d)).
  unfold renderDashboard.
  do 6 keep_text_step.
  keep_width_step "goalFill".
  keep_text_step.
  keep_width_step "burnFill".
  apply keeps_bind; [apply keeps_dollar|]. intros contractAddress.
  apply keeps_bind.
  { destruct contractAddress as [ca|]; [|apply keeps_ret].
    unfold field in Hmint.
    destruct (get d "token_mint") as [mint|e].
    - intros w. unfold mbind, eff_bind, bind, lift. simpl. rewrite Hmint. reflexivity.
    - intros w. reflexivity. }
  intros _.
  apply keeps_bind; [apply keeps_dollar|]. intros [list|]; [|apply keeps_ret].
  apply keeps_bind; [apply keeps_lift|]. intros cards.
  apply keeps_update. discriminate.
Qed.

#[local] Ltac printed := unfold printed_fields; simpl; tauto.

(** C8.  For every snapshot without transactions (an empty sequence, or
    none), on a page that has the list container, [renderDashboard]
    returns and the container then holds exactly the placeholder: one
    box with the text "No recent transactions." in it. *)
Theorem renderDashboard_placeholder (d : value) (w : world) (el : element)
    (Hd : snapshot_shaped d = true)
    (Hnone : no_transactions d = true)
    (Hlist : page w !! "txList" = Some el) :
  exists w',
    renderDashboard env d w = (Ret tt, w') /\
    page w' !! "txList"
    = Some (Element (Html ("<div class=" +:+ dq +:+ "text-sm opacity-70 px-2" +:+ dq
                           +:+ ">No recent transactions.</div>"))
                    (el_width el)).
Proof.
  pose proof (fun name H => snapshot_field d name Hd H) as Hf.
  destruct (Hf "price_usd" ltac:(printed)) as [P1 G1].
  destruct (Hf "volume_change_pct" ltac:(printed)) as [P2 G2].
  destruct (Hf "buybacks_usd" ltac:(printed)) as [P3 G3].
  destruct (Hf "burned_usd" ltac:(printed)) as [P4 G4].
  destruct (Hf "market_cap_usd" ltac:(printed)) as [P5 G5].
  destruct (Hf "next_goal_usd" ltac:(printed)) as [P6 G6].
  destruct (Hf "next_goal_progress_pct" ltac:(printed)) as [P7 G7].
  destruct (Hf "supply_burned_pct" ltac:(printed)) as [P8 G8].
  destruct (Hf "token_mint" ltac:(printed)) as [P9 G9].
  destruct (fmtPrice_primitive _ P1) as [s1 F1].
  destruct (fmtPct_primitive env _ P2) as [s2 F2].
  destruct (fmtUSD_primitive env _ P3) as [s3 F3].
  destruct (fmtUSD_primitive env _ P4) as [s4 F4].
  destruct (fmtUSD_primitive env _ P5) as [s5 F5].
  destruct (fmtUSD_primitive env _ P6) as [s6 F6].
  destruct (ToNumber_primitive _ P7) as [x7 N7].
  destruct (ToNumber_primitive _ P8) as [x8 N8].
  assert (T : triple (has "txList" el) (renderDashboard env d)
                (fun _ w' =>
                   page w' !! "txList" = Some (Element (Html placeholder) (el_width el)))).
  { unfold renderDashboard.
    rewrite G1, G2, G3, G4, G5, G6, G7, G8, G9.
    eapply triple_bind.
    { eapply triple_set_text_if_present; [discriminate|]. simpl. exact F1. }
    intros ?. eapply triple_bind.
    { eapply triple_set_text_if_present; [discriminate|]. simpl. exact F2. }
    intros ?. eapply triple_bind.
    { eapply triple_set_text_if_present; [discriminate|]. simpl. exact F3. }
    intros ?. eapply triple_bind.
    { eapply triple_set_text_if_present; [discriminate|]. simpl. exact F4. }
    intros ?. eapply triple_bind.
    { eapply triple_set_text_if_present; [discriminate|]. simpl.
      rewrite F5. simpl. rewrite F6. simpl. reflexivity. }
    intros ?. eapply triple_bind.
    { eapply triple_set_text_if_present; [discriminate|]. simpl.
      rewrite (ToString_primitive _ P7). simpl. reflexivity. }
    intros ?. eapply triple_bind; [apply triple_dollar|].
    intros goalFill. apply triple_pure. intros HgoalFill.
    eapply triple_bind; [apply triple_lift|].
    intros pct. apply triple_pure. intros ->.
    eapply triple_bind.
    { eapply triple_setWidth; [|exact N7]. destruct HgoalFill as [-> | ->]; discriminate. }
    intros ?. eapply triple_bind.
    { eapply triple_set_text_if_present; [discriminate|]. simpl.
      rewrite (ToString_primitive _ P8). simpl. reflexivity. }
    intros ?. eapply triple_bind; [apply triple_dollar|].
    intros burnFill. apply triple_pure. intros HburnFill.
    eapply triple_bind; [apply triple_lift|].
    intros burned. apply triple_pure. intros ->.
    eapply triple_bind.
    { eapply triple_setWidth; [|exact N8]. destruct HburnFill as [-> | ->]; discriminate. }
    intros ?. eapply triple_bind; [apply triple_dollar|].
    intros contractAddress. apply triple_pure. intros ?.
    eapply triple_bind.
    { instantiate (1 := fun _ => has "txList" el).
      destruct contractAddress as [ca|]; [|apply triple_ret].
      eapply triple_bind; [apply triple_lift|].
      intros mint. apply triple_pure. intros ->.
      destruct (truthy (field d "token_mint")); [|apply triple_ret].
      rewrite (ToString_primitive _ P9).
      eapply triple_bind; [apply triple_lift|].
      intros text. apply triple_pure. intros ->.
      apply triple_update. discriminate. }
    intros ?. intros w1 H1.
    assert (Hcards : cards_of env d = Ret []).
    { unfold cards_of. unfold no_transactions, field in Hnone.
      destruct d as [ | |b|x|t|items|fields]; try discriminate Hd.
      simpl in *.
      destruct (default Undefined (lookup_field "transactions" fields))
        as [ | |b|x|t|[|tx txs]|fs]; try discriminate Hnone; reflexivity. }
    unfold mbind, eff_bind, bind, dollar, getElementById. simpl.
    unfold has in H1. rewrite H1, Hcards. simpl.
    eexists tt, _. split; [reflexivity|].
    simpl. rewrite lookup_alter_eq, H1. reflexivity. }
  destruct (T w Hlist) as ([] & w' & E & HQ).
  exists w'. auto.
Qed.

End Render.

Definition contract_page : gmap string element :=
  {[ "contractAddress" := Element (Text "So11111111111111111111111111111111111111112") EmptyString;
     "statPrice" := Element (Text "$0.00") EmptyString ]}.

Lemma renderDashboard_keeps_contract_witness :
  page (renderDashboard (example_browser EmptyString)
          (Obj [("price_usd", Num 0.5); ("token_mint", Str EmptyString)])
          (World contract_page (Storage ∅ false None) [])).2 !! "contractAddress"
  = contract_page !! "contractAddress".
Proof.
  apply (renderDashboard_keeps_contract (example_browser EmptyString)
           (Obj [("price_usd", Num 0.5); ("token_mint", Str EmptyString)])
           (World contract_page (Storage ∅ false None) [])).
  reflexivity.
Defined.

Definition list_page : gmap string element :=
  {[ "txList" := Element (Html "<p>loading</p>") EmptyString;
     "statPrice" := Element (Text "$0.00") EmptyString ]}.

Lemma renderDashboard_placeholder_witness :
  exists w',
    renderDashboard (example_browser EmptyString)
      (Obj [("price_usd", Num 0.5); ("transactions", Arr [])])
      (World list_page (Storage ∅ false None) []) = (Ret tt, w') /\
    page w' !! "txList"
    = Some (Element (Html ("<div class=" +:+ dq +:+ "text-sm opacity-70 px-2" +:+ dq
                           +:+ ">No recent transactions.</div>"))
                    EmptyString).
Proof.
  apply (renderDashboard_placeholder (example_browser EmptyString)
           (Obj [("price_usd", Num 0.5); ("transactions", Arr [])])
           (World list_page (Storage ∅ false None) [])
           (Element (Html "<p>loading</p>") EmptyString));
    reflexivity.
Defined.

End RenderProofs.

(** ** Decimal digits *)

Module DigitFacts.
Import Text JS StringFacts.

Fixpoint all_digits (s : string) : bool :=
  match s with
  | EmptyString => true
  | String c s' => is_digit c && all_digits s'
  end.

(** The number that the digits [s] spell after [acc]. *)
Fixpoint spell (s : string) (acc : Z) : Z :=
  match s with
  | EmptyString => acc
  | String c s' => spell s' (10 * acc + digit_val c)
  end.

(** [r] does not begin with a digit. *)
Definition stops (r : string) : bool :=
  match r with
  | EmptyString => true
  | String c _ => negb (is_digit c)
  end.

Lemma scan_digits_all (s r : string) (acc : Z) (cnt : nat) :
  all_digits s = true ->
  scan_digits (s +:+ r) acc cnt = scan_digits r (spell s acc) (cnt + String.length s).
Proof.
  revert acc cnt. induction s as [|c s IH]; intros acc cnt H.
  - rewrite app_nil_l. simpl. now rewrite Nat.add_0_r.
  - simpl in H. apply andb_prop in H as [Hc Hs].
    rewrite app_cons. simpl. rewrite Hc, (IH _ _ Hs).
    f_equal. lia.
Qed.

Lemma scan_digits_stops (r : string) (acc : Z) (cnt : nat) :
  stops r = true -> scan_digits r acc cnt = (acc, cnt, r).
Proof.
  destruct r as [|c r]; simpl; [reflexivity|].
  intros H. apply negb_true_iff in H. now rewrite H.
Qed.

Lemma all_digits_app (s t : string) :
  all_digits (s +:+ t) = all_digits s && all_digits t.
Proof.
  induction s as [|c s IH]; [reflexivity|].
  rewrite app_cons. simpl. now rewrite IH, andb_assoc.
Qed.

Lemma spell_app (s t : string) (acc : Z) : spell (s +:+ t) acc = spell t (spell s acc).
Proof.
  revert acc. induction s as [|c s IH]; intros acc; [reflexivity|].
  rewrite app_cons. simpl. apply IH.
Qed.

Lemma spell_shift (s : string) (acc : Z) :
  spell s acc = acc * 10 ^ Z.of_nat (String.length s) + spell s 0.
Proof.
  revert acc. induction s as [|c s IH]; intros acc.
  - simpl. lia.
  - cbn [spell String.length]. rewrite (IH (10 * acc + digit_val c)), (IH (10 * 0 + digit_val c)).
    rewrite Nat2Z.inj_succ, Z.pow_succ_r by lia. lia.
Qed.

Lemma digit_char_spec (d : Z) :
  0 <= d < 10 -> is_digit (digit_char d) = true /\ digit_val (digit_char d) = d.
Proof.
  intros H.
  assert (E : d = 0 \/ d = 1 \/ d = 2 \/ d = 3 \/ d = 4 \/ d = 5 \/ d = 6 \/ d = 7 \/ d = 8 \/ d = 9) by lia.
  repeat (destruct E as [-> | E]; [split; reflexivity|]). subst. split; reflexivity.
Qed.

Lemma zeros_spec (k : nat) (acc : Z) :
  all_digits (zeros k) = true /\ String.length (zeros k) = k /\
  spell (zeros k) acc = acc * 10 ^ Z.of_nat k.
Proof.
  revert acc. induction k as [|k IH]; intros acc.
  - simpl. repeat split; lia.
  - destruct (IH (10 * acc + 0)) as (H1 & H2 & H3).
    cbn [zeros all_digits String.length spell]. rewrite H1, H2.
    change (digit_val "0") with 0. rewrite H3.
    rewrite Nat2Z.inj_succ, Z.pow_succ_r by lia. repeat split; lia.
Qed.

(** The digits that [digits_fuel] puts before [acc] spell [n]. *)
Lemma digits_fuel_spec (fuel : nat) (n : Z) (acc : string) :
  0 <= n < 10 ^ Z.of_nat (S fuel) ->
  exists s, digits_fuel (S fuel) n acc = s +:+ acc /\
            all_digits s = true /\ spell s 0 = n /\ (1 <= String.length s)%nat /\
            (0 < n -> 10 ^ Z.of_nat (String.length s - 1) <= n).
Proof.
  revert n acc. induction fuel as [|fuel IH]; intros n acc Hn.
  - assert (Hmod : 0 <= n < 10) by (simpl in Hn; lia).
    destruct (digit_char_spec _ Hmod) as [Hd Hv].
    cbn [digits_fuel]. rewrite Z.mod_small by lia.
    destruct (Z.ltb_spec n 10) as [Hlt|Hge]; [|lia].
    exists (String (digit_char n) EmptyString).
    rewrite app_cons, app_nil_l. cbn [all_digits spell String.length].
    rewrite Hd, Hv. repeat split; simpl; lia.
  - remember (S fuel) as fuel1 eqn:Hfuel1.
    cbn [digits_fuel].
    assert (Hmod : 0 <= n mod 10 < 10) by (apply Z.mod_pos_bound; lia).
    destruct (digit_char_spec _ Hmod) as [Hd Hv].
    destruct (Z.ltb_spec n 10) as [Hlt|Hge].
    + exists (String (digit_char (n mod 10)) EmptyString).
      rewrite app_cons, app_nil_l. cbn [all_digits spell String.length].
      rewrite Hd, Hv, Z.mod_small by lia. repeat split; simpl; lia.
    + assert (Hdiv : 0 <= n / 10 < 10 ^ Z.of_nat fuel1).
      { rewrite Nat2Z.inj_succ, Z.pow_succ_r in Hn by lia.
        split; [apply Z.div_pos; lia | apply Z.div_lt_upper_bound; lia]. }
      subst fuel1.
      destruct (IH (n / 10) (String (digit_char (n mod 10)) acc) Hdiv)
        as (s & Hs & Hall & Hsp & Hlen & Hlow).
      exists (s +:+ String (digit_char (n mod 10)) EmptyString).
      rewrite Hs, app_assoc, app_cons, app_nil_l.
      rewrite all_digits_app, spell_app, Hall, Hsp, app_length.
      cbn [all_digits spell String.length]. rewrite Hd, Hv.
      repeat split; try lia.
      * pose proof (Z.div_mod n 10 ltac:(lia)). lia.
      * intros _. replace (String.length s + 1 - 1)%nat with (S (String.length s - 1)) by lia.
        rewrite Nat2Z.inj_succ, Z.pow_succ_r by lia.
        assert (0 < n / 10) by (apply Z.div_str_pos; lia).
        specialize (Hlow ltac:(lia)).
        pose proof (Z.div_mod n 10 ltac:(lia)). lia.
Qed.

Lemma digits_spec (n : Z) :
  0 <= n ->
  all_digits (digits n) = true /\ spell (digits n) 0 = n /\
  (1 <= String.length (digits n))%nat /\
  (0 < n -> 10 ^ Z.of_nat (String.length (digits n) - 1) <= n).
Proof.
  intros Hn. unfold digits.
  assert (Hfuel : 0 <= n < 10 ^ Z.of_nat (S (Z.to_nat (Z.log2 n)))).
  { split; [lia|].
    destruct (Z.eq_dec n 0) as [->|Hnz]; [simpl; lia|].
    pose proof (Z.log2_spec n ltac:(lia)) as [_ Hlog].
    pose proof (Z.log2_nonneg n).
    rewrite Nat2Z.inj_succ, Z2Nat.id by lia.
    eapply Z.lt_le_trans; [exact Hlog|].
    apply Z.pow_le_mono_l. lia. }
  destruct (digits_fuel_spec _ n EmptyString Hfuel) as (s & Hs & H).
  rewrite Hs, app_nil_r. exact H.
Qed.

Lemma take_drop (k : nat) (s : string) : take k s +:+ drop k s = s.
Proof.
  revert s. induction k as [|k IH]; intros [|c s]; try reflexivity.
  cbn [take drop]. now rewrite app_cons, IH.
Qed.

Lemma take_length (k : nat) (s : string) :
  (k <= String.length s)%nat -> String.length (take k s) = k.
Proof.
  revert s. induction k as [|k IH]; intros [|c s] H; simpl in *; try lia.
  rewrite IH; lia.
Qed.

Lemma drop_length (k : nat) (s : string) :
  String.length (drop k s) = (String.length s - k)%nat.
Proof.
  revert s. induction k as [|k IH]; intros [|c s]; simpl; auto.
Qed.

Lemma all_digits_take_drop (k : nat) (s : string) :
  all_digits s = true -> all_digits (take k s) = true /\ all_digits (drop k s) = true.
Proof.
  intros H. rewrite <- (take_drop k s), all_digits_app in H.
  now apply andb_prop in H.
Qed.

End DigitFacts.

(** ** The formatters *)

Module FormatProofs.
Import Text JS Host App Spec StringFacts DigitFacts FloatFacts.

(** *** The range of the doubles *)

Lemma digits2_pos_bound (m : positive) : Z.pos m < 2 ^ Z.pos (digits2_pos m).
Proof.
  induction m as [p IH|p IH|]; cbn [digits2_pos].
  - rewrite Pos2Z.inj_succ, Z.pow_succ_r by lia. lia.
  - rewrite Pos2Z.inj_succ, Z.pow_succ_r by lia. lia.
  - reflexivity.
Qed.

(** Mantissa and exponent of a finite double are in range. *)
Lemma finite_bounds (x : float) (s : bool) (m : positive) (e : Z) :
  Prim2SF x = S754_finite s m e -> -1074 <= e <= 971 /\ Z.pos m < 2 ^ 53.
Proof.
  intros E. pose proof (Prim2SF_valid x) as V. rewrite E in V.
  unfold SpecFloat.valid_binary, bounded, canonical_mantissa, fexp, SpecFloat.emin in V.
  apply andb_prop in V as [V1 V2].
  apply Z.eqb_eq in V1. apply Z.leb_le in V2.
  change (emax - prec) with 971 in V2. change (3 - emax - prec) with (-1074) in V1.
  change prec with 53 in V1.
  pose proof (digits2_pos_bound m) as Hm.
  split; [lia|].
  eapply Z.lt_le_trans; [exact Hm|]. apply Z.pow_le_mono_r; lia.
Qed.

Lemma ratio_of_pos (m : positive) (e : Z) :
  0 < fst (JSNumber.ratio_of m e) /\ 0 < snd (JSNumber.ratio_of m e).
Proof.
  unfold JSNumber.ratio_of. destruct (0 <=? e) eqn:He; simpl.
  - split; [|lia]. apply Z.leb_le in He.
    pose proof (Z.pow_pos_nonneg 2 e ltac:(lia) He). lia.
  - split; [lia|]. apply Z.leb_gt in He. apply Z.pow_pos_nonneg; lia.
Qed.

Lemma scale10_pos (r : JSNumber.ratio) (p : Z) :
  0 < fst r -> 0 < snd r ->
  0 < fst (JSNumber.scale10 r p) /\ 0 < snd (JSNumber.scale10 r p).
Proof.
  destruct r as [a b]. simpl. intros Ha Hb.
  destruct (0 <=? p) eqn:Hp; simpl.
  - apply Z.leb_le in Hp. pose proof (Z.pow_pos_nonneg 10 p ltac:(lia) Hp). split; nia.
  - apply Z.leb_gt in Hp. pose proof (Z.pow_pos_nonneg 10 (- p) ltac:(lia) ltac:(lia)). split; nia.
Qed.

(** Rounding half up gives a nearest integer. *)
Lemma round_half_up_nearest (r : JSNumber.ratio) :
  0 <= fst r -> 0 < snd r ->
  0 <= JSNumber.round_half_up r /\ nearest r (JSNumber.round_half_up r).
Proof.
  destruct r as [a b]. unfold nearest, JSNumber.round_half_up. simpl. intros Ha Hb.
  pose proof (Z.div_mod (2 * a + b) (2 * b) ltac:(lia)) as Hdm.
  pose proof (Z.mod_pos_bound (2 * a + b) (2 * b) ltac:(lia)) as Hmod.
  split; [apply Z.div_pos; lia|].
  set (q := (2 * a + b) / (2 * b)) in *. lia.
Qed.

(** *** Reading back what [toFixed] prints *)

Lemma read_fixed_digits (f : nat) (n : Z) :
  0 <= n -> (0 < f)%nat -> read_decimal (JSNumber.fixed_digits f n) = Some (n, f).
Proof.
  intros Hn Hf. destruct f as [|f']; [lia|].
  unfold JSNumber.fixed_digits. cbv zeta iota.
  destruct (digits_spec n Hn) as (Hall & Hsp & Hlen & _).
  set (m := digits n) in *.
  set (m' := if (String.length m <=? S f')%nat then zeros (S f' + 1 - String.length m) +:+ m else m).
  assert (Hm' : all_digits m' = true /\ spell m' 0 = n /\ (S f' + 1 <= String.length m')%nat).
  { unfold m'. destruct (Nat.leb_spec (String.length m) (S f')) as [Hk|Hk].
    - destruct (zeros_spec (S f' + 1 - String.length m) 0) as (Z1 & Z2 & Z3).
      rewrite all_digits_app, spell_app, app_length, Z1, Z2, Z3, Hall.
      repeat split; [exact Hsp | lia].
    - repeat split; [exact Hall | exact Hsp | lia]. }
  destruct Hm' as (Hall' & Hsp' & Hlen').
  set (k := (String.length m' - S f')%nat).
  destruct (all_digits_take_drop k m' Hall') as [Ht Hd].
  unfold read_decimal.
  rewrite (scan_digits_all (take k m') _ 0 0 Ht).
  rewrite (scan_digits_stops ("." +:+ drop k m')) by reflexivity.
  rewrite app_cons, app_nil_l.
  rewrite <- (app_nil_r (drop k m')) at 1.
  rewrite (scan_digits_all (drop k m') _ _ 0 Hd).
  rewrite (scan_digits_stops EmptyString) by reflexivity.
  rewrite <- spell_app, take_drop, Hsp'.
  rewrite take_length, drop_length by (unfold k; lia).
  replace (0 <? 0 + k)%nat with true by (symmetry; apply Nat.ltb_lt; unfold k; lia).
  replace (0 <? 0 + (String.length m' - k))%nat with true
    by (symmetry; apply Nat.ltb_lt; unfold k; lia).
  simpl. do 2 f_equal. unfold k. lia.
Qed.

(** *** Which tier a price falls in *)

(** Between a positive constant and anything, a number is positive and
    finite. *)
Lemma positive_finite (c d p : float) (mc : positive) (ec : Z) :
  Prim2SF c = S754_finite false mc ec ->
  (c <=? p)%float = true -> (p <? d)%float = true ->
  exists m e, Prim2SF p = S754_finite false m e.
Proof.
  intros Hc Hle Hlt. pose proof (leb_pos_const c p mc ec Hc Hle) as H.
  rewrite FloatAxioms.ltb_spec in Hlt. unfold SFltb in Hlt.
  destruct (Prim2SF p) as [s|s| |s m e]; try contradiction.
  - destruct s; [contradiction|].
    destruct (Prim2SF d) as [s'|s'| |s' m' e']; simpl in Hlt; try discriminate;
      destruct s'; discriminate.
  - destruct s; [contradiction|]. eauto.
Qed.

Lemma above_zero_finite (d p : float) :
  (0 <? p)%float = true -> (p <? d)%float = true ->
  exists m e, Prim2SF p = S754_finite false m e.
Proof.
  intros Hpos Hlt. rewrite ltb_zero_l in Hpos.
  rewrite FloatAxioms.ltb_spec in Hlt. unfold SFltb in Hlt.
  destruct (Prim2SF p) as [s|s| |s m e]; try discriminate.
  - destruct s; [discriminate|].
    destruct (Prim2SF d) as [s'|s'| |s' m' e']; simpl in Hlt; try discriminate;
      destruct s'; discriminate.
  - destruct s; [discriminate|]. eauto.
Qed.

(** What is below a constant is not at or above a constant of larger
    exponent. *)
Lemma below_excludes (x a b : float) (ma mb : positive) (ea eb : Z) :
  Prim2SF a = S754_finite false ma ea ->
  Prim2SF b = S754_finite false mb eb ->
  ea < eb ->
  (x <? a)%float = true -> (b <=? x)%float = false.
Proof.
  intros Ha Hb Hlt. rewrite FloatAxioms.ltb_spec, FloatAxioms.leb_spec, Ha, Hb.
  unfold SFltb, SFleb.
  destruct (Prim2SF x) as [s|s| |s m e]; try (destruct s; simpl; congruence); simpl; try congruence.
  destruct s; [reflexivity|].
  destruct (Z.compare_spec e ea) as [He|He|He]; try discriminate.
  - intros _. subst e. rewrite (proj2 (Z.compare_gt_iff eb ea)) by lia. reflexivity.
  - intros _. rewrite (proj2 (Z.compare_gt_iff eb e)) by lia. reflexivity.
Qed.

Lemma below_below (x a b : float) (ma mb : positive) (ea eb : Z) :
  Prim2SF a = S754_finite false ma ea ->
  Prim2SF b = S754_finite false mb eb ->
  ea < eb ->
  (x <? a)%float = true -> (x <? b)%float = true.
Proof.
  intros Ha Hb Hlt. rewrite !FloatAxioms.ltb_spec, Ha, Hb.
  unfold SFltb.
  destruct (Prim2SF x) as [s|s| |s m e]; try (destruct s; simpl; congruence); simpl; try congruence.
  destruct s; [reflexivity|].
  destruct (Z.compare_spec e ea) as [He|He|He]; try discriminate.
  - intros _. subst e. rewrite (proj2 (Z.compare_lt_iff ea eb)) by lia. reflexivity.
  - intros _. rewrite (proj2 (Z.compare_lt_iff e eb)) by lia. reflexivity.
Qed.

Lemma abs_positive (p : float) (m : positive) (e : Z) :
  Prim2SF p = S754_finite false m e -> abs p = p.
Proof.
  intros E. apply Prim2SF_inj. rewrite abs_spec, E. reflexivity.
Qed.

Lemma or_zero_finite (p : float) (s : bool) (m : positive) (e : Z) :
  Prim2SF p = S754_finite s m e -> or_zero p = p.
Proof.
  intros E. unfold or_zero. rewrite is_nan_spec, is_zero_spec, E. reflexivity.
Qed.

Lemma toFixed_finite (f : nat) (p : float) (m : positive) (e : Z) :
  Prim2SF p = S754_finite false m e -> (p <? 1e21)%float = true ->
  JSNumber.toFixed f p
  = JSNumber.fixed_digits f
      (JSNumber.round_half_up (JSNumber.scale10 (JSNumber.ratio_of m e) (Z.of_nat f))).
Proof.
  intros E Hlt. unfold JSNumber.toFixed. rewrite E, (abs_positive p m e E).
  rewrite (ltb_leb_false _ _ Hlt). reflexivity.
Qed.

Lemma toFixed_shows (f : nat) (p : float) (m : positive) (e : Z) :
  (0 < f)%nat ->
  Prim2SF p = S754_finite false m e -> (p <? 1e21)%float = true ->
  shows_fixed f p (JSNumber.toFixed f p).
Proof.
  intros Hf E Hlt. rewrite (toFixed_finite f p m e E Hlt).
  destruct (ratio_of_pos m e) as [Ha Hb].
  destruct (scale10_pos (JSNumber.ratio_of m e) (Z.of_nat f) Ha Hb) as [Ha' Hb'].
  destruct (round_half_up_nearest _ (Z.lt_le_incl _ _ Ha') Hb') as [Hn Hnear].
  eexists _, _. split; [unfold exact; rewrite E; reflexivity|].
  split; [apply read_fixed_digits; assumption | exact Hnear].
Qed.

Lemma fmtPrice_first_tier (p : float) :
  (0.01 <=? p)%float = true -> (p <? 1e21)%float = true ->
  exists text, fmtPrice (Num p) = Ret ("$" +:+ text) /\ shows_fixed 4 p text.
Proof.
  intros Hle Hlt.
  destruct (positive_finite 0.01 1e21 p _ _ eq_refl Hle Hlt) as (m & e & E).
  exists (JSNumber.toFixed 4 p). split.
  - unfold fmtPrice. simpl. rewrite (or_zero_finite p _ m e E), Hle. reflexivity.
  - apply (toFixed_shows 4 p m e); [lia | exact E | exact Hlt].
Qed.

Lemma fmtPrice_second_tier (p : float) :
  (0.000001 <=? p)%float = true -> (p <? 0.01)%float = true ->
  exists text, fmtPrice (Num p) = Ret ("$" +:+ text) /\ shows_fixed 8 p text.
Proof.
  intros Hle Hlt.
  destruct (positive_finite 0.000001 0.01 p _ _ eq_refl Hle Hlt) as (m & e & E).
  assert (Hbig : (p <? 1e21)%float = true).
  { apply (below_below p 0.01 1e21 5764607523034235 7629394531250000 (-59) 17 eq_refl eq_refl); [lia | exact Hlt]. }
  exists (JSNumber.toFixed 8 p). split.
  - unfold fmtPrice. simpl. rewrite (or_zero_finite p _ m e E).
    rewrite (ltb_leb_false _ _ Hlt), Hle. reflexivity.
  - apply (toFixed_shows 8 p m e); [lia | exact E | exact Hbig].
Qed.

Lemma fmtPrice_last_tier (p : float) :
  is_zero p = true \/ is_nan p = true -> fmtPrice (Num p) = Ret "$0.00".
Proof.
  intros H. unfold fmtPrice. simpl.
  assert (E : or_zero p = zero).
  { unfold or_zero. destruct H as [-> | ->]; [rewrite orb_true_r|]; reflexivity. }
  rewrite E. reflexivity.
Qed.

(** What is at or above a constant is at or above a constant of smaller
    exponent. *)
Lemma above_above (x a b : float) (ma mb : positive) (ea eb : Z) :
  Prim2SF a = S754_finite false ma ea ->
  Prim2SF b = S754_finite false mb eb ->
  eb < ea ->
  (a <=? x)%float = true -> (b <=? x)%float = true.
Proof.
  intros Ha Hb Hlt. rewrite !FloatAxioms.leb_spec, Ha, Hb.
  unfold SFleb.
  destruct (Prim2SF x) as [s|s| |s m e]; try (destruct s; simpl; congruence); simpl; try congruence.
  destruct s; [discriminate|].
  destruct (Z.compare_spec ea e) as [He|He|He]; try discriminate.
  - intros _. subst e. rewrite (proj2 (Z.compare_lt_iff eb ea)) by lia. reflexivity.
  - intros _. rewrite (proj2 (Z.compare_lt_iff eb e)) by lia. reflexivity.
Qed.

Lemma fmtPrice_beyond (p : float) :
  (1e21 <=? p)%float = true -> fmtPrice (Num p) = Ret ("$" +:+ JSNumber.toString p).
Proof.
  intros Hle.
  pose proof (above_above p 1e21 0.01 7629394531250000 5764607523034235 17 (-59)
                eq_refl eq_refl ltac:(lia) Hle) as Hcent.
  pose proof (leb_pos_const 1e21 p _ _ eq_refl Hle) as Hp.
  assert (Hz : or_zero p = p).
  { unfold or_zero. rewrite is_nan_spec, is_zero_spec.
    destruct (Prim2SF p) as [s|s| |s m e]; try contradiction; reflexivity. }
  unfold fmtPrice. simpl. rewrite Hz, Hcent. do 2 f_equal.
  unfold JSNumber.toFixed.
  destruct (Prim2SF p) as [s|s| |s m e] eqn:E; try contradiction.
  - destruct s; [contradiction|]. unfold JSNumber.toString. rewrite E. reflexivity.
  - destruct s; [contradiction|].
    rewrite (abs_positive p m e E), Hle. reflexivity.
Qed.

(** *** Powers of ten and the decimal magnitude *)

(** [10^x] for [x >= 0] and [1] otherwise; and the same for [-x]. *)
Definition P10 (x : Z) : Z := 10 ^ Z.max x 0.
Definition N10 (x : Z) : Z := 10 ^ Z.max (- x) 0.

Lemma P10_pos x : 0 < P10 x.
Proof. apply Z.pow_pos_nonneg; lia. Qed.

Lemma N10_pos x : 0 < N10 x.
Proof. apply Z.pow_pos_nonneg; lia. Qed.

Lemma scale10_uniform (a b p : Z) :
  JSNumber.scale10 (a, b) p = (a * P10 p, b * N10 p).
Proof.
  unfold JSNumber.scale10, P10, N10.
  destruct (Z.leb_spec 0 p) as [Hp|Hp].
  - rewrite (Z.max_l p 0), (Z.max_r (- p) 0) by lia. f_equal. simpl. lia.
  - rewrite (Z.max_r p 0), (Z.max_l (- p) 0) by lia. f_equal. simpl. lia.
Qed.

(** [10^(x+y) = 10^x * 10^y], without negative exponents. *)
Lemma P10_N10_add (x y : Z) :
  P10 (x + y) * N10 x * N10 y = N10 (x + y) * P10 x * P10 y.
Proof.
  unfold P10, N10. rewrite <- !Z.pow_add_r by lia. f_equal. lia.
Qed.

(** [r < 10^k]. *)
Definition below (r : JSNumber.ratio) (k : Z) : Prop :=
  fst r * N10 k < snd r * P10 k.

Lemma magnitude_test (r : JSNumber.ratio) (n : Z) :
  (let '(a, b) := JSNumber.scale10 r (- n) in a <? b) = true <-> below r n.
Proof.
  destruct r as [a b]. rewrite scale10_uniform. unfold below. simpl.
  rewrite Z.ltb_lt. unfold P10, N10. rewrite Z.opp_involutive. reflexivity.
Qed.

Lemma magnitude_fuel_spec (r : JSNumber.ratio) (fuel : nat) (n : Z) :
  ~ below r (n - 1) -> below r (n + Z.of_nat fuel) ->
  below r (JSNumber.magnitude_fuel fuel r n) /\
  ~ below r (JSNumber.magnitude_fuel fuel r n - 1).
Proof.
  revert n. induction fuel as [|fuel IH]; intros n Hlow Hup.
  - simpl. rewrite Z.add_0_r in Hup. auto.
  - cbn [JSNumber.magnitude_fuel].
    pose proof (magnitude_test r n) as Ht.
    destruct (JSNumber.scale10 r (- n)) as [a b].
    destruct (a <? b) eqn:E.
    + split; [now apply Ht | exact Hlow].
    + apply IH.
      * replace (n + 1 - 1) with n by lia. intros Hb. apply Ht in Hb. discriminate.
      * replace (n + 1 + Z.of_nat fuel) with (n + Z.of_nat (S fuel)) by lia. exact Hup.
Qed.

(** The decimal magnitude of a finite double: [10^(n-1) <= x < 10^n]. *)
Lemma magnitude_spec (x : float) (s : bool) (m : positive) (e : Z) :
  Prim2SF x = S754_finite s m e ->
  below (JSNumber.ratio_of m e) (JSNumber.magnitude (JSNumber.ratio_of m e)) /\
  ~ below (JSNumber.ratio_of m e) (JSNumber.magnitude (JSNumber.ratio_of m e) - 1).
Proof.
  intros E. destruct (finite_bounds x s m e E) as [He Hm].
  unfold JSNumber.magnitude. apply magnitude_fuel_spec.
  - (* 10^-324 <= x *)
    unfold below, JSNumber.ratio_of.
    change (N10 (-323 - 1)) with (10 ^ 324). change (P10 (-323 - 1)) with 1.
    destruct (Z.leb_spec 0 e) as [H0|H0]; simpl fst; simpl snd.
    + pose proof (Z.pow_pos_nonneg 2 e ltac:(lia) H0).
      assert (1 <= 10 ^ 324) by (vm_compute; discriminate). nia.
    + assert (2 ^ (- e) <= 2 ^ 1074) by (apply Z.pow_le_mono_r; lia).
      assert (2 ^ 1074 <= 10 ^ 324) by (vm_compute; discriminate).
      nia.
  - (* x < 10^317 *)
    unfold below, JSNumber.ratio_of.
    change (N10 (-323 + Z.of_nat 640)) with 1.
    change (P10 (-323 + Z.of_nat 640)) with (10 ^ 317).
    destruct (Z.leb_spec 0 e) as [H0|H0]; simpl fst; simpl snd.
    + assert (2 ^ e <= 2 ^ 971) by (apply Z.pow_le_mono_r; lia).
      assert (2 ^ 53 * 2 ^ 971 <= 10 ^ 317) by (vm_compute; discriminate).
      pose proof (Z.pow_pos_nonneg 2 e ltac:(lia) H0). nia.
    + pose proof (Z.pow_pos_nonneg 2 (- e) ltac:(lia) ltac:(lia)).
      assert (2 ^ 53 <= 10 ^ 317) by (vm_compute; discriminate). nia.
Qed.

(** *** Reading back what [toExponential] prints *)

Lemma digit_val_bound (c : ascii) : is_digit c = true -> 0 <= digit_val c <= 9.
Proof.
  unfold is_digit, digit_val. intros H. apply andb_prop in H as [H1 H2].
  apply Nat.leb_le in H1, H2. lia.
Qed.

Lemma spell_bound (s : string) :
  all_digits s = true -> 0 <= spell s 0 < 10 ^ Z.of_nat (String.length s).
Proof.
  induction s as [|c s IH]; intros H; [simpl; lia|].
  cbn [all_digits] in H. apply andb_prop in H as [Hc H].
  specialize (IH H). pose proof (digit_val_bound c Hc) as Hcv.
  cbn [spell String.length]. rewrite spell_shift.
  rewrite Nat2Z.inj_succ, Z.pow_succ_r by lia.
  set (q := 10 ^ Z.of_nat (String.length s)) in *. nia.
Qed.

(** A number of [k] digits prints as [k] characters. *)
Lemma digits_length (n : Z) (k : nat) :
  10 ^ Z.of_nat k <= n < 10 ^ Z.of_nat (S k) -> String.length (digits n) = S k.
Proof.
  intros [Hlo Hhi].
  assert (Hpos : 0 < n).
  { pose proof (Z.pow_pos_nonneg 10 (Z.of_nat k) ltac:(lia) ltac:(lia)). lia. }
  destruct (digits_spec n ltac:(lia)) as (Hall & Hsp & Hlen & Hlow).
  specialize (Hlow Hpos). pose proof (spell_bound _ Hall) as Hup. rewrite Hsp in Hup.
  set (l := String.length (digits n)) in *.
  destruct (Nat.lt_trichotomy l (S k)) as [Hl|[Hl|Hl]]; [|exact Hl|].
  - exfalso.
    assert (10 ^ Z.of_nat l <= 10 ^ Z.of_nat k) by (apply Z.pow_le_mono_r; lia). lia.
  - exfalso.
    assert (10 ^ Z.of_nat (S k) <= 10 ^ Z.of_nat (l - 1)) by (apply Z.pow_le_mono_r; lia). lia.
Qed.

Fixpoint no_e (s : string) : bool :=
  match s with
  | EmptyString => true
  | String c s' => negb (Ascii.eqb c "e") && no_e s'
  end.

Lemma no_e_app (s t : string) : no_e (s +:+ t) = no_e s && no_e t.
Proof.
  induction s as [|c s IH]; [reflexivity|].
  rewrite app_cons. simpl. now rewrite IH, andb_assoc.
Qed.

Lemma all_digits_no_e (s : string) : all_digits s = true -> no_e s = true.
Proof.
  induction s as [|c s IH]; [reflexivity|]. simpl. intros H.
  apply andb_prop in H as [Hc Hs]. rewrite (IH Hs), andb_true_r.
  destruct (Ascii.eqb_spec c "e") as [->|]; [discriminate Hc | reflexivity].
Qed.

Lemma split_exponent_app (s t : string) :
  no_e s = true -> split_exponent (s +:+ String "e" t) = Some (s, t).
Proof.
  induction s as [|c s IH]; intros H.
  - reflexivity.
  - simpl in H. apply andb_prop in H as [Hc Hs].
    rewrite app_cons. cbn [split_exponent].
    apply negb_true_iff in Hc. rewrite Hc, (IH Hs). reflexivity.
Qed.

Lemma read_exponent_suffix (mantissa : string) (n : Z) (f : nat) (e : Z) :
  no_e mantissa = true -> read_decimal mantissa = Some (n, f) ->
  read_scientific (mantissa +:+ JSNumber.exponent_suffix e) = Some (n, f, e).
Proof.
  intros Hne Hread. unfold JSNumber.exponent_suffix, read_scientific.
  rewrite app_cons, app_nil_l, (split_exponent_app _ _ Hne).
  cbn [mbind option_bind]. rewrite Hread. cbn [mbind option_bind].
  destruct (digits_spec (Z.abs e) (Z.abs_nonneg e)) as (Hall & Hsp & Hlen & _).
  assert (Hscan : scan_digits (digits (Z.abs e)) 0 0
                  = (Z.abs e, String.length (digits (Z.abs e)), EmptyString)).
  { rewrite <- (app_nil_r (digits (Z.abs e))) at 1.
    rewrite (scan_digits_all _ _ 0 0 Hall), scan_digits_stops by reflexivity.
    now rewrite Hsp. }
  destruct (Z.leb_spec 0 e) as [He|He]; rewrite app_cons, app_nil_l, Hscan;
    destruct (String.length (digits (Z.abs e))) as [|l] eqn:El; try lia;
    simpl; do 2 f_equal; lia.
Qed.

(** A mantissa of three digits, printed with two of them after the point. *)
Lemma read_mantissa (n : Z) :
  100 <= n < 1000 ->
  let m := digits n in
  no_e (take 1 m +:+ "." +:+ drop 1 m) = true /\
  read_decimal (take 1 m +:+ "." +:+ drop 1 m) = Some (n, 2%nat).
Proof.
  intros Hn m.
  assert (Hlen : String.length m = 3%nat) by (apply (digits_length n 2); simpl; lia).
  destruct (digits_spec n ltac:(lia)) as (Hall & _).
  split.
  - destruct (all_digits_take_drop 1 m Hall) as [Ht Hd].
    rewrite !no_e_app, (all_digits_no_e _ Ht), (all_digits_no_e _ Hd). reflexivity.
  - pose proof (read_fixed_digits 2 n ltac:(lia) ltac:(lia)) as H.
    unfold JSNumber.fixed_digits in H. cbv zeta iota in H. fold m in H.
    rewrite Hlen in H. cbn [Nat.leb] in H. rewrite Hlen in H. exact H.
Qed.

(** For [10^e0 <= r < 10^(e0+1)], [r * 10^(2-e0)] lies between 100 and
    1000. *)
Lemma scaled_mantissa_range (a b e0 : Z) :
  0 < a -> 0 < b -> ~ below (a, b) e0 -> below (a, b) (e0 + 1) ->
  100 * (b * N10 (2 - e0)) <= a * P10 (2 - e0) < 1000 * (b * N10 (2 - e0)).
Proof.
  unfold below. simpl. intros Ha Hb Hlo Hhi.
  pose proof (P10_N10_add (2 - e0) e0) as I1.
  replace (2 - e0 + e0) with 2 in I1 by lia.
  change (P10 2) with 100 in I1. change (N10 2) with 1 in I1.
  pose proof (P10_N10_add (2 - e0) (e0 + 1)) as I2.
  replace (2 - e0 + (e0 + 1)) with 3 in I2 by lia.
  change (P10 3) with 1000 in I2. change (N10 3) with 1 in I2.
  pose proof (P10_pos e0). pose proof (P10_pos (e0 + 1)).
  pose proof (N10_pos e0). pose proof (N10_pos (e0 + 1)).
  pose proof (P10_pos (2 - e0)). pose proof (N10_pos (2 - e0)).
  split.
  - apply (Z.mul_le_mono_pos_r _ _ (P10 e0)); [assumption|].
    replace (a * P10 (2 - e0) * P10 e0) with (a * N10 e0 * (100 * N10 (2 - e0))) by nia.
    replace (100 * (b * N10 (2 - e0)) * P10 e0) with (b * P10 e0 * (100 * N10 (2 - e0))) by ring.
    apply Z.mul_le_mono_nonneg_r; lia.
  - apply (Z.mul_lt_mono_pos_r (P10 (e0 + 1))); [assumption|].
    replace (a * P10 (2 - e0) * P10 (e0 + 1))
      with (a * N10 (e0 + 1) * (1000 * N10 (2 - e0))) by nia.
    replace (1000 * (b * N10 (2 - e0)) * P10 (e0 + 1))
      with (b * P10 (e0 + 1) * (1000 * N10 (2 - e0))) by ring.
    apply Z.mul_lt_mono_pos_r; lia.
Qed.

(** A mantissa rounded up to 1000 is the mantissa 100 of the next
    exponent. *)
Lemma nearest_carry (a b e0 : Z) :
  0 < a -> 0 < b ->
  nearest (JSNumber.scale10 (a, b) (2 - e0)) 1000 ->
  nearest (JSNumber.scale10 (a, b) (2 - (e0 + 1))) 100.
Proof.
  rewrite !scale10_uniform. unfold nearest. simpl. intros Ha Hb H.
  replace (2 - (e0 + 1)) with (1 - e0) by lia.
  pose proof (P10_N10_add 1 (1 - e0)) as I.
  replace (1 + (1 - e0)) with (2 - e0) in I by lia.
  change (P10 1) with 10 in I. change (N10 1) with 1 in I.
  pose proof (P10_pos (2 - e0)). pose proof (N10_pos (2 - e0)).
  pose proof (P10_pos (1 - e0)). pose proof (N10_pos (1 - e0)).
  set (A := a * P10 (2 - e0)) in *. set (B := b * N10 (2 - e0)) in *.
  set (A' := a * P10 (1 - e0)). set (B' := b * N10 (1 - e0)).
  assert (HB : 0 < B) by (unfold B; nia).
  assert (HB' : 0 < B') by (unfold B'; nia).
  assert (Hrel : A * B' = 10 * A' * B) by (unfold A, B, A', B'; nia).
  assert (Hd : 10 * B * (100 * B' - A') = B' * (1000 * B - A)) by nia.
  assert (Hscaled : 2 * Z.abs (B' * (1000 * B - A)) <= B' * B).
  { rewrite Z.abs_mul, (Z.abs_eq B') by lia. nia. }
  rewrite <- Hd, Z.abs_mul, (Z.abs_eq (10 * B)) in Hscaled by lia.
  nia.
Qed.

Lemma toExponential_shows (p : float) (m : positive) (e : Z) :
  Prim2SF p = S754_finite false m e ->
  shows_scientific 2 p (JSNumber.toExponential 2 p).
Proof.
  intros E. unfold JSNumber.toExponential. rewrite E. cbv zeta.
  destruct (magnitude_spec p false m e E) as [Hup Hlo].
  destruct (ratio_of_pos m e) as [Ha Hb].
  assert (Hexact : exact p = Some (JSNumber.ratio_of m e))
    by (unfold exact; rewrite E; reflexivity).
  destruct (JSNumber.ratio_of m e) as [a b]. simpl in Ha, Hb.
  set (e0 := JSNumber.magnitude (a, b) - 1) in *.
  replace (JSNumber.magnitude (a, b)) with (e0 + 1) in Hup by (unfold e0; lia).
  change (Z.of_nat 2) with 2. change (10 ^ (2 + 1)) with 1000. change (10 ^ 2) with 100.
  pose proof (scaled_mantissa_range a b e0 Ha Hb Hlo Hup) as [Hr1 Hr2].
  pose proof (N10_pos (2 - e0)) as HN.
  assert (HB : 0 < b * N10 (2 - e0)) by nia.
  destruct (round_half_up_nearest (JSNumber.scale10 (a, b) (2 - e0))) as [Hn0 Hnear].
  { rewrite scale10_uniform. simpl. pose proof (P10_pos (2 - e0)). nia. }
  { rewrite scale10_uniform. exact HB. }
  set (n := JSNumber.round_half_up (JSNumber.scale10 (a, b) (2 - e0))) in *.
  assert (Hrange : 100 <= n <= 1000).
  { unfold n. rewrite scale10_uniform. unfold JSNumber.round_half_up. split.
    - apply Z.div_le_lower_bound; lia.
    - assert ((2 * (a * P10 (2 - e0)) + b * N10 (2 - e0)) / (2 * (b * N10 (2 - e0))) < 1001);
        [apply Z.div_lt_upper_bound; lia | lia]. }
  destruct (Z.eqb_spec n 1000) as [Hcarry|Hnc].
  - (* the mantissa rounds up to the next power of ten *)
    destruct (read_mantissa 100 ltac:(lia)) as [Hne Hread].
    exists (a, b), 100, (e0 + 1). split; [exact Hexact|].
    split; [|split].
    + rewrite StringFacts.app_nil_l.
      apply read_exponent_suffix; assumption.
    + simpl. lia.
    + apply nearest_carry; [assumption..|]. rewrite <- Hcarry. exact Hnear.
  - destruct (read_mantissa n ltac:(lia)) as [Hne Hread].
    exists (a, b), n, e0. split; [exact Hexact|].
    split; [|split].
    + rewrite StringFacts.app_nil_l.
      apply read_exponent_suffix; assumption.
    + simpl. lia.
    + exact Hnear.
Qed.

Lemma fmtPrice_third_tier (p : float) :
  (0 <? p)%float = true -> (p <? 0.000001)%float = true ->
  exists text, fmtPrice (Num p) = Ret ("$" +:+ text) /\ shows_scientific 2 p text.
Proof.
  intros Hpos Hlt.
  destruct (above_zero_finite 0.000001 p Hpos Hlt) as (m & e & E).
  exists (JSNumber.toExponential 2 p). split.
  - unfold fmtPrice. simpl. rewrite (or_zero_finite p _ m e E).
    rewrite (below_excludes p 0.000001 0.01 4722366482869645 5764607523034235 (-72) (-59)
               eq_refl eq_refl ltac:(lia) Hlt).
    rewrite (ltb_leb_false _ _ Hlt), Hpos. reflexivity.
  - apply (toExponential_shows p m e E).
Qed.

(** C3, as amended.  The price formatter prints a number [p], after "$":
    with 4 fractional digits when [0.01 <= p < 1e21]; with 8 fractional
    digits when [0.000001 <= p < 0.01]; in scientific notation with 2
    fractional digits when [0 < p < 0.000001]; and it prints "$0.00" when
    [p] is zero or not a number.  Each time the numeral printed is a
    nearest one to [p].  From 1e21 on, Infinity included, it prints [p] as
    [toString] does.  So 0.000123 gives "$0.00012300", 0.5 gives
    "$0.5000", 0 gives "$0.00", 1e21 gives "$1e+21" and Infinity gives
    "$Infinity". *)
Theorem fmtPrice_spec (p : float) :
  ((0.01 <=? p)%float = true -> (p <? 1e21)%float = true ->
   exists text, fmtPrice (Num p) = Ret ("$" +:+ text) /\ shows_fixed 4 p text) /\
  ((0.000001 <=? p)%float = true -> (p <? 0.01)%float = true ->
   exists text, fmtPrice (Num p) = Ret ("$" +:+ text) /\ shows_fixed 8 p text) /\
  ((0 <? p)%float = true -> (p <? 0.000001)%float = true ->
   exists text, fmtPrice (Num p) = Ret ("$" +:+ text) /\ shows_scientific 2 p text) /\
  (is_zero p = true \/ is_nan p = true -> fmtPrice (Num p) = Ret "$0.00") /\
  ((1e21 <=? p)%float = true -> fmtPrice (Num p) = Ret ("$" +:+ JSNumber.toString p)) /\
  fmtPrice (Num 0.000123) = Ret "$0.00012300" /\
  fmtPrice (Num 0.5) = Ret "$0.5000" /\
  fmtPrice (Num 0) = Ret "$0.00" /\
  fmtPrice Undefined = Ret "$0.00" /\
  fmtPrice (Num 1e21) = Ret "$1e+21" /\
  fmtPrice (Num infinity) = Ret "$Infinity".
Proof.
  split; [apply fmtPrice_first_tier|].
  split; [apply fmtPrice_second_tier|].
  split; [apply fmtPrice_third_tier|].
  split; [apply fmtPrice_last_tier|].
  split; [apply fmtPrice_beyond|].
  repeat split; vm_compute; reflexivity.
Qed.

Lemma fmtPrice_spec_witness :
  exists text, fmtPrice (Num 0.5) = Ret ("$" +:+ text) /\ shows_fixed 4 0.5 text.
Proof.
  destruct (fmtPrice_spec 0.5) as [H _].
  exact (H eq_refl eq_refl).
Defined.

(** C3 as stated fails: from 1e21 on, [toFixed] prints a number as
    [toString] does, without fractional digits. *)
Lemma fmtPrice_first_tier_fails : ~ price_first_tier_as_claimed 1e21.
Proof.
  intros H. destruct (H eq_refl) as (text & Hfmt & (r & n & _ & Hread & _)).
  vm_compute in Hfmt. injection Hfmt as <-.
  vm_compute in Hread. discriminate Hread.
Qed.

End FormatProofs.

(** ** Numbers printed and read back *)

Module NumberProofs.
Import Text JSNumber JS JSON Spec StringFacts DigitFacts FormatProofs.

(** *** The double nearest to an exactly representable value *)

(** [2^x] for [x >= 0] and [1] otherwise; and the same for [-x]. *)
Definition P2 (x : Z) : Z := 2 ^ Z.max x 0.
Definition N2 (x : Z) : Z := 2 ^ Z.max (- x) 0.

Lemma P2_pos x : 0 < P2 x.
Proof. apply Z.pow_pos_nonneg; lia. Qed.

Lemma N2_pos x : 0 < N2 x.
Proof. apply Z.pow_pos_nonneg; lia. Qed.

Lemma scale2_uniform (a b p : Z) :
  scale2 (a, b) (- p) = (a * N2 p, b * P2 p).
Proof.
  unfold scale2, P2, N2.
  destruct (Z.leb_spec 0 (- p)) as [Hp|Hp].
  - rewrite (Z.max_l (- p) 0), (Z.max_r p 0) by lia. f_equal. simpl. lia.
  - rewrite (Z.max_r (- p) 0), (Z.max_l p 0), Z.opp_involutive by lia.
    f_equal. simpl. lia.
Qed.

(** [2^(x+y) = 2^x * 2^y], without negative exponents. *)
Lemma P2_N2_add (x y : Z) :
  P2 (x + y) * N2 x * N2 y = N2 (x + y) * P2 x * P2 y.
Proof.
  unfold P2, N2. rewrite <- !Z.pow_add_r by lia. f_equal. lia.
Qed.

(** [lo <= (a / b) / 2^e < hi]. *)
Definition mantissa_in (a b e lo hi : Z) : Prop :=
  lo * (b * P2 e) <= a * N2 e < hi * (b * P2 e).

Lemma mantissa_in_pred (a b e lo hi : Z) :
  mantissa_in a b e lo hi -> mantissa_in a b (e - 1) (2 * lo) (2 * hi).
Proof.
  unfold mantissa_in. intros H.
  pose proof (P2_N2_add (e - 1) 1) as E.
  replace (e - 1 + 1) with e in E by lia.
  change (N2 1) with 1 in E. change (P2 1) with 2 in E.
  pose proof (P2_pos e). pose proof (N2_pos e).
  pose proof (P2_pos (e - 1)). pose proof (N2_pos (e - 1)).
  assert (E1 : P2 e * N2 (e - 1) = 2 * (N2 e * P2 (e - 1))) by lia.
  clear E.
  assert (Hx : forall c, c * (b * P2 e) * N2 (e - 1) = 2 * c * (b * P2 (e - 1)) * N2 e).
  { intros c. transitivity (c * b * (P2 e * N2 (e - 1))); [ring|]. rewrite E1. ring. }
  split.
  - apply (Z.mul_le_mono_pos_r _ _ (N2 e)); [lia|].
    rewrite <- Hx.
    transitivity (a * N2 e * N2 (e - 1)); [|lia].
    apply Z.mul_le_mono_nonneg_r; lia.
  - apply (Z.mul_lt_mono_pos_r (N2 e)); [lia|].
    rewrite <- Hx.
    apply Z.le_lt_trans with (a * N2 e * N2 (e - 1)); [lia|].
    apply Z.mul_lt_mono_pos_r; lia.
Qed.

Lemma log2_bounds (a : Z) : 0 < a -> 2 ^ Z.log2 a <= a < 2 * 2 ^ Z.log2 a.
Proof.
  intros Ha. pose proof (Z.log2_spec a Ha) as H.
  rewrite Z.pow_succ_r in H by apply Z.log2_nonneg. lia.
Qed.

(** The exponent computed from the logarithms normalises the mantissa. *)
Lemma binary_exponent_spec (a b : Z) :
  0 < a -> 0 < b ->
  mantissa_in a b (binary_exponent (a, b)) (2 ^ 52) (2 ^ 53).
Proof.
  intros Ha Hb. unfold binary_exponent.
  set (e1 := Z.log2 a - Z.log2 b - 52).
  rewrite scale2_uniform.
  assert (H1 : mantissa_in a b e1 (2 ^ 51) (2 ^ 53)).
  { pose proof (log2_bounds a Ha) as La. pose proof (log2_bounds b Hb) as Lb.
    pose proof (Z.log2_nonneg a) as Na. pose proof (Z.log2_nonneg b) as Nb.
    set (la := Z.log2 a) in *. set (lb := Z.log2 b) in *.
    unfold mantissa_in, P2, N2.
    destruct (Z.le_gt_cases 0 e1) as [He|He].
    - rewrite (Z.max_l e1 0), (Z.max_r (- e1) 0) by lia.
      assert (E : 2 ^ la = 2 ^ lb * 2 ^ 52 * 2 ^ e1).
      { rewrite <- !Z.pow_add_r by lia. f_equal. lia. }
      pose proof (Z.pow_pos_nonneg 2 e1 ltac:(lia) He).
      pose proof (Z.pow_pos_nonneg 2 lb ltac:(lia) Nb).
      change (2 ^ 0) with 1. change (2 ^ 51) with 2251799813685248.
      change (2 ^ 53) with 9007199254740992.
      change (2 ^ 52) with 4503599627370496 in E.
      set (p := 2 ^ e1) in *. set (q := 2 ^ lb) in *. nia.
    - rewrite (Z.max_r e1 0), (Z.max_l (- e1) 0) by lia.
      assert (E : 2 ^ la * 2 ^ (- e1) = 2 ^ lb * 2 ^ 52).
      { rewrite <- !Z.pow_add_r by lia. f_equal. lia. }
      pose proof (Z.pow_pos_nonneg 2 (- e1) ltac:(lia) ltac:(lia)).
      pose proof (Z.pow_pos_nonneg 2 lb ltac:(lia) Nb).
      change (2 ^ 0) with 1. change (2 ^ 51) with 2251799813685248.
      change (2 ^ 53) with 9007199254740992.
      change (2 ^ 52) with 4503599627370496 in E.
      set (p := 2 ^ (- e1)) in *. set (q := 2 ^ lb) in *. nia. }
  destruct (Z.ltb_spec (a * N2 e1) (b * P2 e1 * 2 ^ 52)) as [Hlt|Hge].
  - apply mantissa_in_pred in H1.
    change (2 * 2 ^ 51) with (2 ^ 52) in H1.
    destruct H1 as [H1 _]. split; [exact H1|].
    pose proof (mantissa_in_pred a b e1 0 (2 ^ 52)) as H2.
    change (2 * 2 ^ 52) with (2 ^ 53) in H2. apply H2.
    unfold mantissa_in. pose proof (N2_pos e1). lia.
  - destruct H1 as [_ H1]. split; [lia|exact H1].
Qed.

Lemma mantissa_in_shift (a b e e' lo hi : Z) :
  0 < b -> e <= e' -> mantissa_in a b e' lo hi ->
  mantissa_in a b e (lo * 2 ^ (e' - e)) (hi * 2 ^ (e' - e)).
Proof.
  unfold mantissa_in. intros Hb He H.
  pose proof (P2_N2_add e (e' - e)) as E.
  replace (e + (e' - e)) with e' in E by lia.
  unfold P2 at 3 in E. unfold N2 at 2 in E.
  rewrite (Z.max_l (e' - e) 0), (Z.max_r (- (e' - e)) 0) in E by lia.
  change (2 ^ 0) with 1 in E.
  set (p := 2 ^ (e' - e)) in *.
  pose proof (P2_pos e). pose proof (N2_pos e).
  pose proof (P2_pos e'). pose proof (N2_pos e').
  assert (Hx : forall c, c * (b * P2 e') * N2 e = c * p * (b * P2 e) * N2 e').
  { intros c. transitivity (c * b * (P2 e' * N2 e * 1)); [ring|]. rewrite E. ring. }
  split.
  - apply (Z.mul_le_mono_pos_r _ _ (N2 e')); [lia|].
    rewrite <- Hx.
    transitivity (a * N2 e' * N2 e); [|lia].
    apply Z.mul_le_mono_nonneg_r; lia.
  - apply (Z.mul_lt_mono_pos_r (N2 e')); [lia|].
    rewrite <- Hx.
    apply Z.le_lt_trans with (a * N2 e' * N2 e); [lia|].
    apply Z.mul_lt_mono_pos_r; lia.
Qed.

Lemma digits2_pos_low (m : positive) : 2 ^ (Z.pos (digits2_pos m) - 1) <= Z.pos m.
Proof.
  induction m as [p IH|p IH|]; cbn [digits2_pos].
  - rewrite Pos2Z.inj_succ. replace (Z.succ (Z.pos (digits2_pos p)) - 1)
      with (Z.succ (Z.pos (digits2_pos p) - 1)) by lia.
    rewrite Z.pow_succ_r by lia. lia.
  - rewrite Pos2Z.inj_succ. replace (Z.succ (Z.pos (digits2_pos p)) - 1)
      with (Z.succ (Z.pos (digits2_pos p) - 1)) by lia.
    rewrite Z.pow_succ_r by lia. lia.
  - simpl. lia.
Qed.

(** The mantissa of a finite double has 53 bits, or its exponent is the
    least one. *)
Lemma finite_canonical (x : float) (s : bool) (m : positive) (e : Z) :
  Prim2SF x = S754_finite s m e -> 2 ^ 52 <= Z.pos m \/ e = -1074.
Proof.
  intros E. pose proof (Prim2SF_valid x) as V. rewrite E in V.
  unfold SpecFloat.valid_binary, bounded, canonical_mantissa, fexp, SpecFloat.emin in V.
  apply andb_prop in V as [V1 _]. apply Z.eqb_eq in V1.
  change (3 - emax - prec) with (-1074) in V1. change prec with 53 in V1.
  pose proof (digits2_pos_low m) as L.
  destruct (Z.eq_dec e (-1074)) as [He|He]; [now right|left].
  assert (D : Z.pos (digits2_pos m) = 53) by lia.
  rewrite D in L. exact L.
Qed.

(** A rational that is the value [m * 2^e] of a double. *)
Definition is_value (a b : Z) (m : positive) (e : Z) : Prop :=
  a * N2 e = Z.pos m * (b * P2 e).

Lemma is_value_ratio_of (m : positive) (e : Z) :
  is_value (fst (ratio_of m e)) (snd (ratio_of m e)) m e.
Proof.
  unfold is_value, ratio_of, P2, N2.
  destruct (Z.leb_spec 0 e) as [He|He]; simpl fst; simpl snd.
  - rewrite (Z.max_l e 0), (Z.max_r (- e) 0) by lia. simpl. lia.
  - rewrite (Z.max_r e 0), (Z.max_l (- e) 0) by lia. simpl. lia.
Qed.

(** Rounding a rational that is the value of the double [y] gives [y]. *)
Lemma float_of_ratio_exact (y : float) (m : positive) (e a b : Z) :
  Prim2SF y = S754_finite false m e -> 0 < a -> 0 < b ->
  is_value a b m e -> float_of_ratio (a, b) = y.
Proof.
  intros E Ha Hb V. unfold is_value in V.
  destruct (finite_bounds y false m e E) as [He Hm].
  pose proof (finite_canonical y false m e E) as C.
  pose proof (binary_exponent_spec a b Ha Hb) as S.
  pose proof (P2_pos e) as Pe. pose proof (N2_pos e) as Ne.
  assert (K : 0 < b * P2 e) by lia.
  assert (Hmax : Z.max (binary_exponent (a, b)) (-1074) = e).
  { set (e2 := binary_exponent (a, b)) in *.
    assert (Hle : e2 <= e).
    { destruct (Z.le_gt_cases e2 e) as [H|H]; [exact H|exfalso].
      apply (mantissa_in_shift a b e e2) in S; [|lia|lia].
      destruct S as [S _]. rewrite V in S.
      apply Z.mul_le_mono_pos_r in S; [|exact K].
      assert (2 ^ 1 <= 2 ^ (e2 - e)) by (apply Z.pow_le_mono_r; lia).
      change (2 ^ 1) with 2 in *. change (2 ^ 52) with 4503599627370496 in *.
      change (2 ^ 53) with 9007199254740992 in *. lia. }
    destruct C as [C| ->]; [|lia].
    destruct (Z.eq_dec e2 e) as [->|Hne]; [lia|exfalso].
    assert (M : mantissa_in a b e (Z.pos m) (Z.pos m + 1)).
    { unfold mantissa_in. lia. }
    apply (mantissa_in_shift a b e2 e) in M; [|lia|lia].
    destruct M as [M _]. destruct S as [_ S].
    pose proof (P2_pos e2). 
    assert (X : Z.pos m * 2 ^ (e - e2) * (b * P2 e2) < 2 ^ 53 * (b * P2 e2)) by lia.
    apply Z.mul_lt_mono_pos_r in X; [|lia].
    assert (2 ^ 1 <= 2 ^ (e - e2)) by (apply Z.pow_le_mono_r; lia).
    change (2 ^ 1) with 2 in *. change (2 ^ 52) with 4503599627370496 in *.
    change (2 ^ 53) with 9007199254740992 in *. nia. }
  unfold float_of_ratio. cbn [fst].
  destruct (Z.leb_spec a 0) as [H0|_]; [lia|].
  rewrite Hmax, scale2_uniform. unfold round_half_even.
  rewrite V, Z.div_mul, Z.mod_mul by lia.
  change (2 * 0) with 0.
  destruct (Z.ltb_spec 0 (b * P2 e)) as [_|H0]; [|lia].
  destruct (Z.eqb_spec (Z.pos m) 0) as [H0|_]; [lia|].
  destruct (Z.eqb_spec (Z.pos m) (2 ^ 53)) as [H0|_]; [lia|].
  destruct (Z.ltb_spec 971 e) as [H0|_]; [lia|].
  change (Z.to_pos (Z.pos m)) with m.
  rewrite <- E. apply SF2Prim_Prim2SF.
Qed.

(** *** The search for the shortest digits *)

(** The first [k] digits of a value of magnitude [n0]. *)
Lemma scaled_range (a b n0 k : Z) :
  0 < a -> 0 < b -> ~ below (a, b) (n0 - 1) -> below (a, b) n0 -> 1 <= k ->
  10 ^ (k - 1) * (b * N10 (k - n0)) <= a * P10 (k - n0)
    < 10 ^ k * (b * N10 (k - n0)).
Proof.
  unfold below. simpl. intros Ha Hb Hlo Hhi Hk.
  pose proof (P10_N10_add (k - n0) (n0 - 1)) as I1.
  replace (k - n0 + (n0 - 1)) with (k - 1) in I1 by lia.
  unfold P10 at 1 in I1. unfold N10 at 3 in I1.
  rewrite (Z.max_l (k - 1) 0), (Z.max_r (- (k - 1)) 0) in I1 by lia.
  pose proof (P10_N10_add (k - n0) n0) as I2.
  replace (k - n0 + n0) with k in I2 by lia.
  unfold P10 at 1 in I2. unfold N10 at 3 in I2.
  rewrite (Z.max_l k 0), (Z.max_r (- k) 0) in I2 by lia.
  change (10 ^ 0) with 1 in I1, I2.
  pose proof (P10_pos n0). pose proof (P10_pos (n0 - 1)).
  pose proof (N10_pos n0). pose proof (N10_pos (n0 - 1)).
  pose proof (P10_pos (k - n0)). pose proof (N10_pos (k - n0)).
  set (p := 10 ^ k) in *. set (p' := 10 ^ (k - 1)) in *.
  split.
  - apply (Z.mul_le_mono_pos_r _ _ (P10 (n0 - 1))); [assumption|].
    replace (a * P10 (k - n0) * P10 (n0 - 1))
      with (a * N10 (n0 - 1) * (p' * N10 (k - n0))) by nia.
    replace (p' * (b * N10 (k - n0)) * P10 (n0 - 1))
      with (b * P10 (n0 - 1) * (p' * N10 (k - n0))) by ring.
    apply Z.mul_le_mono_nonneg_r; [|lia].
    assert (0 < p') by (apply Z.pow_pos_nonneg; lia). nia.
  - apply (Z.mul_lt_mono_pos_r (P10 n0)); [assumption|].
    replace (a * P10 (k - n0) * P10 n0)
      with (a * N10 n0 * (p * N10 (k - n0))) by nia.
    replace (p * (b * N10 (k - n0)) * P10 n0)
      with (b * P10 n0 * (p * N10 (k - n0))) by ring.
    apply Z.mul_lt_mono_pos_r; [|lia].
    assert (0 < p) by (apply Z.pow_pos_nonneg; lia). nia.
Qed.

(** With 1074 digits after the point the decimal expansion of a double
    is exact, and reads as the double. *)
Lemma exact_reads (y : float) (m : positive) (e n0 k : Z) :
  Prim2SF y = S754_finite false m e -> k - n0 = 1074 ->
  reads_as y (fst (scale10 (ratio_of m e) (k - n0)) /
              snd (scale10 (ratio_of m e) (k - n0)), k, n0) = true.
Proof.
  intros E Hk. destruct (finite_bounds y false m e E) as [He Hm].
  unfold reads_as. replace (n0 - k) with (- 1074) by lia. rewrite Hk.
  apply Leibniz.eqb_spec.
  assert (T : 10 ^ 1074 = 2 ^ 1074 * 5 ^ 1074).
  { rewrite <- Z.pow_mul_l. reflexivity. }
  assert (P : 0 < 10 ^ 1074) by (apply Z.pow_pos_nonneg; lia).
  set (t := 10 ^ 1074) in *.
  unfold ratio_of, scale10. change (0 <=? 1074) with true.
  change (0 <=? - 1074) with false. change (- - 1074) with 1074. fold t.
  destruct (Z.leb_spec 0 e) as [H0|H0]; cbn [fst snd].
  - rewrite Z.div_1_r.
    pose proof (Z.pow_pos_nonneg 2 e ltac:(lia) H0).
    apply (float_of_ratio_exact y m e); [exact E|nia|lia|].
    unfold is_value, P2, N2.
    rewrite (Z.max_l e 0), (Z.max_r (- e) 0) by lia. simpl (2 ^ 0). ring.
  - assert (S : 2 ^ 1074 = 2 ^ (1074 + e) * 2 ^ (- e)).
    { rewrite <- Z.pow_add_r by lia. f_equal. lia. }
    pose proof (Z.pow_pos_nonneg 2 (- e) ltac:(lia) ltac:(lia)) as Q.
    pose proof (Z.pow_pos_nonneg 2 (1074 + e) ltac:(lia) ltac:(lia)) as Q'.
    pose proof (Z.pow_pos_nonneg 5 1074 ltac:(lia) ltac:(lia)) as Q5.
    set (c := 2 ^ (1074 + e) * 5 ^ 1074).
    assert (C : t = c * 2 ^ (- e)) by (unfold c; rewrite T, S; ring).
    assert (D : Z.pos m * t / 2 ^ (- e) = Z.pos m * c).
    { rewrite C, Z.mul_assoc. apply Z.div_mul. lia. }
    rewrite D.
    apply (float_of_ratio_exact y m e); [exact E|unfold c; nia|lia|].
    unfold is_value, P2, N2.
    rewrite (Z.max_r e 0), (Z.max_l (- e) 0) by lia. simpl (2 ^ 0).
    rewrite C. ring.
Qed.

Lemma carry_range (q k n0 : Z) :
  1 <= k -> 10 ^ (k - 1) <= q < 10 ^ k ->
  exists s n, carry (q + 1) k n0 = (s, k, n) /\
              10 ^ (k - 1) <= s < 10 ^ k /\ n0 <= n <= n0 + 1.
Proof.
  intros Hk Hq. unfold carry.
  destruct (Z.eqb_spec (q + 1) (10 ^ k)) as [Hc|Hc].
  - exists (10 ^ (k - 1)), (n0 + 1). split; [reflexivity|].
    split; [|lia]. lia.
  - exists (q + 1), n0. split; [reflexivity|]. lia.
Qed.

(** The search returns digits that read as the double. *)
Lemma shortest_fuel_spec (y : float) (m : positive) (e n0 : Z) :
  Prim2SF y = S754_finite false m e ->
  below (ratio_of m e) n0 -> ~ below (ratio_of m e) (n0 - 1) ->
  forall (fuel : nat) (k : Z),
    1 <= k <= n0 + 1074 -> n0 + 1074 - k < Z.of_nat fuel ->
    exists s k' n,
      shortest_fuel fuel y (ratio_of m e) n0 k = (s, k', n) /\
      reads_as y (s, k', n) = true /\ 1 <= k' /\
      10 ^ (k' - 1) <= s < 10 ^ k' /\ n0 <= n <= n0 + 1.
Proof.
  intros E Hup Hlo.
  induction fuel as [|fuel IH]; intros k Hk Hf; [lia|].
  pose proof (exact_reads y m e n0 k E) as X.
  pose proof (ratio_of_pos m e) as [Pa Pb].
  destruct (ratio_of m e) as [a0 b0] eqn:R. cbn [fst snd] in Pa, Pb.
  cbn [shortest_fuel].
  pose proof (scaled_range a0 b0 n0 k Pa Pb Hlo Hup ltac:(lia)) as Rg.
  rewrite scale10_uniform in *. cbn [fst snd] in X.
  pose proof (P10_pos (k - n0)). pose proof (N10_pos (k - n0)).
  set (a := a0 * P10 (k - n0)) in *. set (b := b0 * N10 (k - n0)) in *.
  assert (Hq : 10 ^ (k - 1) <= a / b < 10 ^ k).
  { split.
    - apply Z.div_le_lower_bound; lia.
    - apply Z.div_lt_upper_bound; lia. }
  destruct (carry_range (a / b) k n0 ltac:(lia) Hq) as (s & n & Hc & Hs & Hn).
  destruct (reads_as y (a / b, k, n0)) eqn:Rl;
    destruct (reads_as y (carry (a / b + 1) k n0)) eqn:Rh.
  - destruct (2 * (a mod b) <? b);
      [|destruct (b <? 2 * (a mod b)); [|destruct (Z.even (a / b))]].
    + exists (a / b), k, n0. repeat split; try assumption; lia.
    + exists s, k, n. rewrite Hc in *. repeat split; try assumption; lia.
    + exists (a / b), k, n0. repeat split; try assumption; lia.
    + exists s, k, n. rewrite Hc in *. repeat split; try assumption; lia.
  - exists (a / b), k, n0. repeat split; try assumption; lia.
  - exists s, k, n. rewrite Hc in *. repeat split; try assumption; lia.
  - assert (k <> n0 + 1074).
    { intros Hk'. specialize (X ltac:(lia)). discriminate. }
    apply IH; lia.
Qed.

Lemma magnitude_fuel_range (r : ratio) (fuel : nat) (n : Z) :
  n <= magnitude_fuel fuel r n <= n + Z.of_nat fuel.
Proof.
  revert n. induction fuel as [|fuel IH]; intros n; [simpl; lia|].
  cbn [magnitude_fuel]. destruct (scale10 r (- n)) as [a b].
  destruct (a <? b); [lia|]. specialize (IH (n + 1)). lia.
Qed.

(** The digits of a finite double [y > 0]: they read as [y]. *)
Lemma shortest_spec (y : float) (m : positive) (e : Z) :
  Prim2SF y = S754_finite false m e ->
  exists s k n,
    shortest y m e = (s, k, n) /\ reads_as y (s, k, n) = true /\ 1 <= k /\
    10 ^ (k - 1) <= s < 10 ^ k /\ -323 <= n <= 318.
Proof.
  intros E. destruct (magnitude_spec y false m e E) as [Hup Hlo].
  pose proof (magnitude_fuel_range (ratio_of m e) 640 (-323)) as Hn.
  fold (magnitude (ratio_of m e)) in Hn.
  unfold shortest. cbv zeta.
  set (n0 := magnitude (ratio_of m e)) in *.
  destruct (shortest_fuel_spec y m e n0 E Hup Hlo 1400 1) as (s & k & n & H);
    [lia|lia|].
  exists s, k, n. repeat split; try apply H; lia.
Qed.

(** *** Reading a decimal text *)

(** An integer part has no superfluous leading zero. *)
Definition leading (i : string) : bool :=
  match i with
  | EmptyString => false
  | String c u => negb (Ascii.eqb c "0") || is_empty u
  end.

(** The first digit is not 0. *)
Definition nonzero_start (i : string) : bool :=
  match i with
  | EmptyString => false
  | String c _ => negb (Ascii.eqb c "0")
  end.

Lemma nonzero_start_leading (i : string) : nonzero_start i = true -> leading i = true.
Proof. destruct i as [|c u]; simpl; [auto|]. intros ->. reflexivity. Qed.

Lemma nonzero_start_app (i t : string) :
  nonzero_start i = true -> nonzero_start (i +:+ t) = true.
Proof. destruct i as [|c u]; [discriminate|]. rewrite app_cons. auto. Qed.

Lemma nonzero_start_take (k : nat) (i : string) :
  nonzero_start i = true -> nonzero_start (take (S k) i) = true.
Proof. destruct i as [|c u]; [discriminate|]. auto. Qed.

(** Nothing, or an exponent part. *)
Definition exponent_start (x : string) : bool :=
  match x with
  | EmptyString => true
  | String c _ => Ascii.eqb c "e"
  end.

(** Integer digits [i], fraction digits [f] if any, and what follows. *)
Definition decimal_text (i f x : string) : string :=
  i +:+ (if is_empty f then EmptyString else "." +:+ f) +:+ x.

Lemma integer_part_digits (i rest : string) :
  all_digits i = true -> leading i = true -> stops rest = true ->
  integer_part (i +:+ rest) = Some (spell i 0, rest).
Proof.
  intros Hi Hl Hr. destruct i as [|c u]; [discriminate|].
  cbn [leading] in Hl. rewrite app_cons.
  destruct (Ascii.eqb_spec c "0") as [->|Hc].
  - simpl in Hl. destruct u; [|discriminate]. reflexivity.
  - assert (Hdef : integer_part (String c (u +:+ rest)) =
                   let '(ip, ci, s1) := scan_digits (String c (u +:+ rest)) 0 0 in
                   if (ci =? 0)%nat then None else Some (ip, s1)).
    { unfold integer_part.
      destruct c as [[] [] [] [] [] [] [] []]; try reflexivity. congruence. }
    rewrite Hdef, <- app_cons, (scan_digits_all _ _ _ _ Hi), (scan_digits_stops _ _ _ Hr).
    reflexivity.
Qed.

Lemma exponent_start_stops (x : string) : exponent_start x = true -> stops x = true.
Proof.
  destruct x as [|c x]; [reflexivity|]. simpl. intros H.
  apply Ascii.eqb_eq in H. subst c. reflexivity.
Qed.

(** A decimal text is read as its digits, scaled by the exponent and the
    number of fraction digits. *)
Lemma unsigned_number_decimal (i f x : string) (E : Z) :
  all_digits i = true -> leading i = true -> all_digits f = true ->
  exponent_start x = true -> scan_exponent x = Some (E, EmptyString) ->
  unsigned_number (decimal_text i f x) =
  Some (decimal_to_float (spell f (spell i 0)) (E - Z.of_nat (String.length f)),
        EmptyString).
Proof.
  intros Hi Hl Hf Hx HE. unfold decimal_text, unsigned_number.
  pose proof (exponent_start_stops x Hx) as Sx.
  destruct f as [|c f]; cbn [is_empty].
  - rewrite app_nil_l, (integer_part_digits i x Hi Hl Sx). cbn [mbind option_bind].
    assert (F : fraction_part (spell i 0) x = Some (spell i 0, O, x)).
    { destruct x as [|d x]; [reflexivity|]. simpl in Hx.
      apply Ascii.eqb_eq in Hx. subst d. reflexivity. }
    rewrite F. cbn [mbind option_bind]. rewrite HE. reflexivity.
  - rewrite (integer_part_digits i _ Hi Hl) by reflexivity. cbn [mbind option_bind].
    rewrite app_cons, app_nil_l, app_cons. cbn [fraction_part].
    rewrite (scan_digits_all _ _ _ _ Hf), (scan_digits_stops _ _ _ Sx).
    cbn [Nat.add String.length Nat.eqb mbind option_bind]. rewrite HE. reflexivity.
Qed.

Lemma scan_exponent_none : scan_exponent EmptyString = Some (0, EmptyString).
Proof. reflexivity. Qed.

Lemma scan_exponent_suffix (e : Z) :
  scan_exponent (exponent_suffix e) = Some (e, EmptyString).
Proof.
  unfold exponent_suffix.
  destruct (digits_spec (Z.abs e) ltac:(lia)) as (Hall & Hsp & Hlen & _).
  destruct (Z.leb_spec 0 e) as [He|He]; rewrite !app_cons, !app_nil_l;
    cbn [scan_exponent Ascii.eqb Bool.eqb orb];
    rewrite <- (app_nil_r (digits (Z.abs e))), (scan_digits_all _ _ _ _ Hall);
    cbn [scan_digits Nat.add]; rewrite Hsp;
    (destruct (String.length (digits (Z.abs e))) as [|l]; [lia|]);
    cbn [Nat.eqb]; f_equal; f_equal; lia.
Qed.

Lemma decimal_to_float_ratio (m e : Z) :
  0 < m -> -400 <= Z.of_nat (String.length (digits m)) + e <= 400 ->
  decimal_to_float m e = float_of_ratio (scale10 (m, 1) e).
Proof.
  intros Hm Hl. unfold decimal_to_float.
  destruct (Z.eqb_spec m 0); [lia|].
  destruct (Z.ltb_spec 400 (Z.of_nat (String.length (digits m)) + e)); [lia|].
  destruct (Z.ltb_spec (Z.of_nat (String.length (digits m)) + e) (-400)); [lia|].
  reflexivity.
Qed.

(** The digits of a [k]-digit number. *)
Lemma digits_of_length (s k : Z) :
  1 <= k -> 10 ^ (k - 1) <= s < 10 ^ k ->
  all_digits (digits s) = true /\ spell (digits s) 0 = s /\
  String.length (digits s) = Z.to_nat k /\ nonzero_start (digits s) = true.
Proof.
  intros Hk Hs.
  assert (Hpos : 0 < s).
  { pose proof (Z.pow_pos_nonneg 10 (k - 1) ltac:(lia) ltac:(lia)). lia. }
  destruct (digits_spec s ltac:(lia)) as (Hall & Hsp & _ & _).
  assert (Hlen : String.length (digits s) = Z.to_nat k).
  { replace (Z.to_nat k) with (S (Z.to_nat (k - 1))) by lia.
    apply digits_length. rewrite Nat2Z.inj_succ, Z2Nat.id by lia.
    replace (Z.succ (k - 1)) with k by lia. exact Hs. }
  repeat split; try assumption.
  destruct (digits s) as [|c u] eqn:D; [simpl in Hlen; lia|].
  cbn [nonzero_start]. destruct (Ascii.eqb_spec c "0") as [->|Hc]; [|reflexivity].
  exfalso. cbn [all_digits] in Hall. apply andb_prop in Hall as [_ Hu].
  pose proof (spell_bound u Hu) as B.
  cbn [spell] in Hsp. change (10 * 0 + digit_val "0") with 0 in Hsp.
  simpl in Hlen.
  replace (Z.of_nat (String.length u)) with (k - 1) in B by lia. lia.
Qed.

Lemma decimal_text_plain (i x : string) : decimal_text i EmptyString x = i +:+ x.
Proof. unfold decimal_text. cbn [is_empty]. now rewrite app_nil_l. Qed.

Lemma decimal_text_point (i f x : string) :
  is_empty f = false -> decimal_text i f x = i +:+ "." +:+ f +:+ x.
Proof.
  unfold decimal_text. intros ->.
  repeat (rewrite app_cons || rewrite app_nil_l). reflexivity.
Qed.

Lemma nonempty_length (f : string) : (1 <= String.length f)%nat -> is_empty f = false.
Proof. destruct f; simpl; [lia|reflexivity]. Qed.

Lemma exponent_suffix_start (e : Z) : exponent_start (exponent_suffix e) = true.
Proof. unfold exponent_suffix. rewrite app_cons. reflexivity. Qed.

(** The digits [s] with the exponent [n - k], as the reader rounds them. *)
Lemma decimal_to_float_digits (M E s k n : Z) :
  M = s -> E = n - k -> 1 <= k -> 10 ^ (k - 1) <= s < 10 ^ k -> -323 <= n <= 318 ->
  decimal_to_float M E = float_of_ratio (scale10 (s, 1) (n - k)).
Proof.
  intros -> -> Hk Hs Hn.
  destruct (digits_of_length s k Hk Hs) as (_ & _ & Hlen & _).
  assert (Hpos : 0 < s).
  { pose proof (Z.pow_pos_nonneg 10 (k - 1) ltac:(lia) ltac:(lia)). lia. }
  apply decimal_to_float_ratio; [exact Hpos|]. rewrite Hlen. lia.
Qed.

(** The exponential layouts. *)
Lemma unsigned_number_exponent (s k n : Z) :
  1 <= k -> 10 ^ (k - 1) <= s < 10 ^ k -> -323 <= n <= 318 ->
  unsigned_number
    (if k =? 1 then digits s +:+ exponent_suffix (n - 1)
     else take 1 (digits s) +:+ "." +:+ drop 1 (digits s) +:+ exponent_suffix (n - 1)) =
  Some (float_of_ratio (scale10 (s, 1) (n - k)), EmptyString).
Proof.
  intros Hk Hs Hn.
  destruct (digits_of_length s k Hk Hs) as (Hall & Hsp & Hlen & Hnz).
  set (ds := digits s) in *.
  pose proof (exponent_suffix_start (n - 1)) as Xs.
  pose proof (scan_exponent_suffix (n - 1)) as Xe.
  destruct (Z.eqb_spec k 1) as [->|Hk1].
  - rewrite <- (decimal_text_plain ds).
    rewrite (unsigned_number_decimal _ _ _ (n - 1)); try reflexivity; try assumption.
    + f_equal. f_equal. apply decimal_to_float_digits; try assumption; try lia.
      cbn [String.length]. lia.
    + now apply nonzero_start_leading.
  - destruct (all_digits_take_drop 1 ds Hall) as [Ta Da].
    pose proof (drop_length 1 ds) as Dl.
    rewrite <- decimal_text_point by (apply nonempty_length; lia).
    rewrite (unsigned_number_decimal _ _ _ (n - 1)); try reflexivity; try assumption.
    + f_equal. f_equal. apply decimal_to_float_digits; try assumption; try lia.
      rewrite <- spell_app, take_drop. exact Hsp.
    + apply nonzero_start_leading, nonzero_start_take, Hnz.
Qed.

(** What [Number::toString] prints for digits [(s, k, n)] is read as the
    double nearest to [s * 10^(n-k)]. *)
Lemma unsigned_number_format (s k n : Z) :
  1 <= k -> 10 ^ (k - 1) <= s < 10 ^ k -> -323 <= n <= 318 ->
  unsigned_number (format_shortest (s, k, n)) =
  Some (float_of_ratio (scale10 (s, 1) (n - k)), EmptyString).
Proof.
  intros Hk Hs Hn.
  destruct (digits_of_length s k Hk Hs) as (Hall & Hsp & Hlen & Hnz).
  pose proof (unsigned_number_exponent s k n Hk Hs Hn) as Hexp.
  unfold format_shortest. set (ds := digits s) in *.
  destruct ((k <=? n) && (n <=? 21)) eqn:CA;
    [|destruct ((0 <? n) && (n <=? 21)) eqn:CB;
      [|destruct ((-6 <? n) && (n <=? 0)) eqn:CC; [|exact Hexp]]];
    clear Hexp;
    rewrite ?andb_true_iff, ?andb_false_iff, ?Z.leb_le, ?Z.leb_gt, ?Z.ltb_lt,
      ?Z.ltb_ge in *.
  - (* an integer *)
    destruct (zeros_spec (Z.to_nat (n - k)) s) as (Zall & Zlen & Zsp).
    rewrite <- (app_nil_r (ds +:+ zeros (Z.to_nat (n - k)))).
    rewrite <- (decimal_text_plain (ds +:+ zeros (Z.to_nat (n - k))) EmptyString).
    rewrite (unsigned_number_decimal _ _ _ 0); try reflexivity.
    + f_equal. f_equal. cbn [spell String.length].
      rewrite spell_app, Hsp, Zsp, Z2Nat.id by lia.
      assert (P : 10 ^ (n - 1) = 10 ^ (k - 1) * 10 ^ (n - k)).
      { rewrite <- Z.pow_add_r by lia. f_equal. lia. }
      assert (P' : 10 ^ n = 10 ^ k * 10 ^ (n - k)).
      { rewrite <- Z.pow_add_r by lia. f_equal. lia. }
      pose proof (Z.pow_pos_nonneg 10 (n - k) ltac:(lia) ltac:(lia)) as Q.
      rewrite (decimal_to_float_digits _ _ (s * 10 ^ (n - k)) n n); try lia;
        [|rewrite P, P'; nia].
      f_equal. unfold scale10. replace (n - n) with 0 by lia.
      destruct (Z.leb_spec 0 (n - k)); [|lia]. cbn [Z.leb].
      f_equal. change (10 ^ 0) with 1. lia.
    + rewrite all_digits_app, Hall, Zall. reflexivity.
    + apply nonzero_start_leading, nonzero_start_app, Hnz.
  - (* a point within the digits *)
    destruct (all_digits_take_drop (Z.to_nat n) ds Hall) as [Ta Da].
    pose proof (drop_length (Z.to_nat n) ds) as Dl.
    rewrite <- (app_nil_r (drop (Z.to_nat n) ds)), <- decimal_text_point
      by (apply nonempty_length; lia).
    rewrite (unsigned_number_decimal _ _ _ 0); try reflexivity; try assumption.
    + f_equal. f_equal. apply decimal_to_float_digits; try assumption; try lia.
      rewrite <- spell_app, take_drop. exact Hsp.
    + apply nonzero_start_leading.
      replace (Z.to_nat n) with (S (Z.to_nat (n - 1))) by lia.
      apply nonzero_start_take, Hnz.
  - (* zeros after the point, then the digits *)
    destruct (zeros_spec (Z.to_nat (- n)) 0) as (Zall & Zlen & Zsp).
    change ("0." +:+ zeros (Z.to_nat (- n)) +:+ ds)
      with ("0" +:+ "." +:+ (zeros (Z.to_nat (- n)) +:+ ds)).
    rewrite <- (app_nil_r (zeros (Z.to_nat (- n)) +:+ ds)), <- decimal_text_point.
    2:{ apply nonempty_length. rewrite app_length. lia. }
    rewrite (unsigned_number_decimal _ _ _ 0); try reflexivity.
    + f_equal. f_equal. apply decimal_to_float_digits; try assumption; try lia.
      * change (spell "0" 0) with 0. rewrite spell_app, Zsp. exact Hsp.
      * rewrite app_length, Zlen, Hlen. lia.
    + rewrite all_digits_app, Hall, Zall. reflexivity.
Qed.

Lemma unsigned_number_first (t : string) (x : float) (r : string) :
  unsigned_number t = Some (x, r) -> exists c u, t = String c u /\ is_digit c = true.
Proof.
  destruct t as [|c u]; [discriminate|]. intros H. exists c, u. split; [reflexivity|].
  destruct (is_digit c) eqn:Hd; [reflexivity|].
  unfold unsigned_number, integer_part in H.
  destruct c as [[] [] [] [] [] [] [] []]; try discriminate Hd; cbn in H; discriminate H.
Qed.

Lemma parse_number_digit (c : ascii) (u : string) :
  is_digit c = true -> parse_number (String c u) = unsigned_number (String c u).
Proof.
  intros Hd. unfold parse_number.
  destruct c as [[] [] [] [] [] [] [] []]; try reflexivity; discriminate Hd.
Qed.

(** What [Number::toString] prints for a finite double is read by the
    JSON number grammar as that double; both zeros print as "0", which
    is read as [+0]. *)
Lemma number_reads_back (x : float) :
  json_number x = true ->
  parse_number (toString x) = Some (if is_zero x then zero else x, EmptyString).
Proof.
  unfold json_number, toString. rewrite FloatFacts.is_zero_spec. intros J.
  destruct (Prim2SF x) as [z| | |sg m e] eqn:E; try discriminate J.
  - reflexivity.
  - assert (Ey : Prim2SF (abs x) = S754_finite false m e).
    { rewrite abs_spec, E. reflexivity. }
    destruct (shortest_spec (abs x) m e Ey) as (s & k & n & Hsh & Hr & Hk & Hs & Hn).
    rewrite Hsh.
    pose proof (unsigned_number_format s k n Hk Hs Hn) as U.
    unfold reads_as in Hr. apply Leibniz.eqb_spec in Hr. rewrite Hr in U.
    destruct (unsigned_number_first _ _ _ U) as (c & u & Hf & Hc).
    destruct sg.
    + rewrite app_cons, app_nil_l. cbn [parse_number]. rewrite U.
      cbn [mbind option_bind]. f_equal. f_equal.
      apply Prim2SF_inj. rewrite opp_spec, Ey, E. reflexivity.
    + rewrite app_nil_l, Hf, (parse_number_digit c u Hc), <- Hf, U.
      f_equal. f_equal. apply Prim2SF_inj. rewrite Ey, E. reflexivity.
Qed.

End NumberProofs.

(** ** JSON text read back *)

Module JsonProofs.
Import Text JS JSON Host App Spec StringFacts DigitFacts NumberProofs.

#[local] Ltac flatten_app := repeat (rewrite app_cons || rewrite app_nil_l).

(** Induction on values, through the lists of arrays and objects. *)
Lemma value_nested_ind (P : value -> Prop) :
  P Undefined -> P Null -> (forall b, P (Bool b)) -> (forall x, P (Num x)) ->
  (forall s, P (Str s)) ->
  (forall items, Forall P items -> P (Arr items)) ->
  (forall fields, Forall (fun kv => P kv.2) fields -> P (Obj fields)) ->
  forall v, P v.
Proof.
  intros HU HN HB HNum HS HA HO.
  fix IH 1. intros [ | |b|x|s|items|fields].
  - exact HU.
  - exact HN.
  - apply HB.
  - apply HNum.
  - apply HS.
  - apply HA. induction items as [|v items IHitems]; constructor.
    + apply IH.
    + exact IHitems.
  - apply HO. induction fields as [|[k v] fields IHfields]; constructor.
    + apply IH.
    + exact IHfields.
Qed.

(** *** Strings *)

(** Reading one escaped character back. *)
Lemma parse_string_escape_char (c : ascii) (t s rest : string) :
  parse_string t = Some (s, rest) ->
  parse_string (escape_char c +:+ t) = Some (String c s, rest).
Proof.
  intros IH.
  destruct c as [[] [] [] [] [] [] [] []];
    cbv -[parse_string String.append]; flatten_app; cbn; rewrite IH; reflexivity.
Qed.

Lemma parse_string_escape (s rest : string) :
  parse_string (escape s +:+ dq +:+ rest) = Some (s, rest).
Proof.
  induction s as [|c s IH].
  - reflexivity.
  - cbn [escape]. rewrite app_assoc. now apply parse_string_escape_char.
Qed.

(** *** Numbers *)

(** What may follow a value in JSON text that has no white space: the end,
    a comma, or a closing bracket or brace. *)
Definition delimiter (rest : string) : bool :=
  match rest with
  | EmptyString => true
  | String c _ => Ascii.eqb c "," || Ascii.eqb c "]" || Ascii.eqb c "}"
  end.

Lemma delimiter_stops (rest : string) : delimiter rest = true -> stops rest = true.
Proof.
  destruct rest as [|c rest]; [reflexivity|]. simpl. intros H.
  repeat (apply orb_prop in H as [H|H]);
    apply Ascii.eqb_eq in H; subst; reflexivity.
Qed.

(** Scanning digits in front of more text. *)
Lemma scan_digits_app (s rest : string) (acc : Z) (cnt : nat) v c r :
  scan_digits s acc cnt = (v, c, r) ->
  (r <> EmptyString \/ stops rest = true) ->
  scan_digits (s +:+ rest) acc cnt = (v, c, r +:+ rest).
Proof.
  revert acc cnt. induction s as [|a s IH]; intros acc cnt H Hr.
  - simpl in H. injection H as <- <- <-. rewrite app_nil_l.
    destruct Hr as [Hr|Hr]; [congruence|]. now apply scan_digits_stops.
  - rewrite app_cons. simpl in *. destruct (is_digit a).
    + now apply IH.
    + injection H as <- <- <-. now rewrite app_cons.
Qed.

Lemma integer_part_app (s rest : string) ip r :
  integer_part s = Some (ip, r) -> delimiter rest = true ->
  integer_part (s +:+ rest) = Some (ip, r +:+ rest).
Proof.
  intros H Hd. pose proof (delimiter_stops rest Hd) as Hs.
  unfold integer_part in *.
  destruct s as [|c s].
  - simpl in H. discriminate H.
  - rewrite app_cons.
    destruct (Ascii.eqb_spec c "0") as [->|Hc].
    + injection H as <- <-. reflexivity.
    + assert (Hscan : forall u, match String c u with
                      | String "0" t => Some (0, t)
                      | _ => let '(ip, ci, s1) := scan_digits (String c u) 0 0 in
                             if (ci =? 0)%nat then None else Some (ip, s1)
                      end = let '(ip, ci, s1) := scan_digits (String c u) 0 0 in
                             if (ci =? 0)%nat then None else Some (ip, s1)).
      { intros u. destruct c as [[] [] [] [] [] [] [] []]; try reflexivity. congruence. }
      rewrite Hscan in *.
      destruct (scan_digits (String c s) 0 0) as [[ip' ci] s1] eqn:E.
      rewrite <- app_cons.
      destruct (ci =? 0)%nat eqn:Eci; [discriminate H|]. injection H as <- <-.
      rewrite (scan_digits_app _ rest _ _ _ _ _ E), Eci; [reflexivity|].
      right. exact Hs.
Qed.

Lemma fraction_part_app (ip : Z) (s rest : string) m c r :
  fraction_part ip s = Some (m, c, r) -> delimiter rest = true ->
  fraction_part ip (s +:+ rest) = Some (m, c, r +:+ rest).
Proof.
  intros H Hd. pose proof (delimiter_stops rest Hd) as Hs.
  unfold fraction_part in *.
  destruct s as [|a s].
  - injection H as <- <- <-. rewrite app_nil_l.
    destruct rest as [|b rest]; [reflexivity|].
    destruct (Ascii.eqb_spec b ".") as [->|Hb]; [discriminate Hd|].
    destruct b as [[] [] [] [] [] [] [] []]; try reflexivity. congruence.
  - rewrite app_cons.
    destruct (Ascii.eqb_spec a ".") as [->|Ha].
    + destruct (scan_digits s ip 0) as [[m' c'] r'] eqn:E.
      destruct (c' =? 0)%nat eqn:Ec; [discriminate H|]. injection H as <- <- <-.
      rewrite (scan_digits_app _ rest _ _ _ _ _ E), Ec; [reflexivity|].
      right. exact Hs.
    + assert (Hdef : forall u, match String a u with
                     | String "." t =>
                         let '(m, c, r) := scan_digits t ip 0 in
                         if (c =? 0)%nat then None else Some (m, c, r)
                     | _ => Some (ip, O, String a u)
                     end = Some (ip, O, String a u)).
      { intros u. destruct a as [[] [] [] [] [] [] [] []]; try reflexivity. congruence. }
      rewrite Hdef in *. injection H as <- <- <-. now rewrite app_cons.
Qed.

Lemma scan_exponent_app (s rest : string) e r :
  scan_exponent s = Some (e, r) -> delimiter rest = true ->
  scan_exponent (s +:+ rest) = Some (e, r +:+ rest).
Proof.
  intros H Hd. pose proof (delimiter_stops rest Hd) as Hs.
  unfold scan_exponent in *.
  destruct s as [|a s].
  - injection H as <- <-. rewrite app_nil_l.
    destruct rest as [|b rest]; [reflexivity|].
    simpl in Hd.
    destruct (Ascii.eqb_spec b "e") as [->|Hb]; [discriminate Hd|].
    destruct (Ascii.eqb_spec b "E") as [->|Hb']; [discriminate Hd|]. reflexivity.
  - rewrite app_cons.
    destruct (Ascii.eqb a "e" || Ascii.eqb a "E").
    + assert (Hsign : forall u,
                (let '(neg, s2) := match u with
                                   | String "-" t => (true, t)
                                   | String "+" t => (false, t)
                                   | _ => (false, u)
                                   end in (neg, s2)) =
                match u with
                | String "-" t => (true, t)
                | String "+" t => (false, t)
                | _ => (false, u)
                end).
      { intros u. destruct u as [|[[] [] [] [] [] [] [] []] u]; reflexivity. }
      destruct s as [|b s].
      * simpl in H. discriminate H.
      * rewrite app_cons.
        destruct (Ascii.eqb_spec b "-") as [->|Hm].
        { destruct (scan_digits s 0 0) as [[v cnt] r'] eqn:E.
          destruct (cnt =? 0)%nat eqn:Ec; [discriminate H|]. injection H as <- <-.
          rewrite (scan_digits_app _ rest _ _ _ _ _ E), Ec; [reflexivity|].
          right. exact Hs. }
        destruct (Ascii.eqb_spec b "+") as [->|Hp].
        { destruct (scan_digits s 0 0) as [[v cnt] r'] eqn:E.
          destruct (cnt =? 0)%nat eqn:Ec; [discriminate H|]. injection H as <- <-.
          rewrite (scan_digits_app _ rest _ _ _ _ _ E), Ec; [reflexivity|].
          right. exact Hs. }
        assert (Hdef : forall u, match String b u with
                       | String "-" t => (true, t)
                       | String "+" t => (false, t)
                       | _ => (false, String b u)
                       end = (false, String b u)).
        { intros u. destruct b as [[] [] [] [] [] [] [] []]; try reflexivity; congruence. }
        rewrite Hdef in *.
        destruct (scan_digits (String b s) 0 0) as [[v cnt] r'] eqn:E.
        destruct (cnt =? 0)%nat eqn:Ec; [discriminate H|]. injection H as <- <-.
        rewrite <- app_cons.
        rewrite (scan_digits_app _ rest _ _ _ _ _ E), Ec; [reflexivity|].
        right. exact Hs.
    + injection H as <- <-. now rewrite app_cons.
Qed.

Lemma unsigned_number_app (s rest : string) x r :
  unsigned_number s = Some (x, r) -> delimiter rest = true ->
  unsigned_number (s +:+ rest) = Some (x, r +:+ rest).
Proof.
  intros H Hd. unfold unsigned_number in *.
  destruct (integer_part s) as [[ip s1]|] eqn:E1; [|discriminate H].
  rewrite (integer_part_app _ rest _ _ E1 Hd). cbn [mbind option_bind] in *.
  destruct (fraction_part ip s1) as [[[m cf] s2]|] eqn:E2; [|discriminate H].
  rewrite (fraction_part_app _ _ rest _ _ _ E2 Hd). cbn [mbind option_bind] in *.
  destruct (scan_exponent s2) as [[e r']|] eqn:E3; [|discriminate H].
  rewrite (scan_exponent_app _ rest _ _ E3 Hd). cbn [mbind option_bind] in *.
  injection H as <- <-. reflexivity.
Qed.

(** A number read from a text is read from the text followed by a
    delimiter. *)
Lemma parse_number_app (s rest : string) x r :
  parse_number s = Some (x, r) -> delimiter rest = true ->
  parse_number (s +:+ rest) = Some (x, r +:+ rest).
Proof.
  intros H Hd. unfold parse_number in *.
  destruct s as [|c s].
  - discriminate H.
  - rewrite app_cons.
    destruct (Ascii.eqb_spec c "-") as [->|Hc].
    + destruct (unsigned_number s) as [[y r']|] eqn:E; [|discriminate H].
      rewrite (unsigned_number_app _ rest _ _ E Hd). cbn [mbind option_bind] in *.
      injection H as <- <-. reflexivity.
    + assert (Hdef : forall u, match String c u with
                     | String "-" t => '(x, rest) ← unsigned_number t; Some ((- x)%float, rest)
                     | _ => unsigned_number (String c u)
                     end = unsigned_number (String c u)).
      { intros u. destruct c as [[] [] [] [] [] [] [] []]; try reflexivity. congruence. }
      rewrite Hdef in *. rewrite <- app_cons.
      now apply unsigned_number_app.
Qed.

Lemma parse_number_first (s : string) x r :
  parse_number s = Some (x, r) ->
  exists c u, s = String c u /\ (c = "-"%char \/ is_digit c = true).
Proof.
  destruct s as [|c u]; [discriminate|]. intros H. exists c, u. split; [reflexivity|].
  destruct (Ascii.eqb_spec c "-") as [->|Hc]; [now left|]. right.
  unfold parse_number in H.
  assert (Hdef : match String c u with
                 | String "-" t => '(x, rest) ← unsigned_number t; Some ((- x)%float, rest)
                 | _ => unsigned_number (String c u)
                 end = unsigned_number (String c u)).
  { destruct c as [[] [] [] [] [] [] [] []]; try reflexivity. congruence. }
  rewrite Hdef in H. unfold unsigned_number, integer_part in H.
  destruct (is_digit c) eqn:Hd; [reflexivity|].
  destruct c as [[] [] [] [] [] [] [] []]; try discriminate Hd; cbn in H; discriminate H.
Qed.

(** *** The text of a value *)

(** What [JSON.stringify] prints for [v]. *)
Definition text (v : value) : string := default EmptyString (serialize v).

Definition member_text (kv : string * value) : string :=
  quote kv.1 +:+ ":" +:+ text kv.2.

Lemma serialize_text (v : value) :
  json_value v = true -> serialize v = Some (text v).
Proof.
  unfold text. destruct v; try discriminate; try reflexivity.
  intros _. cbn [serialize]. destruct (Prim2SF x) as [| | |]; reflexivity.
Qed.

Lemma text_Arr (items : list value) :
  forallb json_value items = true ->
  text (Arr items) = "[" +:+ join "," (map text items) +:+ "]".
Proof.
  intros H.
  assert (E : map (fun v => default "null" (serialize v)) items = map text items).
  { induction items as [|v items IH]; [reflexivity|].
    cbn [forallb] in H. apply andb_prop in H as [Hv Hitems].
    cbn [map]. rewrite (IH Hitems), (serialize_text v Hv). reflexivity. }
  unfold text at 1. cbn [serialize]. rewrite E. reflexivity.
Qed.

Lemma omap_cons {A B} (f : A -> option B) (x : A) (l : list A) :
  omap f (x :: l) = match f x with
                    | Some y => y :: omap f l
                    | None => omap f l
                    end.
Proof. reflexivity. Qed.

Lemma text_Obj (fields : list (string * value)) :
  forallb (fun kv => json_value kv.2) fields = true ->
  text (Obj fields) = "{" +:+ join "," (map member_text fields) +:+ "}".
Proof.
  intros H.
  assert (E : omap (fun kv : string * value =>
                      s ← serialize kv.2; Some (quote kv.1 +:+ ":" +:+ s)) fields
              = map member_text fields).
  { induction fields as [|[k v] fields IH]; [reflexivity|].
    cbn [forallb] in H. apply andb_prop in H as [Hv Hfields].
    rewrite omap_cons, (IH Hfields). simpl in Hv.
    cbn [snd fst]. rewrite (serialize_text v Hv). reflexivity. }
  unfold text at 1. cbn [serialize]. rewrite E. reflexivity.
Qed.

(** The first character of the text of a value. *)
Definition value_start (c : ascii) : bool :=
  is_digit c || Ascii.eqb c "-" || Ascii.eqb c "n" || Ascii.eqb c "t" || Ascii.eqb c "f"
  || Ascii.eqb c "[" || Ascii.eqb c "{" || (nat_of_ascii c =? 34)%nat.

Lemma skip_ws_start (c : ascii) (u : string) :
  value_start c = true -> skip_ws (String c u) = String c u.
Proof.
  intros H. destruct c as [[] [] [] [] [] [] [] []]; try discriminate H; reflexivity.
Qed.

Lemma not_closing {T : Type} (c : ascii) (u : string) (A A' : string -> T) (B : T) :
  value_start c = true ->
  match String c u with
  | String "]" r => A r
  | String "}" r => A' r
  | _ => B
  end = B.
Proof.
  intros H. destruct c as [[] [] [] [] [] [] [] []]; try discriminate H; reflexivity.
Qed.

Lemma not_bracket {T : Type} (c : ascii) (u : string) (A : string -> T) (B : T) :
  value_start c = true ->
  match String c u with
  | String "]" r => A r
  | _ => B
  end = B.
Proof.
  intros H. destruct c as [[] [] [] [] [] [] [] []]; try discriminate H; reflexivity.
Qed.

Lemma not_brace {T : Type} (c : ascii) (u : string) (A : string -> T) (B : T) :
  value_start c = true ->
  match String c u with
  | String "}" r => A r
  | _ => B
  end = B.
Proof.
  intros H. destruct c as [[] [] [] [] [] [] [] []]; try discriminate H; reflexivity.
Qed.

Lemma parse_value_number (fuel : nat) (t : string) x r :
  parse_number t = Some (x, r) -> parse_value (S fuel) t = Some (Num x, r).
Proof.
  intros H. destruct (parse_number_first t x r H) as (c & u & -> & Hc).
  assert (Hstart : value_start c = true).
  { unfold value_start. destruct Hc as [-> | ->]; reflexivity. }
  cbn [parse_value]. rewrite (skip_ws_start c u Hstart).
  destruct c as [[] [] [] [] [] [] [] []]; try discriminate Hstart;
    try (destruct Hc as [Hc|Hc]; discriminate Hc);
    cbv beta iota; cbn [Ascii.eqb Bool.eqb nat_of_ascii]; rewrite H; reflexivity.
Qed.

(** *** Lists *)

Lemma join_two (sep a b : string) (l : list string) :
  join sep (a :: b :: l) = a +:+ sep +:+ join sep (b :: l).
Proof. reflexivity. Qed.

Lemma join_length_In (sep t : string) (texts : list string) :
  In t texts -> (String.length t <= String.length (join sep texts))%nat.
Proof.
  induction texts as [|a [|b l] IH]; intros Hin.
  - destruct Hin.
  - destruct Hin as [->|[]]. simpl. lia.
  - rewrite join_two, !app_length.
    destruct Hin as [->|Hin]; [lia|]. specialize (IH Hin). lia.
Qed.

Lemma join_length_count (sep : string) (texts : list string) :
  Forall (fun t => (1 <= String.length t)%nat) texts ->
  (length texts <= String.length (join sep texts))%nat.
Proof.
  induction texts as [|a [|b l] IH]; intros H.
  - simpl. lia.
  - inversion H; subst. simpl. lia.
  - inversion H as [|? ? Ha Hl]; subst. specialize (IH Hl).
    rewrite join_two, !app_length. cbn [length] in *. lia.
Qed.

(** A property that comes after those defined so far is added at the
    end. *)
Lemma define_property_last (k : string) (v : value) (acc : list (string * value)) :
  forallb (fun k' => negb (String.eqb k' k) && negb (precedes k k')) (map fst acc) = true ->
  define_property k v acc = acc ++ [(k, v)].
Proof.
  induction acc as [|[k' v'] acc IH]; intros H; [reflexivity|].
  cbn [map fst forallb] in H. apply andb_prop in H as [H1 H2].
  apply andb_prop in H1 as [Hne Hpre].
  apply negb_true_iff in Hne, Hpre.
  cbn [define_property]. rewrite Hne, Hpre, (IH H2). reflexivity.
Qed.

(** *** What is read back *)

(** The value that the text of [v] is read as: [v], with [+0] for [-0]. *)
Fixpoint read (v : value) : value :=
  match v with
  | Num x => Num (if is_zero x then zero else x)
  | Arr items => Arr (map read items)
  | Obj fields => Obj (map (fun kv => (kv.1, read kv.2)) fields)
  | _ => v
  end.

Lemma text_Num (x : float) : json_number x = true -> text (Num x) = JSNumber.toString x.
Proof.
  unfold json_number, text. cbn [serialize].
  destruct (Prim2SF x) as [z| | |]; try discriminate; reflexivity.
Qed.

Lemma text_start (v : value) :
  json_value v = true -> exists c u, text v = String c u /\ value_start c = true.
Proof.
  destruct v as [ | |b|x|s|items|fields]; intros H; try discriminate H.
  - eexists _, _. split; reflexivity.
  - destruct b; eexists _, _; split; reflexivity.
  - simpl in H. rewrite (text_Num x H).
    destruct (parse_number_first _ _ _ (number_reads_back x H)) as (c & u & -> & Hc).
    exists c, u. split; [reflexivity|].
    unfold value_start. destruct Hc as [-> | ->]; reflexivity.
  - eexists _, _. split; reflexivity.
  - eexists _, _. split; reflexivity.
  - eexists _, _. split; reflexivity.
Qed.

(** What the induction gives for the items of a list: each is read back
    by the parser [pv] before any delimiter. *)
Definition read_back (pv : string -> option (value * string)) (v : value) : Prop :=
  json_value v = true /\
  forall rest, delimiter rest = true -> pv (text v +:+ rest) = Some (read v, rest).

Lemma lit_app (c : ascii) (u : string) : String c EmptyString +:+ u = String c u.
Proof. reflexivity. Qed.

Lemma skip_ws_lit (c : ascii) (u : string) :
  is_ws c = false -> skip_ws (String c u) = String c u.
Proof. intros H. cbn [skip_ws]. now rewrite H. Qed.

Lemma elements_text (pv : string -> option (value * string))
    (items : list value) (rest : string) :
  Forall (read_back pv) items -> items <> [] ->
  forall fuel acc, (length items <= fuel)%nat ->
    parse_elements pv fuel (join "," (map text items) +:+ "]" +:+ rest) acc
    = Some (Arr (rev acc ++ map read items), rest).
Proof.
  induction items as [|v [|v2 items] IH]; intros Hall Hne fuel acc Hfuel.
  - congruence.
  - inversion Hall as [|? ? [Hv Hread] _]; subst.
    destruct fuel as [|fuel]; [simpl in Hfuel; lia|].
    cbn [map join parse_elements].
    rewrite (Hread ("]" +:+ rest)) by reflexivity.
    cbn [mbind option_bind]. rewrite lit_app, skip_ws_lit by reflexivity.
    reflexivity.
  - inversion Hall as [|? ? [Hv Hread] Hrest]; subst.
    destruct fuel as [|fuel]; [simpl in Hfuel; lia|].
    cbn [map]. rewrite join_two, !app_assoc. cbn [parse_elements].
    rewrite Hread by reflexivity.
    cbn [mbind option_bind]. rewrite lit_app, skip_ws_lit by reflexivity.
    cbv iota.
    change (text v2 :: map text items) with (map text (v2 :: items)).
    rewrite (IH Hrest ltac:(discriminate) fuel (read v :: acc)) by (simpl in *; lia).
    cbn [rev]. rewrite <- List.app_assoc. reflexivity.
Qed.

Lemma members_text (pv : string -> option (value * string))
    (fields : list (string * value)) (rest : string) :
  Forall (fun kv => read_back pv kv.2) fields -> fields <> [] ->
  forall fuel acc, (length fields <= fuel)%nat ->
    in_property_order (map fst acc) (map fst fields) = true ->
    parse_members pv fuel (join "," (map member_text fields) +:+ "}" +:+ rest) acc
    = Some (Obj (acc ++ map (fun kv => (kv.1, read kv.2)) fields), rest).
Proof.
  assert (Hmember : forall k v u,
            skip_ws (member_text (k, v) +:+ u)
            = String (ascii_of_nat 34) (escape k +:+ dq +:+ ":" +:+ text v +:+ u)).
  { intros k v u. unfold member_text, quote, dq. cbn [fst snd].
    rewrite !app_assoc, lit_app, skip_ws_lit by reflexivity. reflexivity. }
  induction fields as [|[k v] [|kv2 fields] IH]; intros Hall Hne fuel acc Hfuel Hord.
  - congruence.
  - inversion Hall as [|? ? [Hv Hread] _]; subst. cbn [snd] in *.
    destruct fuel as [|fuel]; [simpl in Hfuel; lia|].
    cbn [map join parse_members]. rewrite Hmember.
    cbv iota. change (nat_of_ascii (ascii_of_nat 34) =? 34)%nat with true. cbv iota.
    rewrite parse_string_escape. cbn [mbind option_bind].
    rewrite lit_app, skip_ws_lit by reflexivity. cbv iota.
    rewrite (Hread ("}" +:+ rest)) by reflexivity. cbn [mbind option_bind].
    rewrite lit_app, skip_ws_lit by reflexivity. cbv iota zeta.
    cbn [map in_property_order] in Hord. apply andb_prop in Hord as [Hk _].
    rewrite (define_property_last k (read v) acc Hk). reflexivity.
  - inversion Hall as [|? ? [Hv Hread] Hrest]; subst. cbn [snd] in *.
    destruct fuel as [|fuel]; [simpl in Hfuel; lia|].
    cbn [map]. rewrite join_two, !app_assoc. cbn [parse_members]. rewrite Hmember.
    cbv iota. change (nat_of_ascii (ascii_of_nat 34) =? 34)%nat with true. cbv iota.
    rewrite parse_string_escape. cbn [mbind option_bind].
    rewrite lit_app, skip_ws_lit by reflexivity. cbv iota.
    rewrite Hread by reflexivity. cbn [mbind option_bind].
    rewrite lit_app, skip_ws_lit by reflexivity. cbv iota zeta.
    cbn [map in_property_order] in Hord. apply andb_prop in Hord as [Hk Hord].
    rewrite (define_property_last k (read v) acc Hk).
    change (member_text kv2 :: map member_text fields) with (map member_text (kv2 :: fields)).
    rewrite (IH Hrest ltac:(discriminate) fuel (acc ++ [(k, read v)])).
    + rewrite <- List.app_assoc. reflexivity.
    + simpl in *; lia.
    + rewrite map_app. exact Hord.
Qed.

Lemma text_nonempty (v : value) : json_value v = true -> (1 <= String.length (text v))%nat.
Proof.
  intros H. destruct (text_start v H) as (c & u & -> & _). simpl. lia.
Qed.

(** The text of a value, before a delimiter, is read back as the value. *)
Lemma parse_value_text (v : value) :
  json_value v = true ->
  forall fuel rest, (String.length (text v) < fuel)%nat -> delimiter rest = true ->
    parse_value fuel (text v +:+ rest) = Some (read v, rest).
Proof.
  induction v as [ | |b|x|s|items IH|fields IH] using value_nested_ind;
    intros Hv fuel rest Hfuel Hrest; try discriminate Hv;
    (destruct fuel as [|fuel]; [lia|]).
  - reflexivity.
  - destruct b; reflexivity.
  - simpl in Hv. rewrite (text_Num x Hv).
    apply parse_value_number.
    apply (parse_number_app _ rest _ _ (number_reads_back x Hv) Hrest).
  - unfold text. cbn [serialize default from_option id]. unfold quote.
    rewrite !app_assoc. unfold dq at 1. rewrite lit_app. cbn [parse_value]. rewrite skip_ws_lit by reflexivity.
    cbv iota.
    change (Ascii.eqb (ascii_of_nat 34) "n") with false.
    change (Ascii.eqb (ascii_of_nat 34) "t") with false.
    change (Ascii.eqb (ascii_of_nat 34) "f") with false.
    change (nat_of_ascii (ascii_of_nat 34) =? 34)%nat with true. cbv iota.
    rewrite (parse_string_escape s rest). reflexivity.
  - (* an array *)
    cbn [json_value] in Hv. rewrite (text_Arr items Hv) in *.
    rewrite !app_assoc, lit_app. cbn [parse_value]. rewrite skip_ws_lit by reflexivity.
    cbv iota. change (Ascii.eqb "[" "n") with false. change (Ascii.eqb "[" "t") with false.
    change (Ascii.eqb "[" "f") with false.
    change (nat_of_ascii "[" =? 34)%nat with false.
    change (Ascii.eqb "[" "[") with true. cbv iota.
    destruct items as [|v items].
    + reflexivity.
    + assert (Hstart : exists c u, join "," (map text (v :: items)) +:+ "]" +:+ rest = String c u
                                   /\ value_start c = true).
      { cbn [forallb] in Hv. apply andb_prop in Hv as [Hv0 _].
        destruct (text_start v Hv0) as (c & u & E & Hc).
        destruct items as [|v2 items]; cbn [map]; [cbn [join]|rewrite join_two];
          rewrite E, app_cons; eauto. }
      destruct Hstart as (c & u & E & Hc).
      rewrite E, (skip_ws_start c u Hc).
      etransitivity; [exact (not_bracket c u (fun r => Some (Arr [], r)) _ Hc)|]. rewrite <- E.
      rewrite elements_text; [reflexivity| |discriminate|].
      * rewrite List.Forall_forall in IH. apply List.Forall_forall. intros w Hw.
        rewrite forallb_forall in Hv. split; [now apply Hv|].
        intros rest' Hrest'. apply IH; [exact Hw | now apply Hv | | exact Hrest'].
        pose proof (join_length_In "," (text w) (map text (v :: items))
                      (in_map text _ _ Hw)).
        rewrite !app_length in Hfuel. cbn [String.length] in Hfuel. lia.
      * rewrite !app_length.
        assert (length (map text (v :: items))
                <= String.length (join "," (map text (v :: items))))%nat.
        { apply join_length_count. apply List.Forall_forall. intros t Ht.
          apply in_map_iff in Ht as (w & <- & Hw).
          rewrite forallb_forall in Hv. apply text_nonempty. now apply Hv. }
        rewrite length_map in *. lia.
  - (* an object *)
    cbn [json_value] in Hv. apply andb_prop in Hv as [Hv Hord].
    rewrite (text_Obj fields Hv) in *.
    rewrite !app_assoc, lit_app. cbn [parse_value]. rewrite skip_ws_lit by reflexivity.
    cbv iota. change (Ascii.eqb "{" "n") with false. change (Ascii.eqb "{" "t") with false.
    change (Ascii.eqb "{" "f") with false.
    change (nat_of_ascii "{" =? 34)%nat with false.
    change (Ascii.eqb "{" "[") with false.
    change (Ascii.eqb "{" "{") with true. cbv iota.
    destruct fields as [|[k v] fields].
    + reflexivity.
    + assert (Hstart : exists u, join "," (map member_text ((k, v) :: fields)) +:+ "}" +:+ rest
                                 = String (ascii_of_nat 34) u).
      { destruct fields as [|kv2 fields]; cbn [map]; [cbn [join]|rewrite join_two];
          unfold member_text at 1, quote, dq; rewrite !app_assoc, lit_app; eauto. }
      destruct Hstart as (u & E).
      rewrite E, (skip_ws_start (ascii_of_nat 34) u eq_refl).
      etransitivity; [exact (not_brace (ascii_of_nat 34) u (fun r => Some (Obj [], r)) _ eq_refl)|]. rewrite <- E.
      rewrite members_text; [reflexivity| |discriminate| |exact Hord].
      * rewrite List.Forall_forall in IH. apply List.Forall_forall. intros kv Hkv.
        rewrite forallb_forall in Hv. split; [now apply Hv|].
        intros rest' Hrest'. apply IH; [exact Hkv | now apply Hv | | exact Hrest'].
        pose proof (join_length_In "," (member_text kv) (map member_text ((k, v) :: fields))
                      (in_map member_text _ _ Hkv)) as Hlen.
        unfold member_text at 1 in Hlen.
        rewrite !app_length in Hfuel. rewrite !app_length in Hlen.
        cbn [String.length] in Hfuel. lia.
      * rewrite !app_length.
        assert (length (map member_text ((k, v) :: fields))
                <= String.length (join "," (map member_text ((k, v) :: fields))))%nat.
        { apply join_length_count. apply List.Forall_forall. intros t Ht.
          apply in_map_iff in Ht as (w & <- & Hw).
          unfold member_text, quote, dq. rewrite !app_length. simpl. lia. }
        rewrite length_map in *. lia.
Qed.

(** [JSON.parse(JSON.stringify(v))] is [v] with [+0] for [-0], for every
    JSON value. *)
Lemma parse_stringify (v : value) :
  json_value v = true ->
  exists t, stringify v = Some t /\ (1 <= String.length t)%nat /\ parse t = Ret (read v).
Proof.
  intros Hv. exists (text v). split; [apply (serialize_text v Hv)|].
  split; [apply (text_nonempty v Hv)|].
  unfold parse.
  pose proof (parse_value_text v Hv (S (String.length (text v))) EmptyString
                ltac:(lia) eq_refl) as H.
  rewrite app_nil_r in H. rewrite H. reflexivity.
Qed.

End JsonProofs.

(** ** The cache slot *)

Module CacheProofs.
Import Text JS JSON Host App Spec StringFacts JsonProofs.

Lemma same_structure_read (v : value) : same_structure (read v) v = true.
Proof.
  induction v as [ | |b|x|s|items IH|fields IH] using value_nested_ind;
    try reflexivity.
  - apply Bool.eqb_reflx.
  - cbn [read same_structure]. unfold same_number.
    destruct (is_zero x) eqn:Z.
    + rewrite orb_true_r. reflexivity.
    + apply orb_true_intro. left. now apply Leibniz.eqb_spec.
  - apply String.eqb_refl.
  - cbn [read same_structure].
    induction IH as [|v items Hv _ IHitems]; [reflexivity|].
    cbn [map all2]. now rewrite Hv, IHitems.
  - cbn [read same_structure].
    induction IH as [|[k v] fields Hv _ IHfields]; [reflexivity|].
    cbn [map all2 fst snd] in *. now rewrite String.eqb_refl, Hv, IHfields.
Qed.

(** Saving stores the text under the cache key, when the storage accepts
    it. *)
Lemma saveCache_stores (d : value) (text : string) (w : world) :
  stringify d = Some text -> storage_accepts (store w) CACHE_KEY text ->
  saveCache d w =
  (Ret tt, World (page w)
                 (Storage (<[CACHE_KEY := text]> (items (store w))) false
                          (quota (store w)))
                 (console w)).
Proof.
  intros Ht [Hd Hq]. unfold saveCache, try_catch, setItem.
  rewrite Ht, Hd. cbn [default from_option id].
  destruct (quota (store w)) as [q|]; [|reflexivity].
  destruct (Nat.ltb_spec q (String.length CACHE_KEY + String.length text)); [lia|].
  reflexivity.
Qed.

(** C10. For every JSON-serializable snapshot [d] (null, a boolean, a
    finite number, a string, or an array or object of such values), if
    the storage raises no exception, [loadCache()] after [saveCache(d)]
    returns a snapshot structurally equal to [d], read from the text
    that [JSON.stringify] printed into the one cache slot; loading changes
    nothing. *)
Theorem cache_round_trip (d : value) (text : string) (w : world) :
  json_value d = true ->
  stringify d = Some text ->
  storage_accepts (store w) CACHE_KEY text ->
  exists d' : value,
    loadCache (saveCache d w).2 = (Ret d', (saveCache d w).2) /\
    items (store (saveCache d w).2) !! CACHE_KEY = Some text /\
    same_structure d' d = true.
Proof.
  intros Hd Ht Hst.
  destruct (parse_stringify d Hd) as (t & Ht' & Hlen & Hparse).
  assert (t = text) by congruence. subst t.
  rewrite (saveCache_stores d text w Ht Hst). cbn [snd store items].
  exists (read d). split; [|split].
  - unfold loadCache, try_catch, mbind, eff_bind, bind, getItem.
    cbn [store denied items]. rewrite lookup_insert_eq.
    destruct text as [|c u]; [simpl in Hlen; lia|].
    unfold lift. rewrite Hparse. reflexivity.
  - apply lookup_insert_eq.
  - apply same_structure_read.
Qed.

Definition snapshot : value :=
  Obj [("price_usd", Num 0.000123);
       ("volume_change_pct", Num (-3.25));
       ("market_cap_usd", Num 1e21);
       ("supply_burned_pct", Num (-0));
       ("token_mint", Str "So11111111111111111111111111111111111111112");
       ("transactions",
        Arr [Obj [("kind", Str "burn"); ("amount_sol", Num 2.5);
                  ("signature", Null); ("confirmed", Bool true)]])].

Definition snapshot_text : string :=
  Eval vm_compute in default EmptyString (stringify snapshot).

Definition small_storage : world :=
  World ∅ (Storage ∅ false (Some 4096%nat)) [].

Lemma cache_round_trip_witness :
  exists d' : value,
    loadCache (saveCache snapshot small_storage).2
    = (Ret d', (saveCache snapshot small_storage).2) /\
    items (store (saveCache snapshot small_storage).2) !! CACHE_KEY
    = Some snapshot_text /\
    same_structure d' snapshot = true.
Proof.
  apply (cache_round_trip snapshot snapshot_text small_storage);
    [reflexivity | reflexivity | split; [reflexivity | vm_compute; lia]].
Defined.

End CacheProofs.

(** ** Numbers as the locale writes them *)

Module LocaleProofs.
Import Text JS Host App Spec StringFacts DigitFacts FloatFacts FormatProofs NumberProofs.

(** *** Fractions without their trailing zeros *)

Lemma strip_trailing_zeros_spec (z : string) :
  all_digits z = true ->
  exists j, z = JSNumber.strip_trailing_zeros z +:+ zeros j /\
            all_digits (JSNumber.strip_trailing_zeros z) = true.
Proof.
  induction z as [|c z IH]; intros H.
  - exists O. split; reflexivity.
  - cbn [all_digits] in H. apply andb_prop in H as [Hc Hz].
    destruct (IH Hz) as (j & Hj & Hall).
    cbn [JSNumber.strip_trailing_zeros].
    destruct (Ascii.eqb_spec c "0") as [->|Hne]; cbn [andb].
    + destruct (JSNumber.strip_trailing_zeros z) as [|c' r] eqn:Er; cbn [is_empty].
      * exists (S j). rewrite app_nil_l in *. cbn [zeros]. now rewrite <- Hj.
      * exists j. rewrite app_cons. split; [now rewrite <- Hj|].
        cbn [all_digits] in Hall |- *. now rewrite Hall.
    + exists j. rewrite app_cons. split; [now rewrite <- Hj|].
      cbn [all_digits]. now rewrite Hc, Hall.
Qed.

Lemma is_empty_length (s : string) : is_empty s = true -> String.length s = O.
Proof. destruct s; [reflexivity | discriminate]. Qed.

(** The integer and fraction digits of [n / 10^f] read back as [n]. *)
Lemma decimal_digits_read (f : nat) (n : Z) :
  0 <= n ->
  let ip := JSNumber.integer_text f n in
  let fp := JSNumber.fraction_text f n in
  (String.length fp <= f)%nat /\
  exists N, read_decimal (plain_decimal ip fp) = Some (N, String.length fp) /\
            N * 10 ^ Z.of_nat (f - String.length fp) = n.
Proof.
  intros Hn ip fp.
  assert (Hp : 0 < 10 ^ Z.of_nat f) by (apply Z.pow_pos_nonneg; lia).
  assert (Hq : 0 <= n / 10 ^ Z.of_nat f) by (apply Z.div_pos; lia).
  pose proof (Z.mod_pos_bound n (10 ^ Z.of_nat f) Hp) as Hr.
  pose proof (Z.div_mod n (10 ^ Z.of_nat f) ltac:(lia)) as Hdm.
  destruct (digits_spec _ Hq) as (Hall & Hsp & Hlen & _).
  fold (JSNumber.integer_text f n) in Hall, Hsp, Hlen. fold ip in Hall, Hsp, Hlen.
  destruct (digits_spec (n mod 10 ^ Z.of_nat f) ltac:(lia)) as (Hallm & Hspm & Hlenm & Hlowm).
  set (m := digits (n mod 10 ^ Z.of_nat f)) in *.
  set (z := zeros (f - String.length m) +:+ m).
  destruct (zeros_spec (f - String.length m) 0) as (Z1 & Z2 & Z3).
  assert (Hz : all_digits z = true /\ spell z 0 = n mod 10 ^ Z.of_nat f).
  { unfold z. rewrite all_digits_app, spell_app, Z1, Z3, Hallm. split; [reflexivity|].
    rewrite Z.mul_0_l. exact Hspm. }
  destruct Hz as [Hallz Hspz].
  destruct (strip_trailing_zeros_spec z Hallz) as (j & Hj & Hallfp).
  change (JSNumber.strip_trailing_zeros z) with fp in Hj, Hallfp.
  assert (Hlenz : String.length z = (String.length fp + j)%nat).
  { rewrite Hj at 1. rewrite app_length. destruct (zeros_spec j 0) as (_ & -> & _). reflexivity. }
  assert (Hval : spell fp 0 * 10 ^ Z.of_nat j = n mod 10 ^ Z.of_nat f).
  { rewrite <- Hspz. rewrite Hj at 1. rewrite spell_app.
    destruct (zeros_spec j (spell fp 0)) as (_ & _ & ->). reflexivity. }
  (* the length of the padded fraction *)
  assert (Hcase : (f = O /\ fp = EmptyString) \/ String.length z = f).
  { destruct f as [|f'].
    - left. split; [reflexivity|].
      unfold fp, JSNumber.fraction_text.
      change (10 ^ Z.of_nat 0) with 1. rewrite Z.mod_1_r. reflexivity.
    - right. unfold z. rewrite app_length, Z2.
      assert (String.length m <= S f')%nat; [|lia].
      destruct (Z.eq_dec (n mod 10 ^ Z.of_nat (S f')) 0) as [E0|Hne].
      + unfold m. rewrite E0. simpl. lia.
      + specialize (Hlowm ltac:(lia)).
        destruct (Nat.le_gt_cases (String.length m) (S f')) as [H|H]; [exact H|exfalso].
        assert (10 ^ Z.of_nat (S f') <= 10 ^ Z.of_nat (String.length m - 1))
          by (apply Z.pow_le_mono_r; lia).
        lia. }
  assert (Hread : read_decimal (plain_decimal ip fp)
                  = Some (spell ip 0 * 10 ^ Z.of_nat (String.length fp) + spell fp 0,
                          String.length fp)).
  { unfold plain_decimal, read_decimal.
    destruct fp as [|c fp'] eqn:Efp; cbn [is_empty].
    - rewrite <- (app_nil_l EmptyString) at 1.
      rewrite (scan_digits_all ip _ 0 0 Hall).
      rewrite (scan_digits_stops EmptyString) by reflexivity.
      replace (0 <? 0 + String.length ip)%nat with true
        by (symmetry; apply Nat.ltb_lt; lia).
      simpl. do 2 f_equal. lia.
    - rewrite <- Efp in *.
      rewrite (scan_digits_all ip _ 0 0 Hall).
      rewrite (scan_digits_stops ("." +:+ fp)) by reflexivity.
      rewrite app_cons, app_nil_l.
      rewrite <- (app_nil_r fp) at 1.
      rewrite (scan_digits_all fp _ _ 0 Hallfp).
      rewrite (scan_digits_stops EmptyString) by reflexivity.
      replace (0 <? 0 + String.length ip)%nat with true
        by (symmetry; apply Nat.ltb_lt; lia).
      replace (0 <? 0 + String.length fp)%nat with true
        by (symmetry; apply Nat.ltb_lt; rewrite Efp; simpl; lia).
      cbn [andb is_empty]. rewrite (spell_shift fp (spell ip 0)). reflexivity. }
  destruct Hcase as [[-> Efp] | Hlenf].
  - split; [rewrite Efp; simpl; lia|].
    eexists. split; [exact Hread|].
    rewrite Efp in *. simpl String.length. change (Z.of_nat (0 - 0)) with 0.
    change (10 ^ Z.of_nat 0) with 1 in *. cbn [spell]. rewrite Hsp.
    rewrite Z.mod_1_r in Hdm. lia.
  - split; [lia|].
    eexists. split; [exact Hread|].
    replace (f - String.length fp)%nat with j by lia.
    rewrite Z.mul_add_distr_r, <- Z.mul_assoc, <- Z.pow_add_r by lia.
    rewrite <- Nat2Z.inj_add, <- Hlenz, Hlenf, Hval, Hsp. lia.
Qed.

(** *** What [toLocaleString] writes *)

Lemma printed_decimal_pos (y : float) (m : positive) (e : Z) :
  Prim2SF y = S754_finite false m e ->
  0 < fst (JSNumber.printed_decimal y m e) /\ 0 < snd (JSNumber.printed_decimal y m e).
Proof.
  intros E. destruct (shortest_spec y m e E) as (s & k & n & Hs & _ & Hk & Hrange & _).
  unfold JSNumber.printed_decimal. rewrite Hs.
  assert (0 < 10 ^ (k - 1)) by (apply Z.pow_pos_nonneg; lia).
  apply (scale10_pos (s, 1) (n - k)); simpl; lia.
Qed.

Lemma toLocaleString_shows (l : JSNumber.locale) (f : nat) (x : float) :
  shows_number l f x (JSNumber.toLocaleString l f x).
Proof.
  unfold shows_number, JSNumber.toLocaleString.
  destruct (Prim2SF x) as [s|s| |s m e] eqn:E; try reflexivity.
  assert (Eabs : Prim2SF (abs x) = S754_finite false m e).
  { rewrite abs_spec, E. reflexivity. }
  destruct (printed_decimal_pos (abs x) m e Eabs) as [Ha Hb].
  set (r := JSNumber.printed_decimal (abs x) m e) in *.
  destruct (scale10_pos r (Z.of_nat f) Ha Hb) as [Ha' Hb'].
  destruct (round_half_up_nearest _ (Z.lt_le_incl _ _ Ha') Hb') as [Hn Hnear].
  cbv zeta. set (n := JSNumber.round_half_up (JSNumber.scale10 r (Z.of_nat f))) in *.
  destruct (decimal_digits_read f n Hn) as (Hlen & N & Hread & HN).
  exists (JSNumber.integer_text f n), (JSNumber.fraction_text f n).
  split; [|reflexivity].
  split; [exact Hlen|]. exists N. split; [exact Hread|]. rewrite HN. exact Hnear.
Qed.




End LocaleProofs.

(** * More of app.js *)

(** ** What renderDashboard leaves alone *)

Module FrameProofs.
Import Text JS Host App Spec RenderProofs.

(** The world with the element [id], if there is one, changed by [f]. *)
Definition write (id : string) (f : element -> element) (w : world) : world :=
  World (alter f id (page w)) (store w) (console w).

(** The ids that [renderDashboard] looks up. *)
Definition slot_names : list string :=
  ["statPrice"; "statVolume"; "statBuybacks"; "statBurned"; "goalLabel";
   "goalPctLabel"; "goalFill"; "burnPctLabel"; "burnFill"; "contractAddress";
   "txList"].

(** [m] takes every world to one that [R] relates to it, whether it
    returns or throws. *)
Definition preserves {A : Type} (R : world -> world -> Prop) (m : Eff A) : Prop :=
  forall w, R w (m w).2.

Section Preserved.
Variable R : world -> world -> Prop.
Hypothesis R_refl : forall w, R w w.
Hypothesis R_trans : forall w1 w2 w3, R w1 w2 -> R w2 w3 -> R w1 w3.
Hypothesis R_write : forall id f w, In id slot_names -> R w (write id f w).

Lemma preserves_pure {A} (r : result A) : preserves R (lift r).
Proof. intros w. apply R_refl. Qed.

Lemma preserves_ret {A} (a : A) : preserves R (mret a : Eff A).
Proof. intros w. apply R_refl. Qed.

Lemma preserves_dollar id : preserves R (dollar id).
Proof. intros w. apply R_refl. Qed.

Lemma preserves_bind {A B} (m : Eff A) (f : A -> Eff B) :
  preserves R m -> (forall a, preserves R (f a)) -> preserves R (m ≫= f).
Proof.
  intros Hm Hf w. unfold mbind, eff_bind, bind.
  specialize (Hm w). destruct (m w) as [[a|e] w1]; simpl in *; [|exact Hm].
  eapply R_trans; [exact Hm | apply Hf].
Qed.

Lemma preserves_bind_value {A B} (good : A -> Prop) (m : Eff A) (f : A -> Eff B) :
  (forall w a, (m w).1 = Ret a -> good a) ->
  preserves R m -> (forall a, good a -> preserves R (f a)) -> preserves R (m ≫= f).
Proof.
  intros Hgood Hm Hf w. unfold mbind, eff_bind, bind.
  specialize (Hm w). specialize (Hgood w).
  destruct (m w) as [[a|e] w1]; simpl in *; [|exact Hm].
  eapply R_trans; [exact Hm | apply Hf, Hgood; reflexivity].
Qed.

Lemma preserves_update id f : In id slot_names -> preserves R (update_element id f).
Proof. intros Hin w. apply (R_write id f w Hin). Qed.

Lemma preserves_set_text id text :
  In id slot_names -> preserves R (set_text_if_present id text).
Proof.
  intros Hin. unfold set_text_if_present.
  apply preserves_bind; [apply preserves_dollar|]. intros [el|]; [|apply preserves_ret].
  apply preserves_bind; [apply preserves_pure|]. intros s.
  now apply preserves_update.
Qed.

Lemma preserves_setWidth id el pct :
  In id slot_names -> el = None \/ el = Some id -> preserves R (setWidth el pct).
Proof.
  intros Hin [-> | ->]; simpl; [apply preserves_ret|].
  apply preserves_bind; [apply preserves_pure|]. intros x.
  now apply preserves_update.
Qed.

#[local] Ltac named := unfold slot_names; simpl; tauto.

Lemma renderDashboard_preserves (env : browser) (d : value) :
  preserves R (renderDashboard env d).
Proof.
  unfold renderDashboard.
  do 6 (apply preserves_bind; [apply preserves_set_text; named | intros _]).
  apply (preserves_bind_value (fun a => a = None \/ a = Some "goalFill"));
    [apply dollar_handle | apply preserves_dollar | intros goalFill HgoalFill].
  apply preserves_bind; [apply preserves_pure | intros pct].
  apply preserves_bind; [apply (preserves_setWidth "goalFill"); [named | exact HgoalFill] | intros _].
  apply preserves_bind; [apply preserves_set_text; named | intros _].
  apply (preserves_bind_value (fun a => a = None \/ a = Some "burnFill"));
    [apply dollar_handle | apply preserves_dollar | intros burnFill HburnFill].
  apply preserves_bind; [apply preserves_pure | intros burned].
  apply preserves_bind; [apply (preserves_setWidth "burnFill"); [named | exact HburnFill] | intros _].
  apply preserves_bind; [apply preserves_dollar | intros contractAddress].
  apply preserves_bind.
  { destruct contractAddress as [ca|]; [|apply preserves_ret].
    apply preserves_bind; [apply preserves_pure | intros mint].
    destruct (truthy mint); [|apply preserves_ret].
    apply preserves_bind; [apply preserves_pure | intros s].
    apply preserves_update. named. }
  intros _.
  apply preserves_bind; [apply preserves_dollar | intros [list|]]; [|apply preserves_ret].
  apply preserves_bind; [apply preserves_pure | intros cards].
  apply preserves_update. named.
Qed.

End Preserved.

Section Frame.
Variable env : browser.

(** X1.  Whether it returns or throws, [renderDashboard] touches neither the
    storage nor the console. *)
Theorem renderDashboard_only_page (d : value) (w : world) :
  store (renderDashboard env d w).2 = store w /\
  console (renderDashboard env d w).2 = console w.
Proof.
  apply (renderDashboard_preserves
           (fun w w' => store w' = store w /\ console w' = console w)).
  - auto.
  - intros w1 w2 w3 [H1 H2] [H3 H4]. split; congruence.
  - intros id f w0 _. split; reflexivity.
Qed.

End Frame.

End FrameProofs.

(** ** What renderDashboard writes *)

Module SlotProofs.
Import Text JS Host App Spec UsableProofs CardProofs RenderProofs FrameProofs.

Definition with_text (s : string) (el : element) : element :=
  Element (Text s) (el_width el).

Definition with_html (s : string) (el : element) : element :=
  Element (Html s) (el_width el).

Definition with_width (s : string) (el : element) : element :=
  Element (el_content el) s.

(** The string that a conversion returns. *)
Definition out (r : result string) : string :=
  match r with
  | Ret s => s
  | Throw _ => EmptyString
  end.

(** The width of a progress bar: [Math.max(0, Math.min(100, Number(pct)||0))]
    and "%". *)
Definition bar_width (pct : value) : string :=
  match ToNumber pct with
  | Ret x => JSNumber.toString (Math_max 0 (Math_min 100 (or_zero x))) +:+ "%"
  | Throw _ => EmptyString
  end.

(** The transactions of a snapshot as the data model has them: a
    sequence of transactions; or none (a falsy value). *)
Definition listed (d : value) : bool :=
  match field d "transactions" with
  | Arr items => forallb transaction_shaped items
  | v => negb (truthy v)
  end.

(** A snapshot that the data model describes. *)
Definition renderable (d : value) : bool := snapshot_shaped d && listed d.

Fixpoint distinct (names : list string) : bool :=
  match names with
  | [] => true
  | n :: names' => negb (existsb (String.eqb n) names') && distinct names'
  end.

(** The changes [slots], made one after the other. *)
Fixpoint apply_slots (slots : list (string * (element -> element)))
    (p : gmap string element) : gmap string element :=
  match slots with
  | [] => p
  | (id, f) :: slots' => apply_slots slots' (alter f id p)
  end.

(** The change that [slots] has for [id], none if it has none. *)
Definition change_of (slots : list (string * (element -> element))) (id : string)
  : element -> element :=
  default (fun el => el) (assoc id slots).

Lemma lookup_apply_slots slots p id :
  distinct (map fst slots) = true ->
  apply_slots slots p !! id = change_of slots id <$> p !! id.
Proof.
  revert p. induction slots as [|[id' f] slots IH]; intros p Hd.
  - unfold change_of. simpl. now destruct (p !! id).
  - cbn [map fst distinct] in Hd. apply andb_prop in Hd as [Hn Hd].
    cbn [apply_slots]. rewrite (IH _ Hd). unfold change_of. cbn [assoc].
    destruct (String.eqb_spec id id') as [->|Hne].
    + rewrite lookup_alter_eq.
      assert (Hnone : assoc id' slots = None).
      { apply negb_true_iff in Hn. clear -Hn.
        induction slots as [|[k g] slots IH]; [reflexivity|].
        cbn [map fst existsb] in Hn. apply orb_false_elim in Hn as [Hk Hn].
        cbn [assoc]. rewrite Hk. now apply IH. }
      rewrite Hnone. simpl. now destruct (p !! id').
    + rewrite lookup_alter_ne by congruence. reflexivity.
Qed.

Lemma write_absent id f w : page w !! id = None -> write id f w = w.
Proof.
  intros H. destruct w as [p st c]. unfold write. simpl in *. f_equal.
  apply alter_id. intros x Hx. congruence.
Qed.

Lemma bind_ret {A B} (m : Eff A) (f : A -> Eff B) w a w1 :
  m w = (Ret a, w1) -> (m ≫= f) w = f a w1.
Proof. intros H. unfold mbind, eff_bind, bind. now rewrite H. Qed.

Lemma bind_throw {A B} (m : Eff A) (f : A -> Eff B) w e w1 :
  m w = (Throw e, w1) -> (m ≫= f) w = (Throw e, w1).
Proof. intros H. unfold mbind, eff_bind, bind. now rewrite H. Qed.

(** A guarded assignment of a text is an unguarded change of the page. *)
Lemma set_text_ret id text s w :
  text = Ret s -> set_text_if_present id text w = (Ret tt, write id (with_text s) w).
Proof.
  intros ->. unfold set_text_if_present, dollar, getElementById, mbind, eff_bind, bind.
  destruct (page w !! id) eqn:E; simpl.
  - reflexivity.
  - now rewrite write_absent.
Qed.

Lemma set_width_ret id pct x w :
  ToNumber pct = Ret x ->
  (el ← dollar id; v ← lift (Ret pct); setWidth el v) w
  = (Ret tt, write id (with_width (bar_width pct)) w).
Proof.
  intros Hx. unfold dollar, getElementById, setWidth, lift, mbind, eff_bind, bind, bar_width.
  rewrite Hx. destruct (page w !! id) eqn:E; simpl.
  - reflexivity.
  - now rewrite write_absent.
Qed.

Lemma out_ret (r : result string) : (exists s, r = Ret s) -> r = Ret (out r).
Proof. intros [s ->]. reflexivity. Qed.


Lemma text_step {B} id text s (k : Eff B) w :
  text = Ret s ->
  (_ ← set_text_if_present id text; k) w = k (write id (with_text s) w).
Proof. intros H. now rewrite (bind_ret _ _ w tt _ (set_text_ret id text s w H)). Qed.

Lemma width_step {B} id pct x (k : Eff B) w :
  ToNumber pct = Ret x ->
  (el ← dollar id; v ← lift (Ret pct); _ ← setWidth el v; k) w
  = k (write id (with_width (bar_width pct)) w).
Proof.
  intros Hx.
  unfold dollar, getElementById, setWidth, lift, mbind, eff_bind, bind, bar_width,
    mret, eff_ret, ret.
  rewrite Hx. destruct (page w !! id) eqn:E; simpl.
  - reflexivity.
  - now rewrite write_absent.
Qed.

Lemma contract_step {B} (mint : value) (k : Eff B) w :
  primitive mint = true ->
  (contractAddress ← dollar "contractAddress";
   _ ← match contractAddress with
       | None => mret tt
       | Some _ =>
           m ← lift (Ret mint);
           if truthy m then
             s ← lift (ToString m); set_textContent "contractAddress" s
           else mret tt
       end;
   k) w
  = k (write "contractAddress"
         (if truthy mint then with_text (text_of mint) else fun el => el) w).
Proof.
  intros Hp.
  unfold dollar, getElementById, lift, mbind, eff_bind, bind, mret, eff_ret, ret,
    set_textContent, update_element.
  destruct (page w !! "contractAddress") eqn:E; simpl.
  - rewrite (ToString_primitive mint Hp).
    destruct (truthy mint); [reflexivity|].
    f_equal. destruct w as [p st c]. unfold write. simpl. f_equal.
    symmetry. apply alter_id. reflexivity.
  - now rewrite write_absent.
Qed.

Lemma list_step (cards : result (list string)) (l : list string) w :
  cards = Ret l ->
  (list ← dollar "txList";
   match list with
   | None => mret tt
   | Some _ =>
       cs ← lift cards;
       let html := concat_all cs in
       set_innerHTML "txList" (if is_empty html then placeholder else html)
   end) w
  = (Ret tt,
     write "txList"
       (with_html (if is_empty (concat_all l) then placeholder else concat_all l)) w).
Proof.
  intros ->.
  unfold dollar, getElementById, lift, mbind, eff_bind, bind, mret, eff_ret, ret.
  destruct (page w !! "txList") eqn:E; simpl.
  - reflexivity.
  - now rewrite write_absent.
Qed.

Section Slots.
Variable env : browser.

(** A transaction of the data model gets its card: the template, with
    the description as it is. *)
Lemma card_shape (tx : value) :
  transaction_shaped tx = true ->
  exists meta when href,
    card env tx
    = Ret (card_html (icon_of (field tx "kind")) (title_of (field tx "kind")) meta
                     (text_of (or_else (field tx "description") (Str EmptyString)))
                     when href (safe_of (field tx "signature"))).
Proof.
  intros Htx. destruct tx as [ | |b|x|s|items|fields]; try discriminate Htx.
  unfold transaction_shaped in Htx.
  repeat (apply andb_prop in Htx as [Htx ?]).
  unfold card. unfold field in *. simpl get in *. cbv iota in *.
  set (kind := default Undefined (lookup_field "kind" fields)) in *.
  set (amount := default Undefined (lookup_field "amount_sol" fields)) in *.
  set (description := default Undefined (lookup_field "description" fields)) in *.
  set (timestamp := default Undefined (lookup_field "timestamp" fields)) in *.
  set (signature := default Undefined (lookup_field "signature" fields)) in *.
  unfold mbind, result_bind.
  assert (Hmeta : exists meta, meta_of env kind amount = Ret meta).
  { unfold meta_of, upper_kind, or_else, mbind, result_bind.
    assert (Hk : exists k, (if truthy kind then kind else Str EmptyString) = Str k).
    { destruct kind as [ | |b|x|s|items|fs]; try discriminate Htx; simpl; eauto.
      destruct (negb (is_empty s)); eauto. }
    destruct Hk as [k ->]. cbv beta iota.
    assert (Ha : exists a, ToString (coalesce amount (Num zero)) = Ret a).
    { destruct amount; try discriminate; simpl; eauto. }
    destruct Ha as [a ->]. eauto. }
  destruct Hmeta as [meta ->]. cbv beta iota.
  assert (Hwhen : exists when, when_of env timestamp = Ret when).
  { unfold when_of. destruct (truthy timestamp); [|eauto].
    destruct timestamp; try discriminate; eauto. }
  destruct Hwhen as [when ->]. cbv beta iota.
  assert (Hhref : exists href, href_of signature = Ret href).
  { unfold href_of. destruct (truthy signature); [|eauto].
    rewrite (ToString_primitive signature) by assumption. simpl. eauto. }
  destruct Hhref as [href ->]. cbv beta iota.
  assert (Hdesc : primitive (or_else description (Str EmptyString)) = true).
  { unfold or_else. destruct (truthy description); [assumption|reflexivity]. }
  rewrite (ToString_primitive _ Hdesc). cbv beta iota. eauto.
Qed.

Lemma card_returns (tx : value) :
  transaction_shaped tx = true -> exists c, card env tx = Ret c.
Proof. intros H. destruct (card_shape tx H) as (meta & when & href & E). eauto. Qed.

(** The cards of a sequence of transactions: one each, in their order. *)
Lemma map_cards_listed (items : list value) :
  forallb transaction_shaped items = true ->
  map_cards env items
  = Ret (map (fun tx => out (card env tx)) items).
Proof.
  induction items as [|tx items IH]; intros H; [reflexivity|].
  cbn [forallb] in H. apply andb_prop in H as [Htx H].
  destruct (card_returns tx Htx) as [c Hc].
  cbn [map_cards map]. rewrite Hc, (IH H). reflexivity.
Qed.

(** The transactions that [renderDashboard] lists. *)
Definition transactions_of (d : value) : list value :=
  match field d "transactions" with
  | Arr items => items
  | _ => []
  end.

Lemma cards_of_listed (d : value) :
  renderable d = true ->
  cards_of env d
  = Ret (map (fun tx => out (card env tx)) (transactions_of d)).
Proof.
  intros H. apply andb_prop in H as [Hd Hl].
  destruct d as [ | |b|x|t|items|fields]; try discriminate Hd.
  unfold listed, transactions_of, cards_of, field in *. simpl get in *. cbv iota in *.
  cbn [mbind result_bind]. unfold or_else.
  destruct (default Undefined (lookup_field "transactions" fields))
    as [ | |b|x|t|items|fs] eqn:E; simpl in Hl |- *;
    try reflexivity; try discriminate Hl.
  - apply negb_true_iff in Hl. subst b. reflexivity.
  - apply negb_true_iff in Hl. apply negb_false_iff in Hl. rewrite Hl. reflexivity.
  - apply negb_true_iff in Hl. apply negb_false_iff in Hl. rewrite Hl. reflexivity.
  - now apply map_cards_listed.
Qed.

(** What the transaction list shows: the cards one after the other, or
    the placeholder. *)
Definition list_html (d : value) : string :=
  let html := concat_all (map (fun tx => out (card env tx))
                              (transactions_of d)) in
  if is_empty html then placeholder else html.

(** What [renderDashboard] writes, element by element. *)
Definition slots (d : value) : list (string * (element -> element)) :=
  [("statPrice", with_text (out (fmtPrice (field d "price_usd"))));
   ("statVolume", with_text (out (fmtPct env (field d "volume_change_pct"))));
   ("statBuybacks", with_text (out (fmtUSD env (field d "buybacks_usd"))));
   ("statBurned", with_text (out (fmtUSD env (field d "burned_usd"))));
   ("goalLabel",
    with_text ("(" +:+ out (fmtUSD env (field d "market_cap_usd")) +:+ " / "
               +:+ out (fmtUSD env (field d "next_goal_usd")) +:+ ")"));
   ("goalPctLabel", with_text (text_of (field d "next_goal_progress_pct") +:+ "%"));
   ("goalFill", with_width (bar_width (field d "next_goal_progress_pct")));
   ("burnPctLabel", with_text (text_of (field d "supply_burned_pct") +:+ "%"));
   ("burnFill", with_width (bar_width (field d "supply_burned_pct")));
   ("contractAddress",
    if truthy (field d "token_mint")
    then with_text (text_of (field d "token_mint"))
    else fun el => el);
   ("txList", with_html (list_html d))].

#[local] Ltac printed := unfold printed_fields; simpl; tauto.

(** The last statements of [renderDashboard]: the transaction list. *)
Definition list_part (d : value) : Eff unit :=
  list ← dollar "txList";
  match list with
  | None => mret tt
  | Some _ =>
      cards ← lift (cards_of env d);
      let html := concat_all cards in
      set_innerHTML "txList" (if is_empty html then placeholder else html)
  end.

(** On a snapshot whose printed fields are as the data model has them,
    [renderDashboard] comes to the transaction list with the other
    changes of [slots] made. *)
Lemma renderDashboard_head (d : value) (w : world) :
  snapshot_shaped d = true ->
  renderDashboard env d w
  = list_part d (World (apply_slots (removelast (slots d)) (page w)) (store w) (console w)).
Proof.
  intros Hd.
  pose proof (fun name H => snapshot_field d name Hd H) as Hf.
  destruct (Hf "price_usd" ltac:(printed)) as [P1 G1].
  destruct (Hf "volume_change_pct" ltac:(printed)) as [P2 G2].
  destruct (Hf "buybacks_usd" ltac:(printed)) as [P3 G3].
  destruct (Hf "burned_usd" ltac:(printed)) as [P4 G4].
  destruct (Hf "market_cap_usd" ltac:(printed)) as [P5 G5].
  destruct (Hf "next_goal_usd" ltac:(printed)) as [P6 G6].
  destruct (Hf "next_goal_progress_pct" ltac:(printed)) as [P7 G7].
  destruct (Hf "supply_burned_pct" ltac:(printed)) as [P8 G8].
  destruct (Hf "token_mint" ltac:(printed)) as [P9 G9].
  pose proof (out_ret _ (fmtPrice_primitive _ P1)) as F1.
  pose proof (out_ret _ (fmtPct_primitive env _ P2)) as F2.
  pose proof (out_ret _ (fmtUSD_primitive env _ P3)) as F3.
  pose proof (out_ret _ (fmtUSD_primitive env _ P4)) as F4.
  pose proof (out_ret _ (fmtUSD_primitive env _ P5)) as F5.
  pose proof (out_ret _ (fmtUSD_primitive env _ P6)) as F6.
  destruct (ToNumber_primitive _ P7) as [x7 N7].
  destruct (ToNumber_primitive _ P8) as [x8 N8].
  unfold renderDashboard.
  rewrite G1, G2, G3, G4, G5, G6, G7, G8, G9.
  rewrite (text_step "statPrice" _ _ _ _ F1).
  rewrite (text_step "statVolume" _ _ _ _ F2).
  rewrite (text_step "statBuybacks" _ _ _ _ F3).
  rewrite (text_step "statBurned" _ _ _ _ F4).
  rewrite (text_step "goalLabel" _
             ("(" +:+ out (fmtUSD env (field d "market_cap_usd")) +:+ " / "
              +:+ out (fmtUSD env (field d "next_goal_usd")) +:+ ")"))
    by (cbn [mbind result_bind]; rewrite F5; cbn [mbind result_bind]; rewrite F6; reflexivity).
  rewrite (text_step "goalPctLabel" _ (text_of (field d "next_goal_progress_pct") +:+ "%"))
    by (cbn [mbind result_bind]; rewrite (ToString_primitive _ P7); reflexivity).
  rewrite (width_step "goalFill" _ x7 _ _ N7).
  rewrite (text_step "burnPctLabel" _ (text_of (field d "supply_burned_pct") +:+ "%"))
    by (cbn [mbind result_bind]; rewrite (ToString_primitive _ P8); reflexivity).
  rewrite (width_step "burnFill" _ x8 _ _ N8).
  rewrite (contract_step _ _ _ P9).
  reflexivity.
Qed.

(** On a snapshot of the data model [renderDashboard] returns, and the
    page is the old one with the changes of [slots]. *)
Lemma renderDashboard_slots (d : value) (w : world) :
  renderable d = true ->
  renderDashboard env d w
  = (Ret tt, World (apply_slots (slots d) (page w)) (store w) (console w)).
Proof.
  intros Hr. pose proof (cards_of_listed d Hr) as Hcards.
  apply andb_prop in Hr as [Hd Hl].
  rewrite (renderDashboard_head d w Hd). unfold list_part.
  rewrite (list_step _ _ _ Hcards). reflexivity.
Qed.

Lemma slots_distinct (d : value) : distinct (map fst (slots d)) = true.
Proof. reflexivity. Qed.

(** A change of a later snapshot replaces the change of an earlier one,
    the contract address apart when the later snapshot has none. *)
Lemma change_twice (d1 d2 : value) (name : string) (el : element) :
  truthy (field d2 "token_mint") = true \/ truthy (field d1 "token_mint") = false ->
  change_of (slots d2) name (change_of (slots d1) name el) = change_of (slots d2) name el.
Proof.
  intros Hmint. unfold change_of, slots. cbn [assoc].
  repeat (destruct (String.eqb name _); [reflexivity|]).
  destruct (String.eqb name "contractAddress").
  { cbn [default from_option id].
    destruct Hmint as [-> | ->]; [|destruct (truthy (field d2 "token_mint"))];
      try reflexivity.
    destruct (truthy (field d1 "token_mint")); reflexivity. }
  destruct (String.eqb name "txList"); reflexivity.
Qed.

Lemma apply_slots_twice (d1 d2 : value) (p : gmap string element) :
  truthy (field d2 "token_mint") = true \/ truthy (field d1 "token_mint") = false ->
  apply_slots (slots d2) (apply_slots (slots d1) p) = apply_slots (slots d2) p.
Proof.
  intros Hmint. apply map_eq. intros id.
  rewrite !lookup_apply_slots by apply slots_distinct.
  destruct (p !! id) as [el|]; [|reflexivity].
  simpl. f_equal. now apply change_twice.
Qed.


(** X4.  Rendering a snapshot a second time changes nothing. *)
Theorem renderDashboard_again (d : value) (w : world) :
  renderable d = true ->
  renderDashboard env d (renderDashboard env d w).2
  = (Ret tt, (renderDashboard env d w).2).
Proof.
  intros Hr. rewrite !(renderDashboard_slots d _ Hr). cbn [snd page store console].
  rewrite apply_slots_twice; [reflexivity|].
  destruct (truthy (field d "token_mint")); auto.
Qed.

(** X5.  After two renderings the page is that of the second snapshot alone,
    when this one has a contract address to show. *)
Theorem renderDashboard_last_wins (d1 d2 : value) (w : world) :
  renderable d1 = true -> renderable d2 = true ->
  truthy (field d2 "token_mint") = true ->
  renderDashboard env d2 (renderDashboard env d1 w).2
  = renderDashboard env d2 w.
Proof.
  intros H1 H2 Hmint.
  rewrite (renderDashboard_slots d1 _ H1), !(renderDashboard_slots d2 _ H2).
  cbn [snd page store console]. rewrite apply_slots_twice; auto.
Qed.

(** X6.  The list container of a page shows the cards of the transactions,
    one for each, in the order of the sequence. *)
Theorem renderDashboard_lists (d : value) (w : world) (el : element)
    (tx : value) (txs : list value) :
  renderable d = true ->
  field d "transactions" = Arr (tx :: txs) ->
  page w !! "txList" = Some el ->
  page (renderDashboard env d w).2 !! "txList"
  = Some (Element (Html (concat_all (map (fun t => out (card env t))
                                         (tx :: txs))))
                  (el_width el)).
Proof.
  intros Hr Htx Hel.
  rewrite (renderDashboard_slots d w Hr). cbn [snd page].
  rewrite lookup_apply_slots by apply slots_distinct. rewrite Hel.
  unfold change_of, slots, list_html, transactions_of. rewrite Htx.
  cbn [assoc String.eqb Ascii.eqb Bool.eqb default from_option id fmap option_fmap option_map
       with_html el_width map concat_all].
  assert (Hshape : transaction_shaped tx = true).
  { apply andb_prop in Hr as [_ Hl]. unfold listed in Hl. rewrite Htx in Hl.
    cbn [forallb] in Hl. now apply andb_prop in Hl as [Hl _]. }
  destruct (card_shape tx Hshape) as (meta & when & href & ->).
  cbn [out]. unfold card_html at 1. cbn [concat_all]. unfold nl at 1.
  rewrite !StringFacts.app_cons. reflexivity.
Qed.

(** X8.  A card holds the description as it is, between the opening tag of
    its paragraph and the line break: nothing is escaped. *)
Theorem card_description_verbatim (tx : value) (s : string) :
  transaction_shaped tx = true ->
  field tx "description" = Str s ->
  exists before after,
    card env tx
    = Ret (before +:+ "<p class=" +:+ dq +:+ "text-xs mb-4" +:+ dq +:+ ">"
           +:+ s +:+ "<br>" +:+ after).
Proof.
  intros Htx Hdesc. destruct (card_shape tx Htx) as (meta & when & href & ->).
  rewrite Hdesc.
  assert (Hs : text_of (or_else (Str s) (Str EmptyString)) = s).
  { unfold or_else. simpl. destruct s; reflexivity. }
  rewrite Hs. unfold card_html.
  set (l := [nl; "      <div class="; dq; "card compact skinny flex-shrink-0 snap-start"; dq;
             ">"; nl; "        <div class="; dq;
             "flex items-center justify-center text-4xl text-neon mb-3"; dq; ">";
             icon_of (field tx "kind"); "</div>"; nl; "        <h3 class="; dq;
             "font-semibold mb-1"; dq; ">"; title_of (field tx "kind"); "</h3>"; nl;
             "        <div class="; dq; "meta mb-2"; dq; ">"; meta; "</div>"; nl]).
  exists (concat_all l +:+ "        "). eexists.
  assert (Happ : forall a b, concat_all (a ++ b) = concat_all a +:+ concat_all b).
  { induction a as [|x a IH]; intros b; [reflexivity|].
    cbn [app concat_all]. now rewrite IH, StringFacts.app_assoc. }
  match goal with
  | |- Ret (concat_all ?all) = _ =>
      change all with (l ++ skipn (length l) all)
  end.
  rewrite Happ, StringFacts.app_assoc. f_equal.
Qed.




End Slots.

Definition demo : value :=
  Obj [("price_usd", Num 0.000123); ("volume_change_pct", Num (-3.25));
       ("market_cap_usd", Num 48000); ("next_goal_progress_pct", Num 150);
       ("token_mint", Str "So11111111111111111111111111111111111111112");
       ("transactions",
        Arr [Obj [("kind", Str "burn"); ("amount_sol", Num 2.5);
                  ("description", Str "<b>burned</b>")];
             Obj [("kind", Str "claim"); ("signature", Str "5xyz")]])].

Definition earlier : value :=
  Obj [("price_usd", Num 0.5); ("token_mint", Str "old"); ("transactions", Arr [])].

Definition demo_page : gmap string element :=
  {[ "statPrice" := Element (Text "$0.00") EmptyString;
     "goalFill" := Element (Html EmptyString) "0%";
     "txList" := Element (Html EmptyString) EmptyString;
     "footer" := Element (Text "Tolkien") EmptyString ]}.

Definition demo_world : world := World demo_page (Storage ∅ false None) [].

Definition no_date : browser := example_browser EmptyString.


Lemma renderDashboard_again_witness :
  renderDashboard no_date demo (renderDashboard no_date demo demo_world).2
  = (Ret tt, (renderDashboard no_date demo demo_world).2).
Proof. apply (renderDashboard_again no_date demo demo_world). reflexivity. Defined.

Lemma renderDashboard_last_wins_witness :
  renderDashboard no_date demo (renderDashboard no_date earlier demo_world).2
  = renderDashboard no_date demo demo_world.
Proof.
  apply (renderDashboard_last_wins no_date earlier demo demo_world); reflexivity.
Defined.

Lemma renderDashboard_lists_witness :
  page (renderDashboard no_date demo demo_world).2 !! "txList"
  = Some (Element
            (Html (concat_all
                     (map (fun t => out (card no_date t))
                          [Obj [("kind", Str "burn"); ("amount_sol", Num 2.5);
                                ("description", Str "<b>burned</b>")];
                           Obj [("kind", Str "claim"); ("signature", Str "5xyz")]])))
            EmptyString).
Proof.
  apply (renderDashboard_lists no_date demo demo_world
           (Element (Html EmptyString) EmptyString)); reflexivity.
Defined.

Definition no_sequence : value :=
  Obj [("price_usd", Num 0.5); ("transactions", Num 5)].


Lemma card_description_verbatim_witness :
  exists before after,
    card no_date (Obj [("kind", Str "burn"); ("description", Str "<b>burned</b>")])
    = Ret (before +:+ "<p class=" +:+ dq +:+ "text-xs mb-4" +:+ dq +:+ ">"
           +:+ "<b>burned</b>" +:+ "<br>" +:+ after).
Proof.
  apply (card_description_verbatim no_date
           (Obj [("kind", Str "burn"); ("description", Str "<b>burned</b>")])
           "<b>burned</b>"); reflexivity.
Defined.

End SlotProofs.

(** ** The cache helpers *)

Module StorageProofs.
Import Text JS JSON Host App Spec.

(** A cache that cannot be read: the storage is denied, the slot is
    missing or empty, or what it holds is not JSON. *)
Definition unreadable (st : storage) : Prop :=
  denied st = true \/
  match items st !! CACHE_KEY with
  | None => True
  | Some text => text = EmptyString \/ exists e, parse text = Throw e
  end.

Lemma loadCache_unreadable (w : world) :
  unreadable (store w) -> loadCache w = (Ret Null, w).
Proof.
  unfold loadCache, try_catch, getItem, mbind, eff_bind, bind, lift.
  intros [Hd|Hslot].
  - rewrite Hd. reflexivity.
  - destruct (denied (store w)); [reflexivity|].
    destruct (items (store w) !! CACHE_KEY) as [[|c u]|]; try reflexivity.
    destruct Hslot as [Hempty|[e He]]; [discriminate|]. rewrite He. reflexivity.
Qed.

(** X9.  [loadCache] never throws and changes nothing; it returns null
    whenever the cache cannot be read. *)
Theorem loadCache_safe (w : world) :
  exists v, loadCache w = (Ret v, w) /\ (unreadable (store w) -> v = Null).
Proof.
  destruct (loadCache w) as [r w1] eqn:E.
  assert (H : exists v, r = Ret v /\ w1 = w).
  { revert E. unfold loadCache, try_catch, getItem, mbind, eff_bind, bind, lift.
    destruct (denied (store w)); [intros [= <- <-]; eauto|].
    destruct (items (store w) !! CACHE_KEY) as [[|c u]|];
      try (intros [= <- <-]; eauto).
    destruct (parse (String c u)); intros [= <- <-]; eauto. }
  destruct H as (v & -> & ->). exists v. split; [reflexivity|].
  intros Hu. rewrite (loadCache_unreadable w Hu) in E. congruence.
Qed.

Definition corrupt_cache : world :=
  World ∅ (Storage {[ CACHE_KEY := "{oops" ]} false None) [].

Lemma loadCache_safe_witness : loadCache corrupt_cache = (Ret Null, corrupt_cache).
Proof.
  destruct (loadCache_safe corrupt_cache) as (v & E & Hnull).
  rewrite E. rewrite Hnull; [reflexivity|].
  right. right. exists SyntaxError. reflexivity.
Defined.

(** What [saveCache] hands to the storage. *)
Definition cache_text (d : value) : string := default "undefined" (stringify d).

(** X10.  [saveCache] never throws.  It touches nothing but the cache slot,
    which then holds the text of the snapshot; and when the storage
    refuses the text (access denied, or quota exceeded) it changes
    nothing at all. *)
Theorem saveCache_safe (d : value) (w : world) :
  exists w',
    saveCache d w = (Ret tt, w') /\
    page w' = page w /\ console w' = console w /\
    denied (store w') = denied (store w) /\ quota (store w') = quota (store w) /\
    (forall k, k <> CACHE_KEY -> items (store w') !! k = items (store w) !! k) /\
    (storage_accepts (store w) CACHE_KEY (cache_text d) ->
     items (store w') !! CACHE_KEY = Some (cache_text d)) /\
    (~ storage_accepts (store w) CACHE_KEY (cache_text d) -> w' = w).
Proof.
  unfold saveCache, try_catch, setItem, storage_accepts. fold (cache_text d).
  destruct w as [p [it dn q] c]. cbn [store page console denied quota items].
  destruct dn.
  { eexists. split; [reflexivity|]. repeat split; try reflexivity.
    - intros [H _]. discriminate H.
    }
  destruct q as [q|].
  - destruct (Nat.ltb_spec q (String.length CACHE_KEY + String.length (cache_text d))).
    + eexists. split; [reflexivity|]. repeat split; try reflexivity.
      intros [_ H']. lia.
    + eexists. split; [reflexivity|]. cbn [store page console denied quota items].
      repeat split; try reflexivity.
      * intros k Hk. now rewrite lookup_insert_ne.
      * intros _. apply lookup_insert_eq.
      * intros Hn. exfalso. apply Hn. split; [reflexivity|lia].
  - eexists. split; [reflexivity|]. cbn [store page console denied quota items].
    repeat split; try reflexivity.
    + intros k Hk. now rewrite lookup_insert_ne.
    + intros _. apply lookup_insert_eq.
    + intros Hn. exfalso. apply Hn. split; [reflexivity|exact I].
Qed.

Definition full_storage : world :=
  World ∅ (Storage {[ CACHE_KEY := "{}" ]} false (Some 30%nat)) [].

Lemma saveCache_safe_witness :
  exists w',
    saveCache (Obj [("price_usd", Num 0.5)]) full_storage = (Ret tt, w') /\
    w' = full_storage.
Proof.
  destruct (saveCache_safe (Obj [("price_usd", Num 0.5)]) full_storage)
    as (w' & E & _ & _ & _ & _ & _ & _ & Hrefused).
  exists w'. split; [exact E|]. apply Hrefused.
  intros [_ H]. vm_compute in H. lia.
Defined.

(** The storage takes [text] under the cache key. *)
Definition fits (st : storage) (text : string) : bool :=
  negb (denied st) &&
  match quota st with
  | Some q => (String.length CACHE_KEY + String.length text <=? q)%nat
  | None => true
  end.

Lemma fits_accepts (st : storage) (text : string) :
  fits st text = true <-> storage_accepts st CACHE_KEY text.
Proof.
  unfold fits, storage_accepts. rewrite andb_true_iff, negb_true_iff.
  destruct (quota st); [rewrite Nat.leb_le|]; tauto.
Qed.

Lemma saveCache_run (d : value) (w : world) :
  saveCache d w
  = (Ret tt,
     if fits (store w) (cache_text d)
     then World (page w)
                (Storage (<[CACHE_KEY := cache_text d]> (items (store w)))
                         (denied (store w)) (quota (store w)))
                (console w)
     else w).
Proof.
  unfold saveCache, try_catch, setItem, fits. fold (cache_text d).
  destruct (denied (store w)); [reflexivity|].
  destruct (quota (store w)) as [q|]; [|reflexivity].
  set (n := (String.length CACHE_KEY + String.length (cache_text d))%nat).
  cbn [negb andb].
  destruct (Nat.ltb_spec q n), (Nat.leb_spec n q); try lia; reflexivity.
Qed.

(** X11.  The cache holds one snapshot: saving a second one gives the storage
    that saving it alone gives, when the storage accepts it. *)
Theorem saveCache_overwrites (d1 d2 : value) (w : world) :
  storage_accepts (store w) CACHE_KEY (cache_text d2) ->
  saveCache d2 (saveCache d1 w).2 = saveCache d2 w.
Proof.
  intros H. apply fits_accepts in H. rewrite !saveCache_run. cbn [snd].
  destruct (fits (store w) (cache_text d1)); [|reflexivity].
  unfold fits in *. cbn [store page console denied quota items] in *.
  rewrite H. now rewrite insert_insert_eq.
Qed.

Lemma saveCache_overwrites_witness :
  saveCache (Obj [("price_usd", Num 2)])
    (saveCache (Obj [("price_usd", Num 1)]) (World ∅ (Storage ∅ false None) [])).2
  = saveCache (Obj [("price_usd", Num 2)]) (World ∅ (Storage ∅ false None) []).
Proof.
  apply (saveCache_overwrites (Obj [("price_usd", Num 1)]) (Obj [("price_usd", Num 2)])
           (World ∅ (Storage ∅ false None) [])).
  split; [reflexivity | exact I].
Defined.



End StorageProofs.

(** ** One request, the first paint and the timer *)

Module LoopProofs.
Import Text JS JSON Host App Spec StringFacts ApiBaseProofs RenderProofs FrameProofs
  SlotProofs StorageProofs.

(** The world after [console.error(e)]. *)
Definition logged (e : exn) (w : world) : world :=
  World (page w) (store w) (console w ++ [e]).

(** The address that [fetchDashboard] requests. *)
Definition url (api : string) : string := api +:+ "/dashboard".

(** A response that [fetchDashboard] does not take: the request fails,
    the status is no success, or the body is no usable snapshot. *)
Definition not_taken (api : string) (net : string -> fetched) : Prop :=
  match net (url api) with
  | Rejected => True
  | Response status body =>
      ~ (200 <= status <= 299) \/
      forall d, parse body = Ret d -> isUsable d <> Ret true
  end.

Lemma ok_status (status : Z) :
  negb ((200 <=? status) && (status <=? 299)) = false <-> 200 <= status <= 299.
Proof.
  rewrite negb_false_iff, andb_true_iff, !Z.leb_le. reflexivity.
Qed.

Lemma saveCache_console (d : value) (w : world) :
  console (saveCache d w).2 = console w /\ page (saveCache d w).2 = page w.
Proof. rewrite saveCache_run. cbn [snd]. destruct (fits _ _); split; reflexivity. Qed.

Lemma app_inv_tail (s t u : string) : s +:+ u = t +:+ u -> s = t.
Proof.
  revert t. induction s as [|c s IH]; intros t H.
  - destruct t as [|c' t]; [reflexivity|exfalso].
    apply (f_equal String.length) in H.
    rewrite app_nil_l, app_cons in H. cbn [String.length] in H.
    rewrite app_length in H. lia.
  - destruct t as [|c' t].
    + exfalso. apply (f_equal String.length) in H.
      rewrite app_nil_l, app_cons in H. cbn [String.length] in H.
      rewrite app_length in H. lia.
    + rewrite !app_cons in H. injection H as -> H. f_equal. now apply IH.
Qed.

(** X13.  The one address that [fetchDashboard] asks the network for is
    the API base followed by "/dashboard": what the network answers
    elsewhere has no effect on the run.  As the base has lost its trailing
    slashes, that address never ends in "//dashboard", however the
    override is written: one slash stands between the base and
    "dashboard". *)
Theorem request_url (env : browser) (h : string) (override : value) (base : string) :
  API_BASE h override = Ret base ->
  (forall (net net' : string -> fetched) (w : world),
      net (base +:+ "/dashboard") = net' (base +:+ "/dashboard") ->
      fetchDashboard env base net w = fetchDashboard env base net' w)
  /\ (forall t, base +:+ "/dashboard" <> t +:+ "//dashboard").
Proof.
  intros H. split.
  - intros net net' w Hnet. unfold fetchDashboard. rewrite Hnet. reflexivity.
  - unfold API_BASE in H. intros t Hurl.
    destruct (or_else override _) as [ | |b|x|s|l|fs]; try discriminate H.
    injection H as <-.
    apply (strip_slashes_end s). exists t.
    apply (app_inv_tail _ _ "/dashboard"). rewrite Hurl.
    now rewrite app_assoc.
Qed.

Lemma request_url_witness :
  fetchDashboard (example_browser EmptyString) "https://api.example"
    (fun u => if String.eqb u "https://api.example/dashboard"
              then Response 200 "{}" else Rejected)
    (World ∅ (Storage ∅ false None) [])
  = fetchDashboard (example_browser EmptyString) "https://api.example"
      (fun _ => Response 200 "{}") (World ∅ (Storage ∅ false None) []).
Proof.
  destruct (request_url (example_browser EmptyString) "tolkien.example"
              (Str "https://api.example///") "https://api.example" eq_refl) as [H _].
  apply H. reflexivity.
Defined.

Section Loop.
Variable env : browser.

Lemma render_console (d : value) (w : world) :
  store (renderDashboard env d w).2 = store w /\
  console (renderDashboard env d w).2 = console w.
Proof.
  apply (renderDashboard_preserves
           (fun w w' => store w' = store w /\ console w' = console w)).
  - auto.
  - intros w1 w2 w3 [H1 H2] [H3 H4]. split; congruence.
  - intros id f w0 _. split; reflexivity.
Qed.

(** X14.  When the request is rejected, the status is no success, or the body
    is no JSON, [fetchDashboard] returns having logged the failure, and
    page and storage are as before. *)
Theorem fetchDashboard_failure (api : string) (net : string -> fetched) (w : world) :
  is_empty api = false ->
  (net (url api) = Rejected ->
   fetchDashboard env api net w = (Ret tt, logged NetworkError w)) /\
  (forall status body,
     net (url api) = Response status body -> ~ (200 <= status <= 299) ->
     fetchDashboard env api net w = (Ret tt, logged (HttpError status) w)) /\
  (forall status body e,
     net (url api) = Response status body -> 200 <= status <= 299 ->
     parse body = Throw e ->
     fetchDashboard env api net w = (Ret tt, logged e w)).
Proof.
  intros Hapi. unfold fetchDashboard, try_catch, url. rewrite Hapi.
  split; [|split].
  - intros ->. reflexivity.
  - intros status body -> Hbad.
    destruct (negb ((200 <=? status) && (status <=? 299))) eqn:E; [reflexivity|].
    apply ok_status in E. contradiction.
  - intros status body e -> Hok He. apply ok_status in Hok. rewrite Hok.
    unfold mbind, eff_bind, bind, lift. rewrite He. reflexivity.
Qed.

(** X15.  [fetchDashboard] never throws, and logs at most one error. *)
Theorem fetchDashboard_returns (api : string) (net : string -> fetched) (w : world) :
  exists w',
    fetchDashboard env api net w = (Ret tt, w') /\
    (console w' = console w \/ exists e, console w' = console w ++ [e]).
Proof.
  unfold fetchDashboard, try_catch.
  match goal with
  | |- context [let (r, w') := ?m w in _] => set (inner := m)
  end.
  assert (Hc : console (inner w).2 = console w).
  { unfold inner. destruct (is_empty api); [reflexivity|].
    destruct (net (api +:+ "/dashboard")) as [|status body]; [reflexivity|].
    destruct (negb ((200 <=? status) && (status <=? 299))); [reflexivity|].
    unfold mbind, eff_bind, bind, lift.
    destruct (parse body) as [d|e]; [|reflexivity].
    destruct (isUsable d) as [[]|e]; try reflexivity.
    pose proof (saveCache_console d w) as [Hs _].
    destruct (saveCache d w) as [[[]|e] w1]; cbn [snd] in *.
    - destruct (render_console d w1) as [_ Hr]. congruence.
    - exact Hs. }
  destruct (inner w) as [[[]|e] w1]; cbn [snd] in Hc.
  - exists w1. auto.
  - exists (logged e w1). split; [reflexivity|]. right. exists e.
    unfold logged. cbn [console]. now rewrite Hc.
Qed.

(** X16.  A usable snapshot is in the cache after [fetchDashboard], when the
    storage accepts it, whether rendering it then throws or not: it is
    saved first. *)
Theorem fetchDashboard_persists (api : string) (net : string -> fetched)
    (status : Z) (body : string) (d : value) (w : world) :
  is_empty api = false ->
  net (url api) = Response status body -> 200 <= status <= 299 ->
  parse body = Ret d -> isUsable d = Ret true ->
  storage_accepts (store w) CACHE_KEY (cache_text d) ->
  exists w',
    fetchDashboard env api net w = (Ret tt, w') /\
    items (store w') !! CACHE_KEY = Some (cache_text d).
Proof.
  intros Hapi Hnet Hok Hd Hu Hst. apply ok_status in Hok. apply fits_accepts in Hst.
  unfold fetchDashboard, try_catch, url in *. rewrite Hapi, Hnet, Hok.
  unfold mbind, eff_bind, bind, lift. rewrite Hd, Hu, saveCache_run, Hst.
  match goal with
  | |- context [renderDashboard _ d ?w1] =>
      destruct (render_console d w1) as [Hs _];
      destruct (renderDashboard env d w1) as [[[]|e] w2]
  end; cbn [snd] in Hs; eexists; (split; [reflexivity|]).
  - rewrite Hs. cbn [store items]. apply lookup_insert_eq.
  - unfold console_error. cbn [store]. rewrite Hs. cbn [store items].
    apply lookup_insert_eq.
Qed.


(** What a usable snapshot of the data model leaves: it is saved (if the
    storage takes it) and rendered. *)
Lemma fetchDashboard_taken (api : string) (net : string -> fetched)
    (status : Z) (body : string) (d : value) (w : world) :
  is_empty api = false ->
  net (url api) = Response status body -> 200 <= status <= 299 ->
  parse body = Ret d -> isUsable d = Ret true -> renderable d = true ->
  fetchDashboard env api net w
  = (Ret tt,
     World (apply_slots (slots env d) (page w))
           (if fits (store w) (cache_text d)
            then Storage (<[CACHE_KEY := cache_text d]> (items (store w)))
                         (denied (store w)) (quota (store w))
            else store w)
           (console w)).
Proof.
  intros Hapi Hnet Hok Hd Hu Hr. apply ok_status in Hok.
  unfold fetchDashboard, try_catch, url in *. rewrite Hapi, Hnet, Hok.
  unfold mbind, eff_bind, bind, lift. rewrite Hd, Hu, saveCache_run.
  rewrite (renderDashboard_slots env d _ Hr).
  destruct (fits (store w) (cache_text d)); reflexivity.
Qed.

(** X18.  Of two usable snapshots that arrive one after the other, only the
    later one counts: storage, page and console are as if it had arrived
    alone (it has a contract address to show, and the storage accepts
    it). *)
Theorem fetchDashboard_latest (api : string) (net1 net2 : string -> fetched)
    (s1 s2 : Z) (b1 b2 : string) (d1 d2 : value) (w : world) :
  is_empty api = false ->
  net1 (url api) = Response s1 b1 -> 200 <= s1 <= 299 ->
  parse b1 = Ret d1 -> isUsable d1 = Ret true -> renderable d1 = true ->
  net2 (url api) = Response s2 b2 -> 200 <= s2 <= 299 ->
  parse b2 = Ret d2 -> isUsable d2 = Ret true -> renderable d2 = true ->
  truthy (field d2 "token_mint") = true ->
  storage_accepts (store w) CACHE_KEY (cache_text d2) ->
  fetchDashboard env api net2
    (fetchDashboard env api net1 w).2
  = fetchDashboard env api net2 w.
Proof.
  intros Hapi N1 O1 P1 U1 R1 N2 O2 P2 U2 R2 Hmint Hst. apply fits_accepts in Hst.
  rewrite (fetchDashboard_taken api net1 s1 b1 d1 w Hapi N1 O1 P1 U1 R1).
  rewrite !(fetchDashboard_taken api net2 s2 b2 d2 _ Hapi N2 O2 P2 U2 R2).
  cbn [snd page store console]. rewrite Hst.
  rewrite apply_slots_twice by auto.
  destruct (fits (store w) (cache_text d1)); cbn [items denied quota].
  - assert (Hst' : fits (Storage (<[CACHE_KEY:=cache_text d1]> (items (store w)))
                                 (denied (store w)) (quota (store w))) (cache_text d2) = true)
      by exact Hst.
    rewrite Hst'. now rewrite insert_insert_eq.
  - rewrite Hst. reflexivity.
Qed.

(** X19.  The first paint: without a cache that can be read the script goes
    straight to its first request. *)
Theorem startup_without_cache (api : string) (net : string -> fetched) (w : world) :
  unreadable (store w) ->
  startup env api net w = fetchDashboard env api net w.
Proof.
  intros Hu. unfold startup, mbind, eff_bind, bind.
  rewrite (loadCache_unreadable w Hu). reflexivity.
Qed.

Lemma loadCache_cached (w : world) (text : string) (d : value) :
  denied (store w) = false -> items (store w) !! CACHE_KEY = Some text ->
  parse text = Ret d -> loadCache w = (Ret d, w).
Proof.
  intros Hd Ht Hp.
  unfold loadCache, try_catch, getItem, mbind, eff_bind, bind, lift.
  rewrite Hd, Ht. destruct text as [|c u]; [discriminate Hp|]. now rewrite Hp.
Qed.

(** X20.  The first paint: a cached snapshot of the data model is rendered,
    and then the first request is made. *)
Theorem startup_paints (api : string) (net : string -> fetched) (w : world)
    (text : string) (d : value) :
  denied (store w) = false -> items (store w) !! CACHE_KEY = Some text ->
  parse text = Ret d -> renderable d = true ->
  startup env api net w
  = fetchDashboard env api net
      (renderDashboard env d w).2.
Proof.
  intros Hd Ht Hp Hr. unfold startup, mbind, eff_bind, bind.
  rewrite (loadCache_cached w text d Hd Ht Hp).
  assert (Htruthy : truthy d = true).
  { apply andb_prop in Hr as [Hs _]. destruct d; try discriminate Hs. reflexivity. }
  rewrite Htruthy, (renderDashboard_slots env d w Hr). reflexivity.
Qed.

(** X21.  The first paint is not guarded: when rendering the cached snapshot
    throws, the script stops with this exception, and no request is
    made. *)
Theorem startup_stops (api : string) (net : string -> fetched) (w : world)
    (text : string) (d : value) (e : exn) :
  denied (store w) = false -> items (store w) !! CACHE_KEY = Some text ->
  parse text = Ret d -> truthy d = true ->
  (renderDashboard env d w).1 = Throw e ->
  startup env api net w
  = (Throw e, (renderDashboard env d w).2).
Proof.
  intros Hd Ht Hp Htruthy He. unfold startup, mbind, eff_bind, bind.
  rewrite (loadCache_cached w text d Hd Ht Hp), Htruthy.
  destruct (renderDashboard env d w) as [r w1].
  cbn [fst snd] in *. subst r. reflexivity.
Qed.

Lemma fetchDashboard_not_taken (api : string) (net : string -> fetched) (w : world) :
  not_taken api net ->
  exists w',
    fetchDashboard env api net w = (Ret tt, w') /\
    page w' = page w /\ store w' = store w.
Proof.
  unfold not_taken, fetchDashboard, try_catch, url.
  destruct (is_empty api); [intros _; eexists; split; [reflexivity|auto]|].
  destruct (net (api +:+ "/dashboard")) as [|status body].
  { intros _. eexists. split; [reflexivity|auto]. }
  destruct (negb ((200 <=? status) && (status <=? 299))) eqn:E.
  { intros _. eexists. split; [reflexivity|auto]. }
  apply ok_status in E. intros [Hbad|Hno]; [contradiction|].
  unfold mbind, eff_bind, bind, lift.
  destruct (parse body) as [d|e]; [|eexists; split; [reflexivity|auto]].
  specialize (Hno d eq_refl).
  destruct (isUsable d) as [[]|e]; [congruence| |];
    eexists; (split; [reflexivity|auto]).
Qed.

(** X22.  Runs whose responses are not taken leave page and storage as they
    are, however many they are: the last good rendering stands. *)
Theorem poll_keeps (api : string) (nets : list (string -> fetched)) (w : world) :
  Forall (not_taken api) nets ->
  exists w',
    poll env api nets w = (Ret tt, w') /\
    page w' = page w /\ store w' = store w.
Proof.
  intros H. revert w. induction H as [|net nets Hnet _ IH]; intros w.
  - exists w. auto.
  - destruct (fetchDashboard_not_taken api net w Hnet) as (w1 & E1 & Hp1 & Hs1).
    destruct (IH w1) as (w2 & E2 & Hp2 & Hs2).
    exists w2. cbn [poll]. unfold mbind, eff_bind, bind. rewrite E1.
    split; [exact E2|]. split; congruence.
Qed.

(** X23.  The timer never stops on an exception: every run returns, and the
    runs log at most one error each. *)
Theorem poll_returns (api : string) (nets : list (string -> fetched)) (w : world) :
  exists w',
    poll env api nets w = (Ret tt, w') /\
    (length (console w') <= length (console w) + length nets)%nat.
Proof.
  revert w. induction nets as [|net nets IH]; intros w.
  - exists w. split; [reflexivity|lia].
  - destruct (fetchDashboard_returns api net w) as (w1 & E1 & Hc1).
    destruct (IH w1) as (w2 & E2 & Hc2).
    exists w2. cbn [poll]. unfold mbind, eff_bind, bind. rewrite E1.
    split; [exact E2|]. cbn [length].
    destruct Hc1 as [Hc1|[e Hc1]]; rewrite Hc1 in Hc2;
      [|rewrite length_app in Hc2; cbn [length] in Hc2]; lia.
Qed.

(** X24.  Away from a local host and without an override there is no API
    base, and the timer requests nothing and changes nothing. *)
Theorem no_base_no_request (h : string) (o : option string)
    (nets : list (string -> fetched)) (w : world) :
  isLocal h = false -> o = None \/ o = Some EmptyString ->
  API_BASE h (override_value o) = Ret EmptyString /\
  poll env EmptyString nets w = (Ret tt, w).
Proof.
  intros Hl Ho. split.
  - unfold API_BASE, or_else. destruct Ho as [-> | ->]; simpl; rewrite Hl; reflexivity.
  - induction nets as [|net nets IH]; [reflexivity|].
    cbn [poll]. unfold mbind, eff_bind, bind. exact IH.
Qed.

End Loop.

Definition api_example : string := "https://api.example".

Definition down : string -> fetched := fun _ => Rejected.

Definition answers (d : value) : string -> fetched :=
  fun _ => Response 200 (cache_text d).

Definition cached (d : value) : world :=
  World demo_page (Storage {[ CACHE_KEY := cache_text d ]} false None) [].

Lemma fetchDashboard_failure_witness :
  fetchDashboard no_date api_example (fun _ => Response 503 EmptyString) demo_world
  = (Ret tt, logged (HttpError 503) demo_world).
Proof.
  destruct (fetchDashboard_failure no_date api_example
              (fun _ => Response 503 EmptyString) demo_world eq_refl) as (_ & H & _).
  apply (H 503 EmptyString); [reflexivity | lia].
Defined.

Lemma fetchDashboard_persists_witness :
  exists w',
    fetchDashboard no_date api_example (answers no_sequence) demo_world = (Ret tt, w') /\
    items (store w') !! CACHE_KEY = Some (cache_text no_sequence).
Proof.
  apply (fetchDashboard_persists no_date api_example (answers no_sequence) 200
           (cache_text no_sequence) no_sequence demo_world);
    [reflexivity | reflexivity | lia | reflexivity | reflexivity
     | split; [reflexivity | exact I]].
Defined.


Lemma fetchDashboard_latest_witness :
  fetchDashboard no_date api_example (answers demo)
    (fetchDashboard no_date api_example (answers earlier) demo_world).2
  = fetchDashboard no_date api_example (answers demo) demo_world.
Proof.
  apply (fetchDashboard_latest no_date api_example (answers earlier) (answers demo)
           200 200 (cache_text earlier) (cache_text demo) earlier demo demo_world);
    try reflexivity; try lia.
  split; [reflexivity | exact I].
Defined.

Lemma startup_without_cache_witness :
  startup no_date api_example down demo_world
  = fetchDashboard no_date api_example down demo_world.
Proof.
  apply (startup_without_cache no_date api_example down demo_world).
  right. exact I.
Defined.

Lemma startup_paints_witness :
  startup no_date api_example down (cached demo)
  = fetchDashboard no_date api_example down (renderDashboard no_date demo (cached demo)).2.
Proof.
  apply (startup_paints no_date api_example down (cached demo) (cache_text demo) demo);
    reflexivity.
Defined.

Lemma startup_stops_witness :
  startup no_date api_example down (cached no_sequence)
  = (Throw TypeError, (renderDashboard no_date no_sequence (cached no_sequence)).2).
Proof.
  apply (startup_stops no_date api_example down (cached no_sequence)
           (cache_text no_sequence) no_sequence TypeError);
    reflexivity.
Defined.

Lemma poll_keeps_witness :
  exists w',
    poll no_date api_example
      [down; (fun _ => Response 500 EmptyString); (fun _ => Response 200 "{}")]
      (cached demo)
    = (Ret tt, w') /\
    page w' = page (cached demo) /\ store w' = store (cached demo).
Proof.
  apply (poll_keeps no_date api_example
           [down; (fun _ => Response 500 EmptyString); (fun _ => Response 200 "{}")]
           (cached demo)).
  constructor; [exact I|].
  constructor; [hnf; left; lia|].
  constructor; [|constructor].
  hnf. right. intros d Hd. vm_compute in Hd. injection Hd as <-. discriminate.
Defined.

Lemma no_base_no_request_witness :
  API_BASE "tolkien.example" (override_value None) = Ret EmptyString /\
  poll no_date EmptyString [answers demo] demo_world = (Ret tt, demo_world).
Proof.
  apply (no_base_no_request no_date "tolkien.example" None [answers demo] demo_world);
    [reflexivity | left; reflexivity].
Defined.

End LoopProofs.

(** ** More of the formatters *)

Module AmountProofs.
Import Text JS Host App Spec StringFacts DigitFacts FloatFacts WidthProofs FormatProofs
  LocaleProofs FrameProofs SlotProofs.

(** *** Comparisons of numbers *)

Lemma SFcompare_total (x y : spec_float) :
  x <> S754_nan -> y <> S754_nan -> exists c, SFcompare x y = Some c.
Proof.
  intros Hx Hy.
  destruct x as [s|s| |s m e], y as [s'|s'| |s' m' e']; try congruence;
    unfold SFcompare; try (destruct s; try destruct s'; eauto); try (destruct s'; eauto).
  all: destruct (e ?= e'); eauto.
Qed.

Lemma not_nan_spec (x : float) : is_nan x = false -> Prim2SF x <> S754_nan.
Proof. rewrite is_nan_spec. destruct (Prim2SF x); congruence. Qed.

Lemma ltb_leb (x y : float) : (x <? y)%float = true -> (x <=? y)%float = true.
Proof.
  rewrite FloatAxioms.ltb_spec, FloatAxioms.leb_spec. unfold SFltb, SFleb.
  destruct (SFcompare (Prim2SF x) (Prim2SF y)) as [[]|]; congruence.
Qed.

(** Of two numbers one is below the other, or they are equal. *)
Lemma not_ltb_leb (x y : float) :
  is_nan x = false -> is_nan y = false ->
  (x <? y)%float = false -> (y <=? x)%float = true.
Proof.
  intros Hx Hy. rewrite FloatAxioms.ltb_spec, FloatAxioms.leb_spec. unfold SFltb, SFleb.
  rewrite (SFcompare_antisym (Prim2SF x) (Prim2SF y)).
  destruct (SFcompare_total _ _ (not_nan_spec x Hx) (not_nan_spec y Hy)) as [c ->].
  destruct c; simpl; congruence.
Qed.

Lemma or_zero_number (x : float) : is_nan (or_zero x) = false.
Proof.
  unfold or_zero. destruct (is_nan x) eqn:E; [reflexivity|]. simpl.
  destruct (is_zero x); [reflexivity | exact E].
Qed.

(** *** The bars *)

(** X25.  Whatever the percentage is, a number or not, the width that
    [setWidth] gives an element is between 0% and 100%. *)
Theorem setWidth_bounded (id : string) (pct : value) (x : float) (w : world) :
  ToNumber pct = Ret x ->
  exists v,
    setWidth (Some id) pct w
    = (Ret tt, write id (with_width (JSNumber.toString v +:+ "%")) w) /\
    (0 <=? v)%float = true /\ (v <=? 100)%float = true.
Proof.
  intros Hx. exists (Math_max 0 (Math_min 100 (or_zero x))). split.
  { unfold setWidth, lift, mbind, eff_bind, bind. rewrite Hx. reflexivity. }
  pose proof (or_zero_number x) as Hy. set (y := or_zero x) in *.
  rewrite (Math_min_100 y Hy).
  destruct (100 <? y)%float eqn:H100.
  - split; reflexivity.
  - rewrite (Math_max_0 y Hy).
    destruct (0 <? y)%float eqn:H0.
    + split; [now apply ltb_leb | apply not_ltb_leb; [reflexivity | exact Hy | exact H100]].
    + split; reflexivity.
Qed.

Lemma setWidth_bounded_witness :
  exists v,
    setWidth (Some "goalFill") (Str "wide") demo_world
    = (Ret tt, write "goalFill" (with_width (JSNumber.toString v +:+ "%")) demo_world) /\
    (0 <=? v)%float = true /\ (v <=? 100)%float = true.
Proof. apply (setWidth_bounded "goalFill" (Str "wide") nan demo_world). reflexivity. Defined.

(** *** Prices *)

(** X26.  Whatever is not above zero (a negative number, a zero, what is no
    number) is shown as "$0.00". *)
Theorem fmtPrice_floor (v : value) (x : float) :
  ToNumber v = Ret x -> (0 <? x)%float = false -> fmtPrice v = Ret "$0.00".
Proof.
  intros Hx Hpos. unfold fmtPrice. rewrite Hx. cbn [mbind result_bind].
  unfold or_zero. destruct (is_nan x || is_zero x) eqn:E; [reflexivity|].
  assert (Hlow : forall c m e, Prim2SF c = S754_finite false m e -> (c <=? x)%float = false).
  { intros c m e Hc. destruct (c <=? x)%float eqn:Hle; [|reflexivity].
    pose proof (leb_pos_const c x m e Hc Hle) as H.
    rewrite ltb_zero_l in Hpos.
    destruct (Prim2SF x) as [s|s| |s m' e']; try contradiction;
      destruct s; try contradiction; discriminate Hpos. }
  rewrite (Hlow 0.01%float 5764607523034235%positive (-59) eq_refl).
  rewrite (Hlow 0.000001%float 4722366482869645%positive (-72) eq_refl).
  rewrite Hpos. reflexivity.
Qed.

Lemma fmtPrice_floor_witness : fmtPrice (Num (-4.2)) = Ret "$0.00".
Proof. apply (fmtPrice_floor (Num (-4.2)) (-4.2)%float); reflexivity. Defined.

(** *** Amounts in dollars *)

(** X27.  An amount is shown after "$" as the locale of the browser writes
    it with at most 2 fractional digits (0 for what is no number): the
    digits are a nearest decimal of at most 2 fractional digits to what
    [toString] prints for the magnitude of the amount.  In the en-US
    locale 1234567.891 gives "$1,234,567.89", 1.005 gives "$1.01", 1e23
    gives "$100,000,000,000,000,000,000,000", -0.5 gives "$-0.5" and an
    absent amount gives "$0". *)
Theorem fmtUSD_spec (env : browser) (v : value) (x : float) :
  ToNumber v = Ret x ->
  (exists text,
      (fmtUSD env v = Ret ("$" +:+ text)) /\
      (shows_number (default_locale env) 2 (or_zero x) text))
  /\ (default_locale env = JSNumber.en_US ->
      (fmtUSD env (Num 1234567.891) = Ret "$1,234,567.89") /\
      (fmtUSD env (Num 1.005) = Ret "$1.01") /\
      (fmtUSD env (Num 1e23) = Ret "$100,000,000,000,000,000,000,000") /\
      (fmtUSD env (Num (-0.5)) = Ret "$-0.5") /\
      (fmtUSD env Undefined = Ret "$0")).
Proof.
  intros Hx. split.
  - exists (JSNumber.toLocaleString (default_locale env) 2 (or_zero x)).
    split; [|apply toLocaleString_shows].
    unfold fmtUSD. rewrite Hx. reflexivity.
  - intros Hl. unfold fmtUSD. rewrite Hl.
    repeat split; vm_compute; reflexivity.
Qed.

Lemma fmtUSD_spec_witness :
  exists text,
    (fmtUSD (example_browser EmptyString) (Str "12.5") = Ret ("$" +:+ text)) /\
    (shows_number JSNumber.en_US 2 12.5 text).
Proof.
  destruct (fmtUSD_spec (example_browser EmptyString) (Str "12.5") 12.5%float eq_refl)
    as [H _].
  exact H.
Defined.

End AmountProofs.
